(** * The distraction sequence-to-sequence model
    (models/basic_files/dynamic_distraction_simple_soft.py)

    The module builds its losses and its attention decoder out of the host
    framework's tensor operations.  A tensor is embedded by what it evaluates
    to: a shape and a value at every index, over the real numbers.  The
    Python-level effects of the module (exceptions, the variable store and
    its scopes) are kept as they are in the source. *)

From Stdlib Require Import Reals Lra Lia ZArith.
From stdpp Require Import gmap strings list pretty.

Open Scope R_scope.

(** ** Exceptions *)

Inductive value_error :=
  | LengthsDiffer            (* "Lengths of logits, weights, and targets must be the same" *)
  | NoInputs                 (* "Must provide at least 1 input to attention decoder." *)
  | NoHeads                  (* "With less than 1 heads, use a non-attention decoder." *)
  | AttnShapeUnknown         (* "Shape[2] of attention_states must be known" *)
  | InputSizeUnknown         (* "Could not infer input size from input" *)
  | RankMismatch             (* TensorShape.with_rank *)
  | EmptyAddN                (* math_ops.add_n on an empty list *)
  | DepthMismatch            (* nn_ops.conv2d: input depth and filter depth differ *)
  | VarExists                (* get_variable, reuse off, the name is taken *)
  | VarMissing               (* get_variable, reuse on, the name is unknown *)
  | VarShape                 (* get_variable, reuse on, the shapes disagree *)
  | VarShapeUndefined        (* get_variable, a new variable without a full shape *)
  | ShapesIncompatible       (* TensorShape.assert_is_compatible_with, merge_with *)
  | BranchesDiffer           (* control_flow_ops.cond: the branches return lists of different lengths *)
  | BroadcastMismatch        (* an elementwise operation on shapes that do not broadcast *)
  | AddNShapes               (* math_ops.add_n on tensors of different shapes *)
  | SliceOutOfBounds.        (* array_ops.shape(t)[k] on a tensor without a dimension k *)

Inductive exn :=
  | ValueError (e : value_error)
  | TypeError
  | IndexError
  | AssertionError.

Inductive result (A : Type) :=
  | Ok (a : A)
  | Raise (e : exn).
Arguments Ok {A} a.
Arguments Raise {A} e.

#[global] Instance result_ret : MRet result := @Ok.
#[global] Instance result_bind : MBind result := fun A B f r =>
  match r with Ok a => f a | Raise e => Raise e end.

(** ** Tensors *)

(** A tensor is its static shape, its shape and its elements.  An operation
    is given as the tensor it evaluates to on operands whose shapes it
    accepts.  Where the functions of this module are followed through the
    shapes an operation rejects, the operation comes with the check of its
    shape function and returns a [result]: [elementwise], [add_n],
    [sparse_softmax_cross_entropy_with_logits] and [shape_item] in the
    sequence losses, [shape_item], [conv2d] and the static shape checks in
    the decoder. *)

(** What [get_shape()] knows at graph-construction time: [None] when even
    the rank is unknown, otherwise one optional size per dimension. *)
Definition static_shape := option (list (option nat)).

Record tensor (A : Type) := Tensor {
  tstatic : static_shape;
  tshape : list nat;
  tget : list nat -> A
}.
Arguments Tensor {A} _ _ _.
Arguments tstatic {A} _.
Arguments tshape {A} _.
Arguments tget {A} _ _.

(** The result of an operation: its static shape is the shape it has. *)
Definition op_result {A} (s : list nat) (g : list nat -> A) : tensor A :=
  Tensor (Some (map Some s)) s g.

(** A Python float used as an operand. *)
Definition scalar (r : R) : tensor R := op_result [] (fun _ => r).

Fixpoint sum_n (n : nat) (f : nat -> R) : R :=
  match n with
  | O => 0
  | S k => sum_n k f + f k
  end.

Definition sum_list (l : list R) : R := fold_right Rplus 0 l.

(** *** Broadcasting: shapes are aligned on their last dimension, a
    dimension of size 1 is read at index 0. *)

Definition bdim (d i : nat) : nat := if (d =? 1)%nat then O else i.

Fixpoint bidx_r (s idx : list nat) : list nat :=
  match s, idx with
  | d :: s', i :: idx' => bdim d i :: bidx_r s' idx'
  | _, _ => []
  end.

Definition bidx (s idx : list nat) : list nat := rev (bidx_r (rev s) (rev idx)).

Fixpoint bshape_r (s1 s2 : list nat) : list nat :=
  match s1, s2 with
  | [], _ => s2
  | _, [] => s1
  | d1 :: r1, d2 :: r2 => (if (d1 =? 1)%nat then d2 else d1) :: bshape_r r1 r2
  end.

Definition bshape (s1 s2 : list nat) : list nat := rev (bshape_r (rev s1) (rev s2)).

(** What an elementwise operation evaluates to on two shapes that
    broadcast. *)
Definition binop (f : R -> R -> R) (a b : tensor R) : tensor R :=
  op_result (bshape (tshape a) (tshape b))
            (fun idx => f (tget a (bidx (tshape a) idx)) (tget b (bidx (tshape b) idx))).

(** Two shapes broadcast when, aligned on their last dimension, the two
    sizes of every pair are equal or one of them is 1. *)
Fixpoint broadcastable_r (s1 s2 : list nat) : bool :=
  match s1, s2 with
  | d1 :: r1, d2 :: r2 =>
      ((d1 =? d2)%nat || (d1 =? 1)%nat || (d2 =? 1)%nat) && broadcastable_r r1 r2
  | _, _ => true
  end.

Definition broadcastable (s1 s2 : list nat) : bool :=
  broadcastable_r (rev s1) (rev s2).

(** An elementwise operation with the check of its shapes: ValueError when
    they do not broadcast. *)
Definition elementwise (op : tensor R -> tensor R -> tensor R) (a b : tensor R)
    : result (tensor R) :=
  if broadcastable (tshape a) (tshape b) then Ok (op a b)
  else Raise (ValueError BroadcastMismatch).

Definition unop (f : R -> R) (a : tensor R) : tensor R :=
  op_result (tshape a) (fun idx => f (tget a idx)).

Definition add := binop Rplus.
Definition sub := binop Rminus.
Definition mul := binop Rmult.
Definition div := binop Rdiv.

Definition sigmoid_R (x : R) : R := 1 / (1 + exp (- x)).
Definition sigmoid := unop sigmoid_R.
Definition tanh_t := unop tanh.

(** *** Reductions *)

Definition insert_at {A} (k : nat) (x : A) (l : list A) : list A :=
  firstn k l ++ x :: skipn k l.

Definition remove_at {A} (k : nat) (l : list A) : list A :=
  firstn k l ++ skipn (S k) l.

Definition reduce_axis (a : tensor R) (k : nat) : tensor R :=
  op_result (remove_at k (tshape a))
            (fun idx => sum_n (nth k (tshape a) O) (fun i => tget a (insert_at k i idx))).

(** [math_ops.reduce_sum(a, axes)]; the axes are removed from the last one
    to the first, so that the remaining ones keep their positions. *)
Definition reduce_sum (a : tensor R) (axes : list nat) : tensor R :=
  fold_left reduce_axis (rev axes) a.

Fixpoint sum_over (s : list nat) (g : list nat -> R) : R :=
  match s with
  | [] => g []
  | d :: s' => sum_n d (fun i => sum_over s' (fun idx => g (i :: idx)))
  end.

(** [math_ops.reduce_sum(a)]: every dimension is reduced. *)
Definition reduce_sum_all (a : tensor R) : tensor R :=
  op_result [] (fun _ => sum_over (tshape a) (tget a)).

(** [math_ops.add_n]: needs one tensor at least, returns a single input as
    it is, and adds tensors of one shape position by position; tensors of
    different shapes are rejected. *)
Definition add_n (inputs : list (tensor R)) : result (tensor R) :=
  match inputs with
  | [] => Raise (ValueError EmptyAddN)
  | [x] => Ok x
  | x :: rest =>
      if forallb (fun t => bool_decide (tshape t = tshape x)) rest then
        Ok (op_result (tshape x)
              (fun idx => fold_left Rplus (map (fun t => tget t idx) rest) (tget x idx)))
      else Raise (ValueError AddNShapes)
  end.

(** *** Reshape, through row-major flat positions *)

Fixpoint ravel_r (s idx : list nat) : nat :=
  match s, idx with
  | d :: s', i :: idx' => (i + d * ravel_r s' idx')%nat
  | _, _ => O
  end.

Fixpoint unravel_r (s : list nat) (n : nat) : list nat :=
  match s with
  | [] => []
  | d :: s' => (n mod d)%nat :: unravel_r s' (n / d)%nat
  end.

Definition ravel (s idx : list nat) : nat := ravel_r (rev s) (rev idx).
Definition unravel (s : list nat) (n : nat) : list nat := rev (unravel_r (rev s) n).

Definition numel (s : list nat) : nat := fold_right Nat.mul 1%nat s.

(** The shape a reshape asks for, with the one [-1] entry inferred from the
    number of elements. *)
Definition resolve_shape (n : nat) (spec : list Z) : list nat :=
  let known := fold_right (fun d acc => if (d <? 0)%Z then acc else (Z.to_nat d * acc)%nat)
                          1%nat spec in
  map (fun d => if (d <? 0)%Z then (n / known)%nat else Z.to_nat d) spec.

Definition reshape {A} (a : tensor A) (spec : list Z) : tensor A :=
  let s := resolve_shape (numel (tshape a)) spec in
  Tensor (Some (map Some s)) s (fun idx => tget a (unravel (tshape a) (ravel s idx))).

(** ** The sequence losses *)

(** [nn_ops.sparse_softmax_cross_entropy_with_logits]: for logits of shape
    [[batch; classes]] and one label per example, the negated logarithm of
    the softmax probability of every example's label.  The shape function
    of the operation rejects logits of another rank and labels of another
    shape. *)
Definition sparse_softmax_cross_entropy_with_logits
    (logits : tensor R) (labels : tensor Z) : result (tensor R) :=
  match tshape logits with
  | [batch; classes] =>
      if bool_decide (tshape labels = [batch]) then
        Ok (op_result [batch]
              (fun idx =>
                 let b := nth 0 idx O in
                 ln (sum_n classes (fun j => exp (tget logits [b; j])))
                 - tget logits [b; Z.to_nat (tget labels [b])]))
      else Raise (ValueError ShapesIncompatible)
  | _ => Raise (ValueError RankMismatch)
  end.

Definition loss_function := tensor R -> tensor Z -> tensor R.

(** The first half of the body of the loop over
    [zip(logits, targets, weights)]: the cross-entropy of the step. *)
Definition cross_entropy (softmax_loss_function : option loss_function)
    (logit : tensor R) (target : tensor Z) : result (tensor R) :=
  match softmax_loss_function with
  | None =>
      let target := reshape target [(-1)%Z] in
      sparse_softmax_cross_entropy_with_logits logit target
  | Some f => Ok (f logit target)
  end.

(** [crossent], the value of the cross-entropy of a step that computes
    one (a scalar 0 stands for the value that a rejected step does not
    have). *)
Definition crossent (softmax_loss_function : option loss_function)
    (logit : tensor R) (target : tensor Z) : tensor R :=
  match cross_entropy softmax_loss_function logit target with
  | Ok t => t
  | Raise _ => scalar 0
  end.

Fixpoint zip3 {A B C} (la : list A) (lb : list B) (lc : list C) : list (A * B * C) :=
  match la, lb, lc with
  | a :: la', b :: lb', c :: lc' => (a, b, c) :: zip3 la' lb' lc'
  | _, _, _ => []
  end.

(** [total_size = add_n(weights); total_size += 1e-12] *)
Definition total_size_guarded (total_size : tensor R) : tensor R :=
  add total_size (scalar 1e-12).

(** A loop that builds a list and stops at the first exception. *)
Fixpoint for_each {A B} (f : A -> result B) (l : list A) : result (list B) :=
  match l with
  | [] => Ok []
  | x :: l' => y ← f x; ys ← for_each f l'; mret (y :: ys)
  end.

Definition sequence_loss_by_example
    (logits : list (tensor R)) (targets : list (tensor Z)) (weights : list (tensor R))
    (average_across_timesteps : bool)
    (softmax_loss_function : option loss_function) : result (tensor R) :=
  if negb (length targets =? length logits)%nat || negb (length weights =? length logits)%nat
  then Raise (ValueError LengthsDiffer)
  else
    log_perp_list ←
      for_each (fun '(logit, target, weight) =>
                  crossent ← cross_entropy softmax_loss_function logit target;
                  elementwise mul crossent weight)
               (zip3 logits targets weights);
    log_perps ← add_n log_perp_list;
    if average_across_timesteps then
      total_size ← add_n weights;
      elementwise div log_perps (total_size_guarded total_size)
    else mret log_perps.

(** The size of dimension [k] of a tensor that has one. *)
Definition shape_dim {A} (t : tensor A) (k : nat) : nat := nth k (tshape t) O.

(** [array_ops.shape(t)[k]]: the slice of the shape vector fails on a
    tensor of rank [k] or less. *)
Definition shape_item {A} (t : tensor A) (k : nat) : result nat :=
  if (k <? length (tshape t))%nat then Ok (shape_dim t k)
  else Raise (ValueError SliceOutOfBounds).

(** [if d is None: d = shape(t)[k]] *)
Definition static_or_shape {A} (d : option nat) (t : tensor A) (k : nat) : result nat :=
  match d with
  | Some n => Ok n
  | None => shape_item t k
  end.

(** [math_ops.cast(n, dtypes.float32)] *)
Definition cast_float32 (n : nat) : tensor R := scalar (INR n).

(** Python's [l[i]]. *)
Definition item {A} (l : list A) (i : nat) : result A :=
  match nth_error l i with
  | Some x => Ok x
  | None => Raise IndexError
  end.

Definition sequence_loss
    (logits : list (tensor R)) (targets : list (tensor Z)) (weights : list (tensor R))
    (average_across_timesteps average_across_batch : bool)
    (softmax_loss_function : option loss_function) : result (tensor R) :=
  log_perps ← sequence_loss_by_example logits targets weights
                 average_across_timesteps softmax_loss_function;
  let cost := reduce_sum_all log_perps in
  if average_across_batch then
    target0 ← item targets 0;
    batch_size ← shape_item target0 0;
    mret (div cost (cast_float32 batch_size))
  else mret cost.

(** ** More host operations *)

Definition matmul (a b : tensor R) : tensor R :=
  op_result [nth 0 (tshape a) O; nth 1 (tshape b) O]
    (fun idx =>
       let i := nth 0 idx O in
       let j := nth 1 idx O in
       sum_n (nth 1 (tshape a) O) (fun k => tget a [i; k] * tget b [k; j])).

(** [array_ops.transpose] without a permutation reverses the dimensions. *)
Definition transpose (a : tensor R) : tensor R :=
  op_result (rev (tshape a)) (fun idx => tget a (rev idx)).

Definition set_last (idx : list nat) (l : nat) : list nat := removelast idx ++ [l].

(** [nn_ops.softmax]: over the last dimension. *)
Definition softmax (a : tensor R) : tensor R :=
  op_result (tshape a)
    (fun idx => exp (tget a idx)
                / sum_n (List.last (tshape a) O) (fun l => exp (tget a (set_last idx l)))).

(** [nn_ops.conv2d(input, k, [1, 1, 1, 1], "SAME")] for a filter of height
    and width 1, the only one this module builds.  The depth of the input
    has to be the input depth of the filter. *)
Definition conv2d (input filter : tensor R) : result (tensor R) :=
  if (nth 3 (tshape input) O =? nth 2 (tshape filter) O)%nat then
    Ok (op_result (firstn 3 (tshape input) ++ [nth 3 (tshape filter) O])
          (fun idx =>
             sum_n (nth 2 (tshape filter) O)
                   (fun c => tget input (firstn 3 idx ++ [c])
                             * tget filter [O; O; c; nth 3 idx O])))
  else Raise (ValueError DepthMismatch).

(** [array_ops.concat(1, values)] on 2D tensors. *)
Fixpoint concat1_get (values : list (tensor R)) (b j : nat) : R :=
  match values with
  | [] => 0
  | t :: rest =>
      let n := nth 1 (tshape t) O in
      if (j <? n)%nat then tget t [b; j] else concat1_get rest b (j - n)
  end.

Definition concat1 (values : list (tensor R)) : tensor R :=
  op_result [nth 0 (tshape (hd (scalar 0) values)) O;
             fold_right (fun t acc => (nth 1 (tshape t) O + acc)%nat) O values]
    (fun idx => concat1_get values (nth 0 idx O) (nth 1 idx O)).

(** [array_ops.zeros(array_ops.pack([batch_size, size]))] followed by
    [set_shape([None, size])]. *)
Definition zeros_batch (batch_size size : nat) : tensor R :=
  Tensor (Some [None; Some size]) [batch_size; size] (fun _ => 0).

(** ** Static shapes *)

(** [t.get_shape()[k].value] *)
Definition dimension (s : static_shape) (k : nat) : result (option nat) :=
  match s with
  | None => Ok None
  | Some dims =>
      match nth_error dims k with
      | Some d => Ok d
      | None => Raise IndexError
      end
  end.

(** [t.get_shape().with_rank(r)] *)
Definition with_rank (s : static_shape) (r : nat) : result (list (option nat)) :=
  match s with
  | None => Ok (repeat None r)
  | Some dims => if (length dims =? r)%nat then Ok dims else Raise (ValueError RankMismatch)
  end.

(** [t.get_shape().ndims] *)
Definition ndims (s : static_shape) : option nat := length <$> s.

(** ** The variable store and its scopes *)

Record variable := Var { vid : nat; vshape : list nat }.

(** The store maps the full name of a variable to the variable.  [trace]
    is a ghost field: the results of the calls to [get_variable] so far,
    oldest first.  Nothing in the module reads it. *)
Record var_store := Store {
  vars : gmap string variable;
  next_id : nat;
  trace : list (string * variable)
}.

Record var_scope := Scope { sname : string; sreuse : bool }.

Definition M (A : Type) : Type := var_store -> result A * var_store.

#[global] Instance M_ret : MRet M := fun A a st => (Ok a, st).
#[global] Instance M_bind : MBind M := fun A B f m st =>
  match m st with
  | (Ok a, st') => f a st'
  | (Raise e, st') => (Raise e, st')
  end.

Definition raise {A} (e : exn) : M A := fun st => (Raise e, st).

Definition lift {A} (r : result A) : M A := fun st => (r, st).

(** [try: body except ValueError: handler]; what the body did to the store
    before it raised stays done. *)
Definition try_except_ValueError {A} (body handler : M A) : M A := fun st =>
  match body st with
  | (Raise (ValueError _), st') => handler st'
  | other => other
  end.

(** Ghost: run [m] and also return the part of the trace it added. *)
Definition listen {A} (m : M A) : M (A * list (string * variable)) := fun st =>
  match m (Store (vars st) (next_id st) []) with
  | (Ok a, st') =>
      (Ok (a, trace st'), Store (vars st') (next_id st') (trace st ++ trace st'))
  | (Raise e, st') =>
      (Raise e, Store (vars st') (next_id st') (trace st ++ trace st'))
  end.

Fixpoint mapM {A B} (f : A -> M B) (l : list A) : M (list B) :=
  match l with
  | [] => mret []
  | x :: l' => y ← f x; ys ← mapM f l'; mret (y :: ys)
  end.

Definition full_name (sc : var_scope) (name : string) : string :=
  if String.eqb (sname sc) "" then name else sname sc +:+ "/" +:+ name.

(** [with variable_scope.variable_scope(name_or_scope, reuse=reuse)]: the
    scope that is current inside the block. *)
Definition variable_scope (cur : var_scope) (name_or_scope : string + var_scope)
    (reuse : option bool) : var_scope :=
  match name_or_scope with
  | inl name => Scope (full_name cur name)
                      (match reuse with Some true => true | _ => sreuse cur end)
  | inr sc => Scope (sname sc) (match reuse with Some r => r | None => sreuse sc end)
  end.

(** [scope.reuse_variables()] *)
Definition reuse_variables (sc : var_scope) : var_scope := Scope (sname sc) true.

Fixpoint fully_defined (shape : list (option nat)) : option (list nat) :=
  match shape with
  | [] => Some []
  | Some d :: rest => cons d <$> fully_defined rest
  | None :: _ => None
  end.

Fixpoint compatible_with (shape : list (option nat)) (s : list nat) : bool :=
  match shape, s with
  | [], [] => true
  | None :: shape', _ :: s' => compatible_with shape' s'
  | Some d :: shape', d' :: s' => (d =? d')%nat && compatible_with shape' s'
  | _, _ => false
  end.

Definition log_variable (name : string) (v : variable) (st : var_store) : var_store :=
  Store (vars st) (next_id st) (trace st ++ [(name, v)]).

(** [variable_scope.get_variable(name, shape)] under the scope [sc]. *)
Definition get_variable (sc : var_scope) (name : string) (shape : list (option nat))
    : M variable := fun st =>
  let fn := full_name sc name in
  match vars st !! fn with
  | Some v =>
      if negb (sreuse sc) then (Raise (ValueError VarExists), st)
      else if compatible_with shape (vshape v) then (Ok v, log_variable fn v st)
      else (Raise (ValueError VarShape), st)
  | None =>
      if sreuse sc then (Raise (ValueError VarMissing), st)
      else
        match fully_defined shape with
        | Some s =>
            let v := Var (next_id st) s in
            (Ok v, log_variable fn v (Store (<[fn := v]> (vars st)) (S (next_id st)) (trace st)))
        | None => (Raise (ValueError VarShapeUndefined), st)
        end
  end.

(** ** Layers of the sibling modules

    [rnn_cell._linear] and the cells are code of this package outside the
    file at hand.  What the decoder relies on is kept: called under a scope,
    such a layer obtains its parameters by [get_variable] under names fixed
    relative to that scope, and computes its result from them. *)

Record layer (In Out : Type) := Layer {
  layer_names : list string;
  layer_shape : In -> string -> list (option nat);
  layer_apply : list (tensor R) -> In -> Out
}.
Arguments Layer {In Out} _ _ _.
Arguments layer_names {In Out} _.
Arguments layer_shape {In Out} _ _ _.
Arguments layer_apply {In Out} _ _ _.

(** [cell] as the decoder uses it: [cell.output_size] and [cell(x, state)]. *)
Record rnn_cell := RnnCell {
  output_size_of : nat;
  cell_layer : layer (tensor R * tensor R) (tensor R * tensor R)
}.

(** The arguments of [linear(args, output_size, bias)]. *)
Definition linear_args : Type := list (tensor R) * nat * bool.

Definition loop_fn := tensor R -> nat -> tensor R.

(** The local variables that the decoder's loop carries from one step to
    the next.  [history] is ghost: one record per finished step. *)
Record step_record := StepRecord {
  sr_inp : tensor R;                      (* [inp] after the loop function *)
  sr_a : tensor R;                        (* [a = attns_state[0]] *)
  sr_prev_attn : option (tensor R);       (* [prev_attn] when the step starts *)
  sr_distract_output : tensor R;          (* [distract_output] *)
  sr_x : tensor R;                        (* [x], the input of the cell *)
  sr_state : tensor R;                    (* [state] as the cell returns it *)
  sr_attns : list (tensor R);             (* [attns_state] as [attention] returns it *)
  sr_reuse : bool;                        (* [reuse] of the current scope *)
  sr_variables : list (string * variable) (* results of the step's [get_variable] *)
}.

Record loop_state := LoopState {
  ls_scope : var_scope;
  ls_state : tensor R;
  ls_prev : option (tensor R);
  ls_prev_attn : option (tensor R);
  ls_attns_state : list (tensor R);
  ls_outputs : list (tensor R);
  ls_history : list step_record
}.

Section Decoder.

(** What every variable holds when the graph is run. *)
Variable theta : nat -> list nat -> R.

Variable linear_layer : layer linear_args (tensor R).

Definition read (v : variable) : tensor R := op_result (vshape v) (theta (vid v)).

Definition call_layer {In Out} (l : layer In Out) (sc : var_scope) (x : In) : M Out :=
  vs ← mapM (fun name => get_variable sc name (layer_shape l x name)) (layer_names l);
  mret (layer_apply l (map read vs) x).

Definition linear (sc : var_scope) (args : list (tensor R)) (output_size : nat)
    (bias : bool) : M (tensor R) :=
  call_layer linear_layer sc (args, output_size, bias).

(** *** The distraction gate (the block that computes [distract_output]) *)

Definition eps : R := 0.00000000000001.

(** [reduce_sum(mul(prev_attn, prev_attn), 1) + eps] *)
Definition gate_denominator (prev_attn : tensor R) : tensor R :=
  add (reduce_sum (mul prev_attn prev_attn) [1%nat]) (scalar eps).

Definition distraction (a : tensor R) (prev_attn : option (tensor R))
    (gate_weight gate_bias : tensor R) : tensor R :=
  match prev_attn with
  | Some prev_attn =>
      let temp := div (reduce_sum (mul a prev_attn) [1%nat]) (gate_denominator prev_attn) in
      let gate := add (matmul prev_attn gate_weight) gate_bias in
      let sig_gate := sigmoid (transpose gate) in
      let temp1 := transpose (mul sig_gate temp) in
      sub a (mul prev_attn temp1)
  | None => a
  end.

(** *** What the closures [attention] and [attention_query] capture *)

Record attn_env := AttnEnv {
  num_heads : nat;
  attn_length_state : nat;
  attn_length_query : nat;
  attn_size_state : nat;
  attn_size_query : nat;
  hidden_states : tensor R;
  hidden_states_query : tensor R;
  hidden_features_states : list (tensor R);
  hidden_features_query : list (tensor R);
  v_state : list variable;
  v_query : list variable
}.

(** [for q in query_list: ndims = q.get_shape().ndims; if ndims: assert ndims == 2] *)
Definition assert_2d (query_list : list (tensor R)) : result unit :=
  if forallb (fun q => match ndims (tstatic q) with
                       | Some (S n) => (S n =? 2)%nat
                       | _ => true
                       end) query_list
  then Ok tt else Raise AssertionError.

(** The body of the loop over the heads, after [y] has been computed. *)
Definition attention_read (v hidden_features hidden y : tensor R)
    (vec_size length size : nat) : tensor R :=
  let y := reshape y [(-1)%Z; 1%Z; 1%Z; Z.of_nat vec_size] in
  let s := reduce_sum (mul v (tanh_t (add hidden_features y))) [2%nat; 3%nat] in
  let a := softmax s in
  let d := reduce_sum
             (mul (reshape a [(-1)%Z; Z.of_nat length; 1%Z; 1%Z]) hidden)
             [1%nat; 2%nat] in
  reshape d [(-1)%Z; Z.of_nat size].

Definition attention (env : attn_env) (sc : var_scope) (query : list (tensor R))
    : M (list (tensor R)) :=
  _ ← lift (assert_2d query);
  let query := concat1 query in
  mapM (fun a =>
          let sc_a := variable_scope sc (inl ("Attention_" +:+ pretty a)) None in
          y ← linear sc_a [query] (attn_size_state env) true;
          v ← lift (item (v_state env) a);
          hf ← lift (item (hidden_features_states env) a);
          mret (attention_read (read v) hf (hidden_states env) y
                  (attn_size_state env) (attn_length_state env) (attn_size_state env)))
       (seq 0 (num_heads env)).

Definition attention_query (env : attn_env) (sc : var_scope) (query : tensor R)
    : M (tensor R) :=
  ds ← mapM (fun a =>
          let sc_a := variable_scope sc (inl ("Attention_Query_" +:+ pretty a)) None in
          y ← linear sc_a [query] (attn_size_query env) true;
          v ← lift (item (v_query env) a);
          hf ← lift (item (hidden_features_query env) a);
          mret (attention_read (read v) hf (hidden_states_query env) y
                  (attn_size_query env) (attn_length_query env) (attn_size_query env)))
       (seq 0 (num_heads env));
  lift (item ds 0).

(** *** The decoder *)

(** A [None] among the sizes handed to [array_ops.reshape]. *)
Definition reshape_size (d : option nat) : M nat :=
  match d with
  | Some n => mret n
  | None => raise TypeError
  end.

(** [if loop_function is not None and prev is not None:
      inp = loop_function(prev, i)] *)
Definition effective_input (loop_function : option loop_fn) (prev : option (tensor R))
    (i : nat) (inp : tensor R) : tensor R :=
  match loop_function, prev with
  | Some f, Some prev => f prev i
  | _, _ => inp
  end.

(** One turn of [for i, inp in enumerate(decoder_inputs)], without the
    ghost record. *)
Definition step_body (env : attn_env) (gate_weight gate_bias : variable)
    (cell : rnn_cell) (output_size : nat) (loop_function : option loop_fn)
    (initial_state_attention : bool) (i : nat) (inp : tensor R) (ls : loop_state)
    : M (loop_state * (tensor R * tensor R * tensor R * tensor R)) :=
  let sc := if (0 <? i)%nat then reuse_variables (ls_scope ls) else ls_scope ls in
  let inp := effective_input loop_function (ls_prev ls) i inp in
  dims ← lift (with_rank (tstatic inp) 2);
  input_size ← lift (item dims 1);
  match input_size with
  | None => raise (ValueError InputSizeUnknown)
  | Some input_size =>
      a ← lift (item (ls_attns_state ls) 0);
      let distract_output :=
        distraction a (ls_prev_attn ls) (read gate_weight) (read gate_bias) in
      x ← linear sc [inp; distract_output] input_size true;
      '(cell_output, state) ← call_layer (cell_layer cell) sc (x, ls_state ls);
      let sc_attn := if (i =? 0)%nat && initial_state_attention
                     then variable_scope sc (inr sc) (Some true) else sc in
      attns_query ← attention_query env sc_attn state;
      attns_state ← attention env sc_attn [state; attns_query];
      output ← linear (variable_scope sc (inl "AttnOutputProjection") None)
                      (cell_output :: attns_state) output_size true;
      let prev := match loop_function with
                  | Some _ => Some output
                  | None => ls_prev ls
                  end in
      mret (LoopState sc state prev (Some distract_output) attns_state
                      (ls_outputs ls ++ [output]) (ls_history ls),
            (inp, a, distract_output, x))
  end.

Definition decoder_step (env : attn_env) (gate_weight gate_bias : variable)
    (cell : rnn_cell) (output_size : nat) (loop_function : option loop_fn)
    (initial_state_attention : bool) (i : nat) (inp : tensor R) (ls : loop_state)
    : M loop_state :=
  '(ls', (inp', a, distract_output, x), used) ←
      listen (step_body env gate_weight gate_bias cell output_size loop_function
                initial_state_attention i inp ls);
  mret (LoopState (ls_scope ls') (ls_state ls') (ls_prev ls') (ls_prev_attn ls')
          (ls_attns_state ls') (ls_outputs ls')
          (ls_history ls ++ [StepRecord inp' a (ls_prev_attn ls) distract_output x
                                        (ls_state ls') (ls_attns_state ls')
                                        (sreuse (ls_scope ls')) used])).

Fixpoint decoder_loop (step : nat -> tensor R -> loop_state -> M loop_state)
    (i : nat) (decoder_inputs : list (tensor R)) (ls : loop_state) : M loop_state :=
  match decoder_inputs with
  | [] => mret ls
  | inp :: rest => ls' ← step i inp ls; decoder_loop step (S i) rest ls'
  end.

(** Everything between the argument checks and the loop; returns what the
    loop and the closures need. *)
Definition decoder_setup (scope : var_scope) (input0 : tensor R)
    (initial_state attention_states attention_states_query : tensor R)
    (cell : rnn_cell) (heads : nat) (attn_size_state : nat)
    (initial_state_attention : bool)
    : M (attn_env * variable * variable * loop_state) :=
  batch_size ← lift (shape_item input0 0);
  attn_length_state ← lift (dimension (tstatic attention_states) 1);
  attn_length_query ← lift (dimension (tstatic attention_states_query) 1);
  dim_1 ← lift (dimension (tstatic initial_state) 1);
  let dim_2 := output_size_of cell in
  project_initial_state_W ← get_variable scope "Initial_State_W" [dim_1; Some dim_2];
  project_initial_state_B ← get_variable scope "Initial_State_Bias" [Some dim_2];
  attn_length_state ← lift (static_or_shape attn_length_state attention_states 1);
  attn_length_query ← lift (static_or_shape attn_length_query attention_states_query 1);
  attn_size_query ← lift (dimension (tstatic attention_states_query) 2);
  attn_size_query ← reshape_size attn_size_query;
  let hidden_states :=
    reshape attention_states
            [(-1)%Z; Z.of_nat attn_length_state; 1%Z; Z.of_nat attn_size_query] in
  let hidden_states_query :=
    reshape attention_states_query
            [(-1)%Z; Z.of_nat attn_length_query; 1%Z; Z.of_nat attn_size_query] in
  let attention_vec_size_state := attn_size_state in
  let s1 := variable_scope scope (inr scope) None in
  '(gate_weight, gate_bias) ←
     try_except_ValueError
       (gate_weight ← get_variable s1 "gate_weight"
                        [Some attention_vec_size_state; Some attention_vec_size_state];
        gate_bias ← get_variable s1 "gate_bias" [Some attention_vec_size_state];
        mret (gate_weight, gate_bias))
       (let s1 := reuse_variables s1 in
        gate_weight ← get_variable s1 "gate_weight"
                        [Some attention_vec_size_state; Some attention_vec_size_state];
        gate_bias ← get_variable s1 "gate_bias" [Some attention_vec_size_state];
        mret (gate_weight, gate_bias));
  state_heads ←
     mapM (fun a =>
             k ← get_variable scope ("AttnW_State_" +:+ pretty a)
                   [Some 1%nat; Some 1%nat; Some attn_size_state;
                    Some attention_vec_size_state];
             hf ← lift (conv2d hidden_states (read k));
             v ← get_variable scope ("AttnV_State_" +:+ pretty a)
                   [Some attention_vec_size_state];
             mret (hf, v))
          (seq 0 heads);
  let attention_vec_size_query := attn_size_query in
  query_heads ←
     mapM (fun a =>
             k ← get_variable scope ("AttnW_Query_" +:+ pretty a)
                   [Some 1%nat; Some 1%nat; Some attn_size_query;
                    Some attention_vec_size_query];
             hf ← lift (conv2d hidden_states_query (read k));
             v ← get_variable scope ("AttnV_Query_" +:+ pretty a)
                   [Some attention_vec_size_query];
             mret (hf, v))
          (seq 0 heads);
  let env := AttnEnv heads attn_length_state attn_length_query
                     attn_size_state attn_size_query
                     hidden_states hidden_states_query
                     (map fst state_heads) (map fst query_heads)
                     (map snd state_heads) (map snd query_heads) in
  let state := add (matmul initial_state (read project_initial_state_W))
                   (read project_initial_state_B) in
  let attns_state := repeat (zeros_batch batch_size attn_size_state) heads in
  attns_state ←
     (if initial_state_attention then
        attns_query ← attention_query env scope initial_state;
        attention env scope [initial_state; attns_query]
      else mret attns_state);
  mret (env, gate_weight, gate_bias,
        LoopState scope state None None attns_state [] []).

(** [cur] is the variable scope that is current when the decoder is
    called; [dtype] only selects the element type and is left out. *)
Definition decoder_run (cur : var_scope)
    (decoder_inputs : list (tensor R))
    (initial_state distract_initial_state attention_states attention_states_query : tensor R)
    (cell distraction_cell : rnn_cell)
    (output_size : option nat) (num_heads : Z) (loop_function : option loop_fn)
    (scope : option (string + var_scope)) (initial_state_attention : bool)
    : M loop_state :=
  match decoder_inputs with
  | [] => raise (ValueError NoInputs)
  | input0 :: _ =>
      if (num_heads <? 1)%Z then raise (ValueError NoHeads)
      else
        attn_size_state ← lift (dimension (tstatic attention_states) 2);
        match attn_size_state with
        | None => raise (ValueError AttnShapeUnknown)
        | Some attn_size_state =>
            let output_size := default (output_size_of cell) output_size in
            let scope :=
              variable_scope cur
                (default (inl "dynamic_simple_soft_distraction_decoder") scope) None in
            '(env, gate_weight, gate_bias, ls) ←
               decoder_setup scope input0 initial_state attention_states
                             attention_states_query cell (Z.to_nat num_heads)
                             attn_size_state initial_state_attention;
            decoder_loop (decoder_step env gate_weight gate_bias cell output_size
                                       loop_function initial_state_attention)
                         0 decoder_inputs ls
        end
  end.

Definition dynamic_simple_soft_distraction_decoder (cur : var_scope)
    (decoder_inputs : list (tensor R))
    (initial_state distract_initial_state attention_states attention_states_query : tensor R)
    (cell distraction_cell : rnn_cell)
    (output_size : option nat) (num_heads : Z) (loop_function : option loop_fn)
    (scope : option (string + var_scope)) (initial_state_attention : bool)
    : M (list (tensor R) * tensor R) :=
  ls ← decoder_run cur decoder_inputs initial_state distract_initial_state
         attention_states attention_states_query cell distraction_cell
         output_size num_heads loop_function scope initial_state_attention;
  mret (ls_outputs ls, ls_state ls).

End Decoder.

(** ** The loop function and the embedding wrapper *)

(** [nn_ops.xw_plus_b] *)
Definition xw_plus_b (x weights biases : tensor R) : tensor R :=
  add (matmul x weights) biases.

(** An index among [0 .. n-1] at which [f] is largest.  Among equal largest
    entries the host operation promises no particular one; the scan keeps
    the one it meets first, and nothing proved about it below looks at that
    choice. *)
Fixpoint argmax_upto (f : nat -> R) (n : nat) : nat :=
  match n with
  | O => O
  | S k => let m := argmax_upto f k in
           if Rlt_dec (f m) (f k) then k else m
  end.

(** [math_ops.argmax(input, 1)] on a 2D tensor. *)
Definition argmax (input : tensor R) : tensor Z :=
  op_result [nth 0 (tshape input) O]
    (fun idx => Z.of_nat (argmax_upto (fun j => tget input [nth 0 idx O; j])
                                      (nth 1 (tshape input) O))).

(** [embedding_ops.embedding_lookup(params, ids)]: the rows of [params]
    that [ids] names. *)
Definition embedding_lookup (params : tensor R) (ids : tensor Z) : tensor R :=
  let r := length (tshape ids) in
  Tensor (match tstatic ids, tstatic params with
          | Some i, Some p => Some (i ++ skipn 1 p)
          | _, _ => None
          end)
         (tshape ids ++ skipn 1 (tshape params))
         (fun idx => tget params (Z.to_nat (tget ids (firstn r idx)) :: skipn r idx)).

(** [array_ops.stop_gradient] leaves the value as it is. *)
Definition stop_gradient (t : tensor R) : tensor R := t.

Definition _extract_argmax_and_embed (embedding : tensor R)
    (output_projection : option (tensor R * tensor R)) (update_embedding : bool)
    : loop_fn :=
  fun prev _ =>
    let prev := match output_projection with
                | Some (W, B) => xw_plus_b prev W B
                | None => prev
                end in
    let prev_symbol := argmax prev in
    let emb_prev := embedding_lookup embedding prev_symbol in
    if negb update_embedding then stop_gradient emb_prev else emb_prev.

(** [shape.assert_is_compatible_with(other)] *)
Definition assert_is_compatible_with (s : static_shape) (other : list nat) : result unit :=
  match s with
  | None => Ok tt
  | Some dims =>
      if compatible_with dims other then Ok tt else Raise (ValueError ShapesIncompatible)
  end.

Section Wrapper.

Variable theta : nat -> list nat -> R.
Variable linear_layer : layer linear_args (tensor R).

(** [cur] is the variable scope that is current at the call. *)
Definition dynamic_simple_soft_distraction_decoder_wrapper (cur : var_scope)
    (decoder_inputs : list (tensor Z))
    (initial_state distract_initial_state attention_states attention_states_query : tensor R)
    (cell_encoder distraction_cell : rnn_cell)
    (num_symbols embedding_size : nat) (num_heads : Z) (output_size : option nat)
    (output_projection : option (tensor R * tensor R))
    (feed_previous update_embedding_for_previous : bool)
    (embedding_scope scope : option (string + var_scope))
    (initial_state_attention : bool)
    : M (list (tensor R) * tensor R) :=
  let output_size := default (output_size_of cell_encoder) output_size in
  _ ← match output_projection with
      | Some (_, proj_biases) =>
          lift (assert_is_compatible_with (tstatic proj_biases) [num_symbols])
      | None => mret tt
      end;
  let s1 := variable_scope cur
              (default (inl "dynamic_simple_soft_distraction_decoder_wrapper")
                       embedding_scope) (Some true) in
  embedding ← get_variable s1 "embedding" [Some num_symbols; Some embedding_size];
  let loop_function :=
    if feed_previous
    then Some (_extract_argmax_and_embed (read theta embedding) output_projection
                                         update_embedding_for_previous)
    else None in
  let emb_inp := map (embedding_lookup (read theta embedding)) decoder_inputs in
  let scope := variable_scope cur
                 (default (inl "dynamic_simple_soft_distraction_decoder_wrapper") scope)
                 None in
  dynamic_simple_soft_distraction_decoder theta linear_layer scope emb_inp
    initial_state distract_initial_state attention_states attention_states_query
    cell_encoder distraction_cell (Some output_size) num_heads loop_function None
    initial_state_attention.

End Wrapper.

(** ** Calls with keyword arguments

    [dynamic_simple_soft_distraction_seq2seq] calls the wrapper with keyword
    arguments.  Which parameter a keyword reaches is decided by name when
    the call is made, so the call is kept as Python makes it: the values
    are bound to the parameters of the callee by position and by name. *)

Inductive pyvalue :=
  | PyNone
  | PyBool (b : bool)
  | PyInt (n : Z)
  | PyTensor (t : tensor R)
  | PyIds (l : list (tensor Z))
  | PyCell (c : rnn_cell)
  | PyScope (s : var_scope)
  | PyProjection (w b : tensor R).

(** A parameter: its name and its default, if it has one. *)
Definition parameter : Type := string * option pyvalue.

Fixpoint bind_positional (parameters : list parameter) (positional : list pyvalue)
    (env : gmap string pyvalue) : result (gmap string pyvalue) :=
  match positional, parameters with
  | [], _ => Ok env
  | _ :: _, [] => Raise TypeError              (* too many positional arguments *)
  | a :: positional', (name, _) :: parameters' =>
      bind_positional parameters' positional' (<[name := a]> env)
  end.

Fixpoint bind_keywords (parameters : list parameter) (keywords : list (string * pyvalue))
    (env : gmap string pyvalue) : result (gmap string pyvalue) :=
  match keywords with
  | [] => Ok env
  | (name, a) :: keywords' =>
      if bool_decide (name ∈ map fst parameters) then
        match env !! name with
        | Some _ => Raise TypeError            (* multiple values for the argument *)
        | None => bind_keywords parameters keywords' (<[name := a]> env)
        end
      else Raise TypeError                     (* unexpected keyword argument *)
  end.

Fixpoint bind_defaults (parameters : list parameter) (env : gmap string pyvalue)
    : result (gmap string pyvalue) :=
  match parameters with
  | [] => Ok env
  | (name, default) :: parameters' =>
      match env !! name, default with
      | Some _, _ => bind_defaults parameters' env
      | None, Some d => bind_defaults parameters' (<[name := d]> env)
      | None, None => Raise TypeError          (* missing required argument *)
      end
  end.

Definition bind_arguments (parameters : list parameter) (positional : list pyvalue)
    (keywords : list (string * pyvalue)) : result (gmap string pyvalue) :=
  env ← bind_positional parameters positional ∅;
  env ← bind_keywords parameters keywords env;
  bind_defaults parameters env.

(** The parameter list of [dynamic_simple_soft_distraction_decoder_wrapper]. *)
Definition wrapper_parameters : list parameter :=
  [("decoder_inputs", None); ("initial_state", None); ("distract_initial_state", None);
   ("attention_states", None); ("attention_states_query", None);
   ("cell_encoder", None); ("distraction_cell", None);
   ("num_symbols", None); ("embedding_size", None);
   ("num_heads", Some (PyInt 1)); ("output_size", Some PyNone);
   ("output_projection", Some PyNone); ("feed_previous", Some (PyBool false));
   ("update_embedding_for_previous", Some (PyBool true));
   ("embedding_scope", Some PyNone); ("dtype", Some PyNone); ("scope", Some PyNone);
   ("initial_state_attention", Some (PyBool false))].

Definition as_tensor (x : pyvalue) : option (tensor R) :=
  match x with PyTensor t => Some t | _ => None end.
Definition as_ids (x : pyvalue) : option (list (tensor Z)) :=
  match x with PyIds l => Some l | _ => None end.
Definition as_cell (x : pyvalue) : option rnn_cell :=
  match x with PyCell c => Some c | _ => None end.
Definition as_int (x : pyvalue) : option Z :=
  match x with PyInt n => Some n | _ => None end.
Definition as_size (x : pyvalue) : option nat :=
  match x with PyInt n => Some (Z.to_nat n) | _ => None end.
Definition as_bool (x : pyvalue) : option bool :=
  match x with PyBool b => Some b | _ => None end.
Definition as_optional_size (x : pyvalue) : option (option nat) :=
  match x with PyNone => Some None | PyInt n => Some (Some (Z.to_nat n)) | _ => None end.
Definition as_optional_projection (x : pyvalue) : option (option (tensor R * tensor R)) :=
  match x with PyNone => Some None | PyProjection w b => Some (Some (w, b)) | _ => None end.
Definition as_optional_scope (x : pyvalue) : option (option (string + var_scope)) :=
  match x with PyNone => Some None | PyScope s => Some (Some (inr s)) | _ => None end.

(** The value bound to a parameter, as the body of the callee uses it. *)
Definition argument {A} (env : gmap string pyvalue) (name : string)
    (cast : pyvalue -> option A) : M A :=
  match env !! name ≫= cast with
  | Some a => mret a
  | None => raise TypeError
  end.

Definition of_optional_size (n : option nat) : pyvalue :=
  match n with Some n => PyInt (Z.of_nat n) | None => PyNone end.
Definition of_optional_projection (p : option (tensor R * tensor R)) : pyvalue :=
  match p with Some (w, b) => PyProjection w b | None => PyNone end.

(** [control_flow_ops.cond] on lists of tensors: both branches are built,
    the first one first; every result is the one of the branch that the
    predicate selects when the graph runs. *)
Definition select (pred : tensor bool) (t f : tensor R) : tensor R :=
  if tget pred [] then t else f.

Fixpoint zip_select (pred : tensor bool) (ts fs : list (tensor R)) : list (tensor R) :=
  match ts, fs with
  | t :: ts', f :: fs' => select pred t f :: zip_select pred ts' fs'
  | _, _ => []
  end.

Definition cond (pred : tensor bool) (fn1 fn2 : M (list (tensor R)))
    : M (list (tensor R)) :=
  res_t ← fn1;
  res_f ← fn2;
  if (length res_t =? length res_f)%nat then mret (zip_select pred res_t res_f)
  else raise (ValueError BranchesDiffer).

(** [array_ops.concat(1, values)] on 3D tensors. *)
Fixpoint concat_axis1_get (values : list (tensor R)) (b j k : nat) : R :=
  match values with
  | [] => 0
  | t :: rest =>
      let n := nth 1 (tshape t) O in
      if (j <? n)%nat then tget t [b; j; k] else concat_axis1_get rest b (j - n) k
  end.

Definition concat_axis1 (values : list (tensor R)) : tensor R :=
  op_result [nth 0 (tshape (hd (scalar 0) values)) O;
             fold_right (fun t acc => (nth 1 (tshape t) O + acc)%nat) O values;
             nth 2 (tshape (hd (scalar 0) values)) O]
    (fun idx => concat_axis1_get values (nth 0 idx O) (nth 1 idx O) (nth 2 idx O)).

(** [get_variable(name, initializer=tensor)]: the shape is the one of the
    initializer. *)
Definition get_variable_initialized (sc : var_scope) (name : string)
    (initializer : tensor R) : M variable := fun st =>
  let fn := full_name sc name in
  match vars st !! fn with
  | Some v =>
      if negb (sreuse sc) then (Raise (ValueError VarExists), st)
      else (Ok v, log_variable fn v st)
  | None =>
      if sreuse sc then (Raise (ValueError VarMissing), st)
      else
        match tstatic initializer ≫= fully_defined with
        | Some s =>
            let v := Var (next_id st) s in
            (Ok v, log_variable fn v (Store (<[fn := v]> (vars st)) (S (next_id st)) (trace st)))
        | None => (Raise (ValueError VarShapeUndefined), st)
        end
  end.

(** What the encoder part hands to the decoder part. *)
Record encoded := Encoded {
  encoder_state : tensor R;
  attention_states_encoder : tensor R;
  encoded_attention_states_query : tensor R;
  decoder_cell : rnn_cell;
  decoder_output_size : option nat
}.

Section Seq2seq.

Variable theta : nat -> list nat -> R.
Variable linear_layer : layer linear_args (tensor R).

(** [rnn.bidirectional_rnn] and [rnn_cell.OutputProjectionWrapper] are code
    of the sibling modules [rnn] and [rnn_cell]: what they do under a scope
    is left open. *)
Variable bidirectional_rnn :
  var_scope -> rnn_cell -> rnn_cell -> list (tensor R) ->
  M (list (tensor R) * tensor R * tensor R).
Variable OutputProjectionWrapper : rnn_cell -> nat -> M rnn_cell.

(** The wrapper, called with the values that the call has bound. *)
Definition wrapper_body (cur : var_scope) (env : gmap string pyvalue)
    : M (list (tensor R) * tensor R) :=
  decoder_inputs ← argument env "decoder_inputs" as_ids;
  initial_state ← argument env "initial_state" as_tensor;
  distract_initial_state ← argument env "distract_initial_state" as_tensor;
  attention_states ← argument env "attention_states" as_tensor;
  attention_states_query ← argument env "attention_states_query" as_tensor;
  cell_encoder ← argument env "cell_encoder" as_cell;
  distraction_cell ← argument env "distraction_cell" as_cell;
  num_symbols ← argument env "num_symbols" as_size;
  embedding_size ← argument env "embedding_size" as_size;
  num_heads ← argument env "num_heads" as_int;
  output_size ← argument env "output_size" as_optional_size;
  output_projection ← argument env "output_projection" as_optional_projection;
  feed_previous ← argument env "feed_previous" as_bool;
  update_embedding_for_previous ← argument env "update_embedding_for_previous" as_bool;
  embedding_scope ← argument env "embedding_scope" as_optional_scope;
  scope ← argument env "scope" as_optional_scope;
  initial_state_attention ← argument env "initial_state_attention" as_bool;
  dynamic_simple_soft_distraction_decoder_wrapper theta linear_layer cur decoder_inputs
    initial_state distract_initial_state attention_states attention_states_query
    cell_encoder distraction_cell num_symbols embedding_size num_heads output_size
    output_projection feed_previous update_embedding_for_previous embedding_scope
    scope initial_state_attention.

Definition call_wrapper (cur : var_scope) (positional : list pyvalue)
    (keywords : list (string * pyvalue)) : M (list (tensor R) * tensor R) :=
  env ← lift (bind_arguments wrapper_parameters positional keywords);
  wrapper_body cur env.

(** Everything before [if isinstance(feed_previous, bool)]. *)
Definition seq2seq_encoder (scope : var_scope)
    (encoder_inputs query_inputs : list (tensor Z))
    (cell_encoder_fw cell_encoder_bw : rnn_cell)
    (num_encoder_symbols num_decoder_symbols embedding_size : nat)
    (initial_embedding : option (tensor R))
    (output_projection : option (tensor R * tensor R)) : M encoded :=
  embedding ←
    match initial_embedding with
    | Some initial_embedding => get_variable_initialized scope "embedding" initial_embedding
    | None => get_variable scope "embedding" [Some num_encoder_symbols; Some embedding_size]
    end;
  let embedded_inputs := map (embedding_lookup (read theta embedding)) encoder_inputs in
  let query_embeddings := map (embedding_lookup (read theta embedding)) query_inputs in
  '(encoder_outputs, encoder_state_fw, encoder_state_bw) ←
     bidirectional_rnn (variable_scope scope (inl "Encoder_Cell") None)
                       cell_encoder_fw cell_encoder_bw embedded_inputs;
  '(query_outputs, query_state_fw, query_state_bw) ←
     bidirectional_rnn (variable_scope scope (inl "Query_Cell") None)
                       cell_encoder_fw cell_encoder_bw query_embeddings;
  let encoder_state := concat1 [encoder_state_fw; encoder_state_bw] in
  let top_size := Z.of_nat (2 * output_size_of cell_encoder_fw) in
  let top_states_encoder :=
    map (fun e => reshape e [(-1)%Z; 1%Z; top_size]) encoder_outputs in
  let attention_states_encoder := concat_axis1 top_states_encoder in
  let top_states_query :=
    map (fun e => reshape e [(-1)%Z; 1%Z; top_size]) query_outputs in
  let attention_states_query := concat_axis1 top_states_query in
  '(cell_encoder_fw, output_size) ←
     match output_projection with
     | None =>
         cell ← OutputProjectionWrapper cell_encoder_fw num_decoder_symbols;
         mret (cell, Some num_decoder_symbols)
     | Some _ => mret (cell_encoder_fw, None)
     end;
  mret (Encoded encoder_state attention_states_encoder attention_states_query
                cell_encoder_fw output_size).

(** The keyword arguments of the call in the branch for a Python bool. *)
Definition bool_branch_keywords (enc : encoded) (scope : var_scope)
    (num_decoder_symbols embedding_size : nat) (num_heads : Z)
    (output_projection : option (tensor R * tensor R)) (feed_previous : bool)
    (initial_state_attention : bool) : list (string * pyvalue) :=
  [("initial_state", PyTensor (encoder_state enc));
   ("attention_state", PyTensor (attention_states_encoder enc));
   ("attention_states_query", PyTensor (encoded_attention_states_query enc));
   ("cell_encoder", PyCell (decoder_cell enc));
   ("num_symbols", PyInt (Z.of_nat num_decoder_symbols));
   ("embedding_size", PyInt (Z.of_nat embedding_size));
   ("distract_initial_state", PyTensor (encoder_state enc));
   ("num_heads", PyInt num_heads);
   ("output_size", of_optional_size (decoder_output_size enc));
   ("output_projection", of_optional_projection output_projection);
   ("feed_previous", PyBool feed_previous);
   ("embedding_scope", PyScope scope);
   ("initial_state_attention", PyBool initial_state_attention)].

(** The keyword arguments of the call inside [decoder(feed_previous_bool)]. *)
Definition cond_branch_keywords (enc : encoded) (scope : var_scope)
    (distraction_cell : rnn_cell)
    (num_decoder_symbols embedding_size : nat) (num_heads : Z)
    (output_projection : option (tensor R * tensor R)) (feed_previous_bool : bool)
    (initial_state_attention : bool) : list (string * pyvalue) :=
  [("initial_state", PyTensor (encoder_state enc));
   ("attention_states", PyTensor (attention_states_encoder enc));
   ("attention_states_query", PyTensor (encoded_attention_states_query enc));
   ("cell_encoder", PyCell (decoder_cell enc));
   ("num_symbols", PyInt (Z.of_nat num_decoder_symbols));
   ("embedding_size", PyInt (Z.of_nat embedding_size));
   ("distract_initial_state", PyTensor (encoder_state enc));
   ("distraction_cell", PyCell distraction_cell);
   ("num_heads", PyInt num_heads);
   ("output_size", of_optional_size (decoder_output_size enc));
   ("output_projection", of_optional_projection output_projection);
   ("feed_previous", PyBool feed_previous_bool);
   ("embedding_scope", PyScope scope);
   ("update_embedding_for_previous", PyBool false);
   ("initial_state_attention", PyBool initial_state_attention)].

(** [cur] is the variable scope that is current at the call;
    [feed_previous] is a Python bool or a scalar boolean tensor. *)
Definition dynamic_simple_soft_distraction_seq2seq (cur : var_scope)
    (encoder_inputs decoder_inputs query_inputs : list (tensor Z))
    (cell_encoder_fw cell_encoder_bw distraction_cell : rnn_cell)
    (num_encoder_symbols num_decoder_symbols embedding_size : nat)
    (initial_embedding : option (tensor R)) (num_heads : Z)
    (output_projection : option (tensor R * tensor R))
    (feed_previous : bool + tensor bool)
    (scope : option (string + var_scope)) (initial_state_attention : bool)
    : M (list (tensor R) * tensor R) :=
  let scope := variable_scope cur
                 (default (inl "dynamic_simple_soft_distraction_seq2seq") scope) None in
  enc ← seq2seq_encoder scope encoder_inputs query_inputs cell_encoder_fw cell_encoder_bw
          num_encoder_symbols num_decoder_symbols embedding_size initial_embedding
          output_projection;
  match feed_previous with
  | inl feed_previous =>
      call_wrapper scope [PyIds decoder_inputs]
        (bool_branch_keywords enc scope num_decoder_symbols embedding_size num_heads
                              output_projection feed_previous initial_state_attention)
  | inr feed_previous =>
      let decoder (feed_previous_bool : bool) : M (list (tensor R)) :=
        let reuse := if feed_previous_bool then None else Some true in
        let scope := variable_scope scope (inr scope) reuse in
        '(outputs, state) ←
           call_wrapper scope [PyIds decoder_inputs]
             (cond_branch_keywords enc scope distraction_cell num_decoder_symbols
                                   embedding_size num_heads output_projection
                                   feed_previous_bool initial_state_attention);
        let state_list := [state] in
        mret (outputs ++ state_list) in
      outputs_and_state ← cond feed_previous (decoder true) (decoder false);
      let outputs_len := length decoder_inputs in
      let state_list := skipn outputs_len outputs_and_state in
      state ← lift (item state_list 0);
      mret (firstn outputs_len outputs_and_state, state)
  end.

End Seq2seq.

(** Following the claim's words: the coefficient
    [<a, prev_attn> / (<prev_attn, prev_attn> + 1e-14)] of example [b], for
    vectors of [n] features. *)
Definition projection_coefficient (a prev_attn : tensor R) (n b : nat) : R :=
  sum_n n (fun k => tget a [b; k] * tget prev_attn [b; k])
  / (sum_n n (fun k => tget prev_attn [b; k] * tget prev_attn [b; k]) + eps).

(** The tensors of one time step as the documentation of the sequence
    losses describes them: logits of shape [[B; C]], targets and weights of
    shape [[B]]; with a loss function of the caller's, its value has shape
    [[B]]. *)
Definition batch_sized (softmax_loss_function : option loss_function) (B C : nat)
    (step : tensor R * tensor Z * tensor R) : Prop :=
  let '(logit, target, weight) := step in
  tshape weight = [B] /\ tshape target = [B] /\
  match softmax_loss_function with
  | None => tshape logit = [B; C]
  | Some f => tshape (f logit target) = [B]
  end.

(** ** What a computation does to the variable store *)

(** No variable is lost or replaced. *)
Definition store_le (st st' : var_store) : Prop :=
  forall name v, vars st !! name = Some v -> vars st' !! name = Some v.

(** Every entry of a piece of trace is the variable the store holds under
    that name. *)
Definition trace_in (st : var_store) (seg : list (string * variable)) : Prop :=
  Forall (fun entry => vars st !! entry.1 = Some entry.2) seg.

(** [m] only adds to the store, logs what the store holds, and raises only
    exceptions in [E]. *)
Definition sound {A} (m : M A) (E : exn -> Prop) : Prop :=
  forall st r st', m st = (r, st') ->
    store_le st st' /\
    (exists seg, trace st' = trace st ++ seg /\ trace_in st' seg) /\
    match r with Ok _ => True | Raise e => E e end.

(** When [m] returns, the names it has asked [get_variable] for are
    [names], in this order. *)
Definition emits {A} (m : M A) (names : list string) : Prop :=
  forall st a st', m st = (Ok a, st') ->
    exists seg, trace st' = trace st ++ seg /\ map fst seg = names.

Definition is_var_error (e : exn) : Prop :=
  e = ValueError VarExists \/ e = ValueError VarMissing \/
  e = ValueError VarShape \/ e = ValueError VarShapeUndefined.

(** What the operations of the host framework and of the sibling modules
    raise. *)
Definition library_error (e : exn) : Prop :=
  is_var_error e \/ e = IndexError \/ e = AssertionError \/ e = TypeError \/
  e = ValueError DepthMismatch \/ e = ValueError RankMismatch \/
  e = ValueError SliceOutOfBounds.

(** The static shape of [inp] is [[d; n]] with [n] known. *)
Definition input_size_known (inp : tensor R) : Prop :=
  exists d n, tstatic inp = Some [d; Some n].

(** The exceptions raised by the four [raise ValueError] statements of the
    decoder. *)
Definition own_check (e : exn) : Prop :=
  e = ValueError NoInputs \/ e = ValueError NoHeads \/
  e = ValueError AttnShapeUnknown \/ e = ValueError InputSizeUnknown.

(** ** The names a decoding step asks [get_variable] for *)

Definition layer_requests {In Out} (l : layer In Out) (sc : var_scope) : list string :=
  map (full_name sc) (layer_names l).

Definition attention_requests (linear_layer : layer linear_args (tensor R))
    (heads : nat) (prefix : string) (sc : var_scope) : list string :=
  concat (map (fun a => layer_requests linear_layer
                          (variable_scope sc (inl (prefix +:+ pretty a)) None))
              (seq 0 heads)).

Definition step_requests (linear_layer : layer linear_args (tensor R))
    (cell : rnn_cell) (heads : nat) (sc : var_scope) : list string :=
  layer_requests linear_layer sc
  ++ layer_requests (cell_layer cell) sc
  ++ attention_requests linear_layer heads "Attention_Query_" sc
  ++ attention_requests linear_layer heads "Attention_" sc
  ++ layer_requests linear_layer (variable_scope sc (inl "AttnOutputProjection") None).

(** ** What the ghost history of a run records *)

(** [prev_attn] of every step is [distract_output] of the step before. *)
Fixpoint attn_chain (prev_attn : option (tensor R)) (history : list step_record) : Prop :=
  match history with
  | [] => True
  | r :: rest =>
      sr_prev_attn r = prev_attn /\ attn_chain (Some (sr_distract_output r)) rest
  end.

(** What a record says about its own step: the input has passed the check
    of its size, [distract_output] comes from the gate, [x] is [linear]
    applied to the input and [distract_output], and the names asked for are
    [requests]. *)
Definition step_recorded (theta : nat -> list nat -> R)
    (linear_layer : layer linear_args (tensor R)) (gate_weight gate_bias : variable)
    (requests : list string) (r : step_record) : Prop :=
  input_size_known (sr_inp r) /\
  sr_distract_output r
  = distraction (sr_a r) (sr_prev_attn r) (read theta gate_weight) (read theta gate_bias) /\
  (exists vs m, sr_x r = layer_apply linear_layer (map (read theta) vs)
                           ([sr_inp r; sr_distract_output r], m, true)) /\
  map fst (sr_variables r) = requests.



(** With a loop function [f]: [prev] is the last output, and the input of
    every step after the first is [f] of the output before it. *)
Definition feeds_back (f : loop_fn) (ls : loop_state) : Prop :=
  length (ls_outputs ls) = length (ls_history ls) /\
  ls_prev ls = last (ls_outputs ls) /\
  forall k r, ls_history ls !! S k = Some r ->
    exists out, ls_outputs ls !! k = Some out /\ sr_inp r = f out (S k).

(** ** The attention read, in the words of the decoder's documentation *)

(** The score of position [l] for example [b]:
    [sum_k v[k] * tanh(hidden_features[b, l, 0, k] + y[b, k])]. *)
Definition attention_score (v hidden_features y : tensor R) (V b l : nat) : R :=
  sum_n V (fun k => tget v [k] * tanh (tget hidden_features [b; l; O; k] + tget y [b; k])).

(** The softmax of the scores over the [L] positions. *)
Definition attention_mask (v hidden_features y : tensor R) (V L b l : nat) : R :=
  exp (attention_score v hidden_features y V b l)
  / sum_n L (fun l' => exp (attention_score v hidden_features y V b l')).

(** The check of the projection's biases in the wrapper passes. *)
Definition projection_accepted (output_projection : option (tensor R * tensor R))
    (num_symbols : nat) : Prop :=
  match output_projection with
  | Some (_, proj_biases) =>
      assert_is_compatible_with (tstatic proj_biases) [num_symbols] = Ok tt
  | None => True
  end.

(** The values that a call has bound to the parameters, in their order. *)
Definition bound_values (parameters : list parameter) (env : gmap string pyvalue)
    : list (option pyvalue) :=
  map (fun p => env !! p.1) parameters.

(** [m] loses and replaces no variable. *)
Definition keeps_variables {A} (m : M A) : Prop :=
  forall st r st', m st = (r, st') -> store_le st st'.

(** ** Small inputs for the examples *)

Definition empty_batch_logit : tensor R := op_result [0%nat; 3%nat] (fun _ => 0).
Definition empty_batch_target : tensor Z := op_result [0%nat] (fun _ => 0%Z).
Definition empty_batch_weight : tensor R := op_result [0%nat] (fun _ => 1).

Definition one_logit : tensor R := op_result [1%nat; 2%nat] (fun _ => 0).
Definition one_target : tensor Z := op_result [1%nat] (fun _ => 0%Z).
Definition one_weight : tensor R := op_result [1%nat] (fun _ => 1).

(** A batch of two examples over three symbols, and three weights that do
    not fit it. *)
Definition two_logits : tensor R := op_result [2%nat; 3%nat] (fun _ => 0).
Definition two_targets : tensor Z := op_result [2%nat] (fun _ => 0%Z).
Definition three_weights : tensor R := op_result [3%nat] (fun _ => 1).

(** A [linear] as [rnn_cell._linear] builds it: [Matrix] and [Bias] under
    [Linear], and the product of the concatenated arguments plus the bias. *)
Definition example_linear : layer linear_args (tensor R) :=
  Layer ["Linear/Matrix"; "Linear/Bias"]
        (fun '(args, output_size, _) name =>
           if String.eqb name "Linear/Matrix"
           then [Some (fold_right (fun t acc => (nth 1 (tshape t) O + acc)%nat) O args);
                 Some output_size]
           else [Some output_size])
        (fun vs '(args, output_size, _) =>
           add (matmul (concat1 args) (nth 0 vs (scalar 0))) (nth 1 vs (scalar 0))).

(** A basic cell of two units: output and new state are
    [tanh(linear([x, state]))]. *)
Definition example_cell : rnn_cell :=
  RnnCell 2
    (Layer ["BasicRNNCell/Linear/Matrix"; "BasicRNNCell/Linear/Bias"]
           (fun '(x, state) name =>
              if String.eqb name "BasicRNNCell/Linear/Matrix"
              then [Some (nth 1 (tshape x) O + nth 1 (tshape state) O)%nat; Some 2%nat]
              else [Some 2%nat])
           (fun vs '(x, state) =>
              let h := tanh_t (add (matmul (concat1 [x; state]) (nth 0 vs (scalar 0)))
                                   (nth 1 vs (scalar 0))) in
              (h, h))).

Definition example_theta : nat -> list nat -> R := fun _ _ => 1.

Definition example_input : tensor R := op_result [1%nat; 2%nat] (fun _ => 1).
Definition example_state : tensor R := op_result [1%nat; 2%nat] (fun _ => 0).
Definition example_attention_states : tensor R :=
  op_result [1%nat; 1%nat; 2%nat] (fun _ => 1).

Definition empty_store : var_store := Store ∅ 0 [].
Definition root_scope : var_scope := Scope "" false.

Definition example_run (decoder_inputs : list (tensor R)) : M loop_state :=
  decoder_run example_theta example_linear root_scope decoder_inputs
              example_state example_state example_attention_states
              example_attention_states example_cell example_cell
              None 1 None None false.

Definition is_ok {A} (r : result A) : bool :=
  match r with Ok _ => true | Raise _ => false end.

Definition is_type_error {A} (r : result A) : bool :=
  match r with Raise TypeError => true | _ => false end.

(** Every step of a run has [a] and [distract_output] of shape [s]. *)
Definition attention_shapes_are (s : list nat) (r : result loop_state) : bool :=
  match r with
  | Ok ls => forallb (fun r => bool_decide (tshape (sr_a r) = s)
                               && bool_decide (tshape (sr_distract_output r) = s))
                     (ls_history ls)
  | Raise _ => false
  end.


(** A store that already holds a variable of some other model. *)
Definition kept_variable : variable := Var 0 [1%nat].
Definition kept_store : var_store := Store {[ "keep" := kept_variable ]} 1 [].



(** An input whose static shape is not known, and a loop function that
    feeds [example_input] at every step. *)
Definition unknown_input : tensor R := Tensor None [1%nat; 2%nat] (fun _ => 1).

Definition example_loop : loop_fn := fun _ _ => example_input.

Definition example_fed_run (decoder_inputs : list (tensor R)) : M loop_state :=
  decoder_run example_theta example_linear root_scope decoder_inputs
              example_state example_state example_attention_states
              example_attention_states example_cell example_cell
              None 1 (Some example_loop) None false.

Definition zeros_batch_weight : tensor R := op_result [1%nat] (fun _ => 0).

(** Tensors for an attention read with one example, one position and two
    features. *)
Definition example_v : tensor R := op_result [2%nat] (fun _ => 1).
Definition example_hidden : tensor R := op_result [1; 1; 1; 2]%nat (fun _ => 1).
Definition example_query_projection : tensor R := op_result [1; 2]%nat (fun _ => 0).

(** What the closures capture in a decoder with one head over one position
    and two features. *)
Definition example_env : attn_env :=
  AttnEnv 1 1 1 2 2 example_hidden example_hidden [example_hidden] [example_hidden]
          [Var 0 [2%nat]] [Var 1 [2%nat]].

(** A query of rank 3, which the closures refuse. *)
Definition rank3_query : tensor R := op_result [1; 1; 2]%nat (fun _ => 0).

(** An embedding of three symbols in two dimensions whose row [k] holds
    the number [k], and scores of one example that are largest at symbol 2. *)
Definition index_embedding : tensor R :=
  op_result [3; 2]%nat (fun idx => INR (nth 0 idx O)).
Definition peaked_scores : tensor R :=
  op_result [1; 3]%nat (fun idx => if (nth 1 idx O =? 2)%nat then 1 else 0).

(** A store that holds the embedding the wrapper looks for, and two
    decoder inputs that name symbol 0. *)
Definition embedding_store : var_store :=
  Store {[ "dynamic_simple_soft_distraction_decoder_wrapper/embedding" := Var 0 [3; 2]%nat ]}
        1 [].

Definition example_symbols : tensor Z := op_result [1%nat] (fun _ => 0%Z).

Definition example_wrapper (feed_previous : bool) : M (list (tensor R) * tensor R) :=
  dynamic_simple_soft_distraction_decoder_wrapper example_theta example_linear root_scope
    [example_symbols; example_symbols] example_state example_state
    example_attention_states example_attention_states example_cell example_cell
    3 2 1 None None feed_previous true None None false.

(** Stand-ins for the two operations of the sibling modules: an encoder
    that gives every input an output of four features and both directions
    the state [example_state], and a projection wrapper that returns
    [example_cell]. *)
Definition example_bidirectional_rnn (sc : var_scope) (cell_fw cell_bw : rnn_cell)
    (inputs : list (tensor R)) : M (list (tensor R) * tensor R * tensor R) :=
  mret (map (fun _ => op_result [1; 4]%nat (fun _ => 1)) inputs,
        example_state, example_state).

Definition example_projection_wrapper (cell : rnn_cell) (size : nat) : M rnn_cell :=
  mret example_cell.

Definition example_predicate : tensor bool := op_result [] (fun _ => true).

Definition example_seq2seq (num_decoder_symbols : nat) (feed_previous : bool + tensor bool)
    : M (list (tensor R) * tensor R) :=
  dynamic_simple_soft_distraction_seq2seq example_theta example_linear
    example_bidirectional_rnn example_projection_wrapper root_scope
    [example_symbols] [example_symbols; example_symbols] [example_symbols]
    example_cell example_cell example_cell 3 num_decoder_symbols 2 None 1 None
    feed_previous None false.

(** * Properties *)

(** ** Index arithmetic *)

Lemma bdim_lt d i : (i < d)%nat -> bdim d i = i.
Proof.
  unfold bdim. intros H. destruct (Nat.eqb_spec d 1) as [->|]; [lia | reflexivity].
Qed.

Lemma bdim_one i : bdim 1 i = O.
Proof. reflexivity. Qed.

Lemma sum_n_ext n f g : (forall i, (i < n)%nat -> f i = g i) -> sum_n n f = sum_n n g.
Proof.
  induction n as [|n IH]; intros H; simpl; [reflexivity|].
  rewrite IH by (intros; apply H; lia). rewrite H by lia. reflexivity.
Qed.

Lemma sum_n_nonneg n f : (forall i, (i < n)%nat -> 0 <= f i) -> 0 <= sum_n n f.
Proof.
  induction n as [|n IH]; intros H; simpl; [lra|].
  specialize (IH (fun i Hi => H i (Nat.lt_lt_succ_r _ _ Hi))).
  specialize (H n (Nat.lt_succ_diag_r n)). lra.
Qed.

Lemma sum_n_one f : sum_n 1 f = f O.
Proof. simpl. lra. Qed.

Lemma fold_left_Rplus l x : fold_left Rplus l x = x + sum_list l.
Proof.
  revert x. induction l as [|y l IH]; intros x; simpl; [lra|].
  rewrite IH. lra.
Qed.

Lemma sum_list_nonneg l : Forall (fun x => 0 <= x) l -> 0 <= sum_list l.
Proof. induction 1; simpl; lra. Qed.

(** ** [add_n] *)

Lemma add_n_get inputs s :
  inputs <> [] -> Forall (fun t => tshape t = s) inputs ->
  exists t, add_n inputs = Ok t /\
            tshape t = s /\
            forall idx, tget t idx = sum_list (map (fun x => tget x idx) inputs).
Proof.
  destruct inputs as [|x [|y rest]]; intros Hne Hs; [congruence | |].
  - exists x. simpl. split; [reflexivity|]. split; [exact (Forall_inv Hs)|]. intros idx. lra.
  - cbn [add_n].
    assert (Hall : forallb (fun t => bool_decide (tshape t = tshape x)) (y :: rest) = true).
    { apply forallb_forall. intros t Ht. apply bool_decide_eq_true_2.
      rewrite (Forall_inv Hs).
      apply (proj1 (List.Forall_forall _ _) (Forall_inv_tail Hs) t Ht). }
    rewrite Hall. eexists. split; [reflexivity|]. split; [exact (Forall_inv Hs)|].
    intros idx. cbn [tget op_result]. rewrite fold_left_Rplus. reflexivity.
Qed.

Lemma add_n_ok inputs t :
  add_n inputs = Ok t ->
  inputs <> [] /\
  Forall (fun x => tshape x = tshape t) inputs /\
  forall idx, tget t idx = sum_list (map (fun x => tget x idx) inputs).
Proof.
  destruct inputs as [|x [|y rest]]; cbn [add_n]; intros H; [discriminate | |].
  - injection H as <-. split; [discriminate|]. split; [repeat constructor|].
    intros idx. simpl. lra.
  - destruct (forallb _ (y :: rest)) eqn:Hall; [|discriminate]. injection H as <-.
    split; [discriminate|]. split.
    + constructor; [reflexivity|]. apply List.Forall_forall. intros z Hz.
      apply (proj1 (forallb_forall _ _) Hall) in Hz.
      exact (bool_decide_eq_true_1 _ Hz).
    + intros idx. cbn [tget op_result]. rewrite fold_left_Rplus. simpl. lra.
Qed.

Lemma add_n_empty : add_n [] = Raise (ValueError EmptyAddN).
Proof. reflexivity. Qed.

Lemma add_n_not_empty inputs : inputs <> [] -> add_n inputs <> Raise (ValueError EmptyAddN).
Proof.
  destruct inputs as [|x [|y rest]]; cbn [add_n]; intros Hne; [congruence | discriminate |].
  destruct (forallb _ (y :: rest)); discriminate.
Qed.

(** ** Reading the value of an operation *)

Lemma binop_get f a b idx :
  tget (binop f a b) idx = f (tget a (bidx (tshape a) idx)) (tget b (bidx (tshape b) idx)).
Proof. reflexivity. Qed.

Lemma binop_shape f a b : tshape (binop f a b) = bshape (tshape a) (tshape b).
Proof. reflexivity. Qed.

Lemma bshape_same_1d B : bshape [B] [B] = [B].
Proof. unfold bshape. simpl. destruct (B =? 1)%nat; reflexivity. Qed.

Lemma bshape_scalar_r s : bshape s [] = s.
Proof.
  unfold bshape. simpl.
  replace (bshape_r (rev s) []) with (rev s) by (destruct (rev s); reflexivity).
  apply rev_involutive.
Qed.

Lemma bidx_1d B b : (b < B)%nat -> bidx [B] [b] = [b].
Proof. intros H. unfold bidx. simpl. rewrite bdim_lt by assumption. reflexivity. Qed.

Lemma broadcastable_same_1d B : broadcastable [B] [B] = true.
Proof. unfold broadcastable. cbn. rewrite Nat.eqb_refl. reflexivity. Qed.

Lemma elementwise_1d op a b B :
  tshape a = [B] -> tshape b = [B] -> elementwise op a b = Ok (op a b).
Proof.
  intros Ha Hb. unfold elementwise. rewrite Ha, Hb, broadcastable_same_1d. reflexivity.
Qed.

Lemma elementwise_raises op a b e :
  elementwise op a b = Raise e -> e = ValueError BroadcastMismatch.
Proof.
  unfold elementwise. destruct (broadcastable _ _); [discriminate|]. congruence.
Qed.

Lemma zip3_nonempty {A B C} (la : list A) (lb : list B) (lc : list C) :
  la <> [] -> length lb = length la -> length lc = length la -> zip3 la lb lc <> [].
Proof.
  destruct la, lb, lc; simpl; intros; congruence.
Qed.

Lemma zip3_weights {A B C} (la : list A) (lb : list B) (lc : list C) :
  length lb = length la -> length lc = length la ->
  map (fun x => snd x) (zip3 la lb lc) = lc.
Proof.
  revert lb lc. induction la as [|a la IH]; intros [|b lb] [|c lc]; simpl; intros H1 H2;
    try congruence.
  f_equal. apply IH; congruence.
Qed.

Lemma zip3_targets {A B C} (la : list A) (lb : list B) (lc : list C) :
  length lb = length la -> length lc = length la ->
  map (fun x => snd (fst x)) (zip3 la lb lc) = lb.
Proof.
  revert lb lc. induction la as [|a la IH]; intros [|b lb] [|c lc]; simpl; intros H1 H2;
    try congruence.
  f_equal. apply IH; congruence.
Qed.

Lemma for_each_ok {A B} (f : A -> result B) (g : A -> B) (l : list A) :
  Forall (fun x => f x = Ok (g x)) l -> for_each f l = Ok (map g l).
Proof.
  induction 1 as [|x l Hx _ IH]; [reflexivity|].
  cbn [for_each map]. rewrite Hx, IH. reflexivity.
Qed.

Lemma for_each_not_empty {A B} (f : A -> result B) (l : list A) ys :
  for_each f l = Ok ys -> length ys = length l.
Proof.
  revert ys. induction l as [|x l IH]; intros ys H; cbn [for_each] in H.
  - injection H as <-. reflexivity.
  - destruct (f x) as [y|e]; [|discriminate]. cbn [mbind result_bind] in H.
    destruct (for_each f l) as [ys'|e]; [|discriminate]. cbn in H. injection H as <-.
    cbn. rewrite (IH ys' eq_refl). reflexivity.
Qed.

Lemma for_each_raises {A B} (f : A -> result B) (l : list A) e :
  for_each f l = Raise e -> exists x, In x l /\ f x = Raise e.
Proof.
  induction l as [|x l IH]; cbn [for_each]; intros H; [discriminate|].
  destruct (f x) as [y|e'] eqn:Hx.
  - cbn [mbind result_bind] in H. destruct (for_each f l) as [ys|e'']; [discriminate|].
    cbn in H. injection H as ->. destruct (IH eq_refl) as (z & Hz & Hfz).
    exists z. split; [right; exact Hz | exact Hfz].
  - cbn in H. injection H as ->. exists x. split; [left; reflexivity | exact Hx].
Qed.

Lemma reshape_flat_shape {A} (t : tensor A) (B : nat) :
  tshape t = [B] -> tshape (reshape t [(-1)%Z]) = [B].
Proof.
  intros Hs. unfold reshape. rewrite Hs. cbn [tshape].
  unfold resolve_shape, numel. cbn [fold_right map]. change ((-1 <? 0)%Z) with true.
  cbn iota. rewrite Nat.mul_1_r, Nat.div_1_r. reflexivity.
Qed.

Lemma reshape_flat_1d {A} (t : tensor A) (B b : nat) :
  tshape t = [B] -> (b < B)%nat ->
  tshape (reshape t [(-1)%Z]) = [B] /\ tget (reshape t [(-1)%Z]) [b] = tget t [b].
Proof.
  intros Hs Hb. unfold reshape. rewrite Hs. cbn [tshape tget].
  assert (Hr : resolve_shape (numel [B]) [(-1)%Z] = [B]).
  { unfold resolve_shape, numel. cbn [fold_right map]. change ((-1 <? 0)%Z) with true.
    cbn iota. rewrite Nat.mul_1_r, Nat.div_1_r. reflexivity. }
  rewrite Hr. split; [reflexivity|].
  unfold ravel, unravel. cbn. rewrite Nat.mul_0_r, Nat.add_0_r, Nat.mod_small by exact Hb.
  reflexivity.
Qed.

(** ** [sequence_loss_by_example] *)

Section SequenceLoss.

Variables (logits : list (tensor R)) (targets : list (tensor Z)) (weights : list (tensor R)).
Variable softmax_loss_function : option loss_function.

Let steps := zip3 logits targets weights.

Lemma length_check_passes avg :
  length targets = length logits -> length weights = length logits ->
  sequence_loss_by_example logits targets weights avg softmax_loss_function =
  (log_perp_list ←
     for_each (fun '(logit, target, weight) =>
                 crossent ← cross_entropy softmax_loss_function logit target;
                 elementwise mul crossent weight) steps;
   log_perps ← add_n log_perp_list;
   if avg then total_size ← add_n weights;
               elementwise div log_perps (total_size_guarded total_size)
   else mret log_perps).
Proof.
  intros H1 H2. unfold sequence_loss_by_example.
  rewrite H1, H2, Nat.eqb_refl. reflexivity.
Qed.

Lemma length_check_fails avg :
  length targets <> length logits \/ length weights <> length logits ->
  sequence_loss_by_example logits targets weights avg softmax_loss_function =
  Raise (ValueError LengthsDiffer).
Proof.
  intros H. unfold sequence_loss_by_example.
  destruct (Nat.eqb_spec (length targets) (length logits));
    destruct (Nat.eqb_spec (length weights) (length logits)); simpl; try reflexivity.
  destruct H; contradiction.
Qed.

Lemma loss_of_empty avg :
  logits = [] ->
  length targets = length logits -> length weights = length logits ->
  sequence_loss_by_example logits targets weights avg softmax_loss_function =
  Raise (ValueError EmptyAddN).
Proof.
  intros Hl H1 H2. rewrite length_check_passes by assumption.
  subst steps. rewrite Hl. reflexivity.
Qed.

(** After the length check, on lists that are not empty, only the checks
    of the shapes are left to raise. *)
Lemma loss_of_nonempty avg e :
  logits <> [] ->
  length targets = length logits -> length weights = length logits ->
  sequence_loss_by_example logits targets weights avg softmax_loss_function = Raise e ->
  e = ValueError BroadcastMismatch \/ e = ValueError AddNShapes \/
  e = ValueError RankMismatch \/ e = ValueError ShapesIncompatible.
Proof.
  intros Hne H1 H2. rewrite length_check_passes by assumption.
  assert (Hsteps : steps <> []) by (apply zip3_nonempty; assumption).
  assert (Hdiv : forall x y, elementwise div x y = Raise e ->
                 e = ValueError BroadcastMismatch \/ e = ValueError AddNShapes \/
                 e = ValueError RankMismatch \/ e = ValueError ShapesIncompatible)
    by (intros x y H; left; exact (elementwise_raises _ _ _ _ H)).
  assert (Hadd : forall (l : list (tensor R)), l <> [] -> add_n l = Raise e ->
                 e = ValueError AddNShapes).
  { intros [|x [|y rest]] Hl; cbn [add_n]; [congruence | discriminate |].
    destruct (forallb _ (y :: rest)); [discriminate|]. congruence. }
  destruct (for_each _ steps) as [lp|e'] eqn:Hlp; cbn [mbind result_bind].
  - assert (Hlp' : lp <> []).
    { apply for_each_not_empty in Hlp. destruct lp, steps; cbn in Hlp; congruence. }
    assert (Hw : weights <> []) by (destruct weights, logits; simpl in *; congruence).
    destruct (add_n lp) as [t|e1] eqn:Ht; cbn [mbind result_bind].
    + destruct avg; [|discriminate].
      destruct (add_n weights) as [tot|e2] eqn:Htot; cbn [mbind result_bind].
      * apply Hdiv.
      * intros [= <-]. right. left. exact (Hadd weights Hw Htot).
    + intros [= <-]. right. left. exact (Hadd lp Hlp' Ht).
  - intros [= <-]. apply for_each_raises in Hlp. destruct Hlp as ([[l t] w] & _ & H).
    destruct (cross_entropy softmax_loss_function l t) as [c|e1] eqn:Hc;
      cbn [mbind result_bind] in H.
    + left. exact (elementwise_raises _ _ _ _ H).
    + injection H as <-. unfold cross_entropy in Hc.
      destruct softmax_loss_function as [f|]; [discriminate Hc|]. cbv zeta in Hc.
      unfold sparse_softmax_cross_entropy_with_logits in Hc.
      destruct (tshape l) as [|b [|c [|]]];
        try (injection Hc as <-; right; right; left; reflexivity).
      destruct (bool_decide _); [discriminate Hc|].
      injection Hc as <-. right; right; right; reflexivity.
Qed.

(** A cross-entropy of shape [[B]] is one that the step has computed. *)
Lemma crossent_defined logit target (B : nat) :
  tshape (crossent softmax_loss_function logit target) = [B] ->
  cross_entropy softmax_loss_function logit target
  = Ok (crossent softmax_loss_function logit target).
Proof.
  unfold crossent. destruct (cross_entropy softmax_loss_function logit target) as [t|e];
    [reflexivity | discriminate].
Qed.

Lemma loss_pointwise avg (B : nat) :
  logits <> [] ->
  length targets = length logits -> length weights = length logits ->
  Forall (fun '(logit, target, weight) =>
            tshape (crossent softmax_loss_function logit target) = [B] /\
            tshape weight = [B]) steps ->
  exists log_perps,
    sequence_loss_by_example logits targets weights avg softmax_loss_function = Ok log_perps /\
    tshape log_perps = [B] /\
    forall b, (b < B)%nat ->
      tget log_perps [b] =
      let total :=
        sum_list (map (fun '(logit, target, weight) =>
                         tget (crossent softmax_loss_function logit target) [b]
                         * tget weight [b]) steps) in
      if avg then total / (sum_list (map (fun weight => tget weight [b]) weights) + 1e-12)
      else total.
Proof.
  intros Hne H1 H2 Hshape. rewrite length_check_passes by assumption.
  assert (Hsteps : steps <> []) by (apply zip3_nonempty; assumption).
  rewrite (for_each_ok _ (fun '(logit, target, weight) =>
                            mul (crossent softmax_loss_function logit target) weight)).
  2:{ eapply Forall_impl; [exact Hshape|]. intros [[l tg] w] [Hc Hw].
      rewrite (crossent_defined l tg B Hc). apply (elementwise_1d _ _ _ B); assumption. }
  cbn [mbind result_bind].
  set (lp := map _ steps).
  assert (Hlp : lp <> []) by (subst lp; destruct steps; simpl; congruence).
  assert (Hlps : Forall (fun t => tshape t = [B]) lp).
  { subst lp. apply List.Forall_forall. intros t Ht. apply in_map_iff in Ht.
    destruct Ht as ([[l tg] w] & <- & Hin).
    destruct (proj1 (List.Forall_forall _ _) Hshape _ Hin) as [Hc Hw].
    unfold mul. rewrite binop_shape, Hc, Hw. apply bshape_same_1d. }
  destruct (add_n_get lp [B] Hlp Hlps) as (t & -> & Hts & Htg). cbn [mbind result_bind].
  assert (Hval : forall b, (b < B)%nat ->
            tget t [b] =
            sum_list (map (fun '(logit, target, weight) =>
                         tget (crossent softmax_loss_function logit target) [b]
                         * tget weight [b]) steps)).
  { intros b Hb. rewrite Htg. subst lp. rewrite map_map. f_equal.
    apply map_ext_in. intros [[l tg] w] Hin.
    destruct (proj1 (List.Forall_forall _ _) Hshape _ Hin) as [Hc Hw].
    unfold mul. rewrite binop_get, Hc, Hw, bidx_1d by assumption. reflexivity. }
  destruct avg.
  - assert (Hw : weights <> []) by (destruct weights, logits; simpl in *; congruence).
    assert (Hws : Forall (fun t => tshape t = [B]) weights).
    { rewrite <- (zip3_weights logits targets weights H1 H2). fold steps.
      apply List.Forall_forall. intros w Hin. apply in_map_iff in Hin.
      destruct Hin as ([[l tg] w'] & <- & Hin).
      exact (proj2 (proj1 (List.Forall_forall _ _) Hshape _ Hin)). }
    destruct (add_n_get weights [B] Hw Hws) as (tot & -> & Hws' & Hwg).
    cbn [mbind result_bind].
    assert (Hg : tshape (total_size_guarded tot) = [B]).
    { unfold total_size_guarded, add. rewrite binop_shape, Hws'. simpl tshape.
      apply bshape_scalar_r. }
    rewrite (elementwise_1d div t _ B Hts Hg).
    eexists. split; [reflexivity|]. split.
    + unfold div. rewrite binop_shape, Hts, Hg. apply bshape_same_1d.
    + intros b Hb. cbv zeta. unfold div. rewrite binop_get, Hts, Hg, !bidx_1d by assumption.
      unfold total_size_guarded, add. rewrite binop_get, Hws'. simpl tshape.
      rewrite bidx_1d by assumption.
      rewrite Hval, Hwg by assumption. reflexivity.
  - exists t. cbn [mret result_ret]. repeat split; [assumption|].
    intros b Hb. cbv zeta. apply Hval; assumption.
Qed.

(** C3 (as amended).  For lists of one length that are not empty,
    [sequence_loss_by_example] returns the loss of every example [b]: the
    sum over the time steps of [crossent_t[b] * weight_t[b]], where
    [crossent_t] is the sparse softmax cross-entropy of [logit_t] against
    [target_t] or the value of the supplied loss function, divided, when
    [average_across_timesteps] is set, by the total weight of the example
    plus 1e-12. *)
Theorem sequence_loss_by_example_value avg (B : nat) :
  logits <> [] ->
  length targets = length logits -> length weights = length logits ->
  Forall (fun '(logit, target, weight) =>
            tshape (crossent softmax_loss_function logit target) = [B] /\
            tshape weight = [B]) steps ->
  exists log_perps,
    sequence_loss_by_example logits targets weights avg softmax_loss_function = Ok log_perps /\
    tshape log_perps = [B] /\
    forall b, (b < B)%nat ->
      let total :=
        sum_list (map (fun '(logit, target, weight) =>
                         tget (crossent softmax_loss_function logit target) [b]
                         * tget weight [b]) steps) in
      tget log_perps [b] =
      if avg then total / (sum_list (map (fun weight => tget weight [b]) weights) + 1e-12)
      else total.
Proof.
  intros Hne H1 H2 Hshape.
  destruct (loss_pointwise avg B Hne H1 H2 Hshape) as (lp & Hlp & Hs & Hval).
  exists lp. split; [exact Hlp|]. split; [exact Hs|].
  intros b Hb. cbv zeta. exact (Hval b Hb).
Qed.

(** Tensors of the documented shapes have a cross-entropy of shape [[B]]. *)
Lemma batch_sized_crossent (B C : nat) :
  Forall (batch_sized softmax_loss_function B C) steps ->
  Forall (fun '(logit, target, weight) =>
            tshape (crossent softmax_loss_function logit target) = [B] /\
            tshape weight = [B]) steps.
Proof.
  intros H. eapply Forall_impl; [exact H|]. intros [[l tg] w] (Hw & Ht & Hl).
  split; [|exact Hw]. unfold crossent, cross_entropy.
  destruct softmax_loss_function as [f|]; [exact Hl|].
  cbv zeta. unfold sparse_softmax_cross_entropy_with_logits. rewrite Hl.
  rewrite bool_decide_eq_true_2 by (apply reshape_flat_shape; exact Ht). reflexivity.
Qed.

End SequenceLoss.

Lemma sequence_loss_by_example_value_witness :
  exists log_perps,
    sequence_loss_by_example [one_logit] [one_target] [one_weight] true None = Ok log_perps /\
    tshape log_perps = [1%nat].
Proof.
  destruct (sequence_loss_by_example_value [one_logit] [one_target] [one_weight] None true 1)
    as (lp & Hlp & Hs & _).
  - discriminate.
  - reflexivity.
  - reflexivity.
  - repeat constructor.
  - exists lp. split; assumption.
Defined.

(** With three empty lists the length check passes and [add_n] rejects the
    empty list of per-step losses: nothing is returned. *)
Lemma sequence_loss_by_example_empty_lists :
  length (@nil (tensor Z)) = length (@nil (tensor R)) /\
  length (@nil (tensor R)) = length (@nil (tensor R)) /\
  sequence_loss_by_example [] [] [] true None = Raise (ValueError EmptyAddN).
Proof. repeat split. Qed.

(** C8 (as amended).  [sequence_loss_by_example] raises the ValueError of
    its own length check exactly when [len(targets)] or [len(weights)]
    differs from [len(logits)]; for three empty lists the check passes and
    the ValueError of [add_n] is raised, and only then; it returns only
    when the three lengths are equal and not zero; and it does return the
    per-example loss, of shape [[B]], when moreover the tensors have the
    shapes the documentation gives them. *)
Theorem sequence_loss_by_example_raises
    (logits : list (tensor R)) (targets : list (tensor Z)) (weights : list (tensor R))
    (avg : bool) (f : option loss_function) :
  (sequence_loss_by_example logits targets weights avg f = Raise (ValueError LengthsDiffer)
   <-> (length targets <> length logits \/ length weights <> length logits)) /\
  (sequence_loss_by_example logits targets weights avg f = Raise (ValueError EmptyAddN)
   <-> (length targets = length logits /\ length weights = length logits /\ logits = [])) /\
  (forall log_perps,
     sequence_loss_by_example logits targets weights avg f = Ok log_perps ->
     length targets = length logits /\ length weights = length logits /\ logits <> []) /\
  (forall B C,
     length targets = length logits -> length weights = length logits -> logits <> [] ->
     Forall (batch_sized f B C) (zip3 logits targets weights) ->
     exists log_perps,
       sequence_loss_by_example logits targets weights avg f = Ok log_perps /\
       tshape log_perps = [B]).
Proof.
  assert (Hdiff : length targets <> length logits \/ length weights <> length logits ->
                  sequence_loss_by_example logits targets weights avg f
                  = Raise (ValueError LengthsDiffer))
    by apply length_check_fails.
  assert (Hempty : length targets = length logits -> length weights = length logits ->
                   logits = [] ->
                   sequence_loss_by_example logits targets weights avg f
                   = Raise (ValueError EmptyAddN))
    by (intros; apply loss_of_empty; assumption).
  assert (Hshape : forall e, length targets = length logits -> length weights = length logits ->
                   logits <> [] ->
                   sequence_loss_by_example logits targets weights avg f = Raise e ->
                   e = ValueError BroadcastMismatch \/ e = ValueError AddNShapes \/
                   e = ValueError RankMismatch \/ e = ValueError ShapesIncompatible)
    by (intros e H1 H2 Hne; apply loss_of_nonempty; assumption).
  assert (Hcases : (length targets <> length logits \/ length weights <> length logits) \/
                   (length targets = length logits /\ length weights = length logits /\
                    logits = []) \/
                   (length targets = length logits /\ length weights = length logits /\
                    logits <> [])).
  { destruct (Nat.eq_dec (length targets) (length logits)); [|tauto].
    destruct (Nat.eq_dec (length weights) (length logits)); [|tauto].
    destruct (list_eq_nil_dec logits); tauto. }
  split; [|split; [|split]].
  - split; [|exact Hdiff]. intros H.
    destruct Hcases as [Hc|[(H1 & H2 & Hl)|(H1 & H2 & Hl)]]; [exact Hc | |].
    + rewrite (Hempty H1 H2 Hl) in H. discriminate.
    + destruct (Hshape _ H1 H2 Hl H) as [He|[He|[He|He]]]; discriminate.
  - split; [|intros (H1 & H2 & Hl); exact (Hempty H1 H2 Hl)]. intros H.
    destruct Hcases as [Hc|[Hc|(H1 & H2 & Hl)]]; [|exact Hc|].
    + rewrite (Hdiff Hc) in H. discriminate.
    + destruct (Hshape _ H1 H2 Hl H) as [He|[He|[He|He]]]; discriminate.
  - intros lp H.
    destruct Hcases as [Hc|[(H1 & H2 & Hl)|Hc]]; [| |exact Hc].
    + rewrite (Hdiff Hc) in H. discriminate.
    + rewrite (Hempty H1 H2 Hl) in H. discriminate.
  - intros B C H1 H2 Hl Hall.
    destruct (loss_pointwise logits targets weights f avg B Hl H1 H2
                (batch_sized_crossent logits targets weights f B C Hall))
      as (lp & Hlp & Hs & _).
    exists lp. split; assumption.
Qed.

Lemma sequence_loss_by_example_raises_witness :
  exists log_perps,
    sequence_loss_by_example [one_logit] [one_target] [one_weight] false None = Ok log_perps /\
    tshape log_perps = [1%nat].
Proof.
  apply (proj2 (proj2 (proj2
           (sequence_loss_by_example_raises [one_logit] [one_target] [one_weight] false None)))
           1%nat 2%nat).
  - reflexivity.
  - reflexivity.
  - discriminate.
  - repeat constructor.
Defined.

(** The claim's "if and only if" and its "is returned" fail: on empty
    lists the lengths are equal and a ValueError is raised all the same,
    and so it is on lists of one length whose tensors do not fit, here two
    cross-entropies against three weights. *)
Lemma sequence_loss_by_example_empty_raises :
  ~ (length (@nil (tensor Z)) <> length (@nil (tensor R)) \/
     length (@nil (tensor R)) <> length (@nil (tensor R))) /\
  (exists e, sequence_loss_by_example [] [] [] false None = Raise (ValueError e)) /\
  ~ (length [two_targets] <> length [two_logits] \/
     length [three_weights] <> length [two_logits]) /\
  exists e, sequence_loss_by_example [two_logits] [two_targets] [three_weights] false None
            = Raise (ValueError e).
Proof.
  split; [intros [H|H]; apply H; reflexivity|].
  split; [eexists; reflexivity|].
  split; [intros [H|H]; apply H; reflexivity|].
  eexists. reflexivity.
Qed.

(** ** [sequence_loss] *)






(** ** The guarded denominators *)

Lemma reduce_axis_get a k idx :
  tget (reduce_axis a k) idx =
  sum_n (nth k (tshape a) O) (fun i => tget a (insert_at k i idx)).
Proof. reflexivity. Qed.

Lemma eps_pos : 0 < eps.
Proof. unfold eps. lra. Qed.

(** C9 (as amended).  The two denominators that carry an epsilon are
    strictly positive: the total label weight plus 1e-12 in
    [sequence_loss_by_example], for weights that are nowhere negative, all
    zero included; and [<prev_attn, prev_attn> + 1e-14] in the distraction
    gate, for every [prev_attn]. *)
Theorem epsilon_denominators_positive :
  (forall (weights : list (tensor R)) (total_size : tensor R),
      (forall w idx, In w weights -> 0 <= tget w idx) ->
      add_n weights = Ok total_size ->
      forall idx, 0 < tget (total_size_guarded total_size) idx) /\
  (forall (prev_attn : tensor R) idx, 0 < tget (gate_denominator prev_attn) idx).
Proof.
  split.
  - intros weights total Hnn Hadd idx.
    destruct (add_n_ok weights total Hadd) as (_ & _ & Hget).
    unfold total_size_guarded, add. rewrite binop_get, Hget. cbn [tget scalar op_result].
    assert (0 <= sum_list (map (fun x => tget x (bidx (tshape total) idx)) weights)).
    { apply sum_list_nonneg. apply List.Forall_forall. intros x Hx.
      apply in_map_iff in Hx. destruct Hx as (w & <- & Hw). apply Hnn; assumption. }
    lra.
  - intros p idx. unfold gate_denominator, add. rewrite binop_get.
    cbn [reduce_sum rev app fold_left]. rewrite reduce_axis_get.
    cbn [tget scalar op_result].
    assert (0 <= sum_n (nth 1 (tshape (mul p p)) O)
                   (fun i => tget (mul p p)
                               (insert_at 1 i (bidx (tshape (reduce_axis (mul p p) 1)) idx)))).
    { apply sum_n_nonneg. intros i _. unfold mul. rewrite binop_get. nra. }
    pose proof eps_pos. lra.
Qed.

Lemma epsilon_denominators_positive_witness :
  0 < tget (total_size_guarded (op_result [2%nat] (fun _ => 0))) [1%nat] /\
  0 < tget (gate_denominator (op_result [1%nat; 2%nat] (fun _ => 0))) [0%nat].
Proof.
  split.
  - apply (proj1 epsilon_denominators_positive [op_result [2%nat] (fun _ => 0)]).
    + intros w idx' [<-|[]]. simpl. lra.
    + reflexivity.
  - apply (proj2 epsilon_denominators_positive).
Defined.

(** The division by the batch size in [sequence_loss] has no guard: on a
    batch of no example the denominator is zero. *)
Lemma batch_size_division_unguarded :
  exists cost,
    sequence_loss [empty_batch_logit] [empty_batch_target] [empty_batch_weight]
                  true true None
    = Ok (div cost (cast_float32 0)) /\
    ~ 0 < tget (cast_float32 0) [].
Proof.
  eexists. split; [reflexivity|]. simpl. lra.
Qed.

(** ** The distraction gate *)

Lemma bshape_2d_same B n : bshape [B; n] [B; n] = [B; n].
Proof. unfold bshape. simpl. destruct (n =? 1)%nat, (B =? 1)%nat; reflexivity. Qed.

Lemma bshape_2d_1d B n : bshape [B; n] [n] = [B; n].
Proof. unfold bshape. simpl. destruct (n =? 1)%nat; reflexivity. Qed.

Ltac bidx_simpl :=
  unfold bidx; cbn [rev app bidx_r]; rewrite ?bdim_lt by assumption.

Lemma reduce_rows_get f x y B n b :
  tshape x = [B; n] -> tshape y = [B; n] -> (b < B)%nat ->
  tget (reduce_axis (binop f x y) 1) [b]
  = sum_n n (fun k => f (tget x [b; k]) (tget y [b; k])).
Proof.
  intros Hx Hy Hb. rewrite reduce_axis_get, binop_shape, Hx, Hy, bshape_2d_same.
  cbn [nth]. apply sum_n_ext. intros k Hk.
  rewrite binop_get, Hx, Hy. cbn [insert_at firstn skipn app]. bidx_simpl. reflexivity.
Qed.

Lemma reduce_rows_shape f x y B n :
  tshape x = [B; n] -> tshape y = [B; n] ->
  tshape (reduce_axis (binop f x y) 1) = [B].
Proof.
  intros Hx Hy. cbn [tshape reduce_axis op_result].
  rewrite binop_shape, Hx, Hy, bshape_2d_same. reflexivity.
Qed.

Lemma mul_get x y idx :
  tget (mul x y) idx = tget x (bidx (tshape x) idx) * tget y (bidx (tshape y) idx).
Proof. reflexivity. Qed.

Lemma mul_shape x y : tshape (mul x y) = bshape (tshape x) (tshape y).
Proof. reflexivity. Qed.

Section Gate.

Variables (a prev_attn gate_weight gate_bias : tensor R) (B n : nat).
Hypothesis Ha : tshape a = [B; n].
Hypothesis Hp : tshape prev_attn = [B; n].
Hypothesis Hw : tshape gate_weight = [n; n].
Hypothesis Hb : tshape gate_bias = [n].

Lemma temp_shape :
  tshape (div (reduce_sum (mul a prev_attn) [1%nat]) (gate_denominator prev_attn)) = [B].
Proof.
  unfold div, gate_denominator, add, mul. rewrite !binop_shape.
  cbn [reduce_sum rev app fold_left].
  rewrite (reduce_rows_shape _ _ _ B n), (reduce_rows_shape _ _ _ B n) by assumption.
  cbn [tshape scalar op_result]. rewrite bshape_scalar_r. apply bshape_same_1d.
Qed.

Lemma temp_value b :
  (b < B)%nat ->
  tget (div (reduce_sum (mul a prev_attn) [1%nat]) (gate_denominator prev_attn)) [b]
  = projection_coefficient a prev_attn n b.
Proof.
  intros Hlt. unfold div, gate_denominator, add, mul.
  rewrite !binop_get, !binop_shape. cbn [reduce_sum rev app fold_left].
  rewrite (reduce_rows_shape _ _ _ B n), (reduce_rows_shape _ _ _ B n) by assumption.
  cbn [tshape scalar op_result]. rewrite bshape_scalar_r. bidx_simpl.
  rewrite !(reduce_rows_get _ _ _ B n) by assumption.
  reflexivity.
Qed.

Let gate := add (matmul prev_attn gate_weight) gate_bias.

Lemma gate_shape : tshape gate = [B; n].
Proof.
  unfold gate, add. rewrite binop_shape. cbn [tshape matmul op_result].
  rewrite Hp, Hw, Hb. cbn [nth]. apply bshape_2d_1d.
Qed.

Lemma gate_value b j :
  (b < B)%nat -> (j < n)%nat ->
  tget gate [b; j]
  = sum_n n (fun k => tget prev_attn [b; k] * tget gate_weight [k; j]) + tget gate_bias [j].
Proof.
  intros Hlt Hj. unfold gate, add. rewrite binop_get. cbn [tshape matmul op_result].
  rewrite Hp, Hw, Hb. cbn [nth]. bidx_simpl. cbn [tget matmul op_result nth].
  rewrite Hp. reflexivity.
Qed.

Lemma temp1_shape :
  tshape (transpose (mul (sigmoid (transpose gate))
                         (div (reduce_sum (mul a prev_attn) [1%nat])
                              (gate_denominator prev_attn)))) = [B; n].
Proof.
  cbn [tshape transpose op_result]. rewrite mul_shape, temp_shape.
  cbn [tshape sigmoid unop transpose op_result]. rewrite gate_shape.
  cbn [rev app]. replace (bshape [n; B] [B]) with [n; B]; [reflexivity|].
  unfold bshape. simpl. destruct (B =? 1)%nat; reflexivity.
Qed.

Lemma temp1_value b j :
  (b < B)%nat -> (j < n)%nat ->
  tget (transpose (mul (sigmoid (transpose gate))
                       (div (reduce_sum (mul a prev_attn) [1%nat])
                            (gate_denominator prev_attn)))) [b; j]
  = sigmoid_R (tget gate [b; j]) * projection_coefficient a prev_attn n b.
Proof.
  intros Hlt Hj. cbn [tget transpose op_result rev app].
  rewrite mul_get, temp_shape. cbn [tshape sigmoid unop transpose op_result].
  rewrite gate_shape. cbn [rev app]. bidx_simpl. cbn [tget rev app].
  rewrite temp_value by assumption. reflexivity.
Qed.

Lemma distraction_shape :
  tshape (distraction a (Some prev_attn) gate_weight gate_bias) = [B; n].
Proof.
  unfold distraction. fold gate. unfold sub. rewrite binop_shape.
  rewrite (mul_shape prev_attn), temp1_shape, Ha, Hp.
  rewrite !bshape_2d_same. reflexivity.
Qed.

Lemma distraction_value b j :
  (b < B)%nat -> (j < n)%nat ->
  tget (distraction a (Some prev_attn) gate_weight gate_bias) [b; j]
  = tget a [b; j]
    - tget prev_attn [b; j]
      * (sigmoid_R (sum_n n (fun k => tget prev_attn [b; k] * tget gate_weight [k; j])
                    + tget gate_bias [j])
         * projection_coefficient a prev_attn n b).
Proof.
  intros Hlt Hj. unfold distraction. fold gate. unfold sub. rewrite binop_get.
  rewrite (mul_shape prev_attn), (mul_get prev_attn), temp1_shape, Ha, Hp.
  rewrite !bshape_2d_same. bidx_simpl.
  rewrite temp1_value, gate_value by assumption. reflexivity.
Qed.

End Gate.

(** ** The monad of graph construction *)

Lemma bind_inv {A B} (m : M A) (f : A -> M B) st r st' :
  (m ≫= f) st = (r, st') ->
  (exists e, m st = (Raise e, st') /\ r = Raise e) \/
  (exists a st1, m st = (Ok a, st1) /\ f a st1 = (r, st')).
Proof.
  unfold mbind, M_bind. destruct (m st) as [[a|e] st1] eqn:E; intros H.
  - right. eauto.
  - left. injection H as <- <-. eauto.
Qed.

Lemma bind_ok {A B} (m : M A) (f : A -> M B) st b st' :
  (m ≫= f) st = (Ok b, st') ->
  exists a st1, m st = (Ok a, st1) /\ f a st1 = (Ok b, st').
Proof.
  intros H. destruct (bind_inv _ _ _ _ _ H) as [(e & _ & He)|H']; [discriminate|exact H'].
Qed.

Lemma store_le_refl st : store_le st st.
Proof. intros name v H. exact H. Qed.

Lemma store_le_trans st1 st2 st3 : store_le st1 st2 -> store_le st2 st3 -> store_le st1 st3.
Proof. intros H1 H2 name v H. apply H2, H1, H. Qed.

Lemma trace_in_le st st' seg : store_le st st' -> trace_in st seg -> trace_in st' seg.
Proof.
  intros Hle Hin. unfold trace_in in *. eapply Forall_impl; [exact Hin|].
  intros entry H. apply Hle, H.
Qed.

Lemma sound_weaken {A} (m : M A) (E E' : exn -> Prop) :
  sound m E -> (forall e, E e -> E' e) -> sound m E'.
Proof.
  intros Hm HE st r st' H. destruct (Hm _ _ _ H) as (Hle & Hseg & Hr).
  repeat split; try assumption. destruct r; [exact I | apply HE, Hr].
Qed.

Lemma sound_ret {A} (a : A) E : sound (mret a) E.
Proof.
  intros st r st' H. injection H as <- <-. split; [apply store_le_refl|].
  split; [|exact I]. exists []. split; [symmetry; apply app_nil_r | constructor].
Qed.

Lemma sound_raise {A} e (E : exn -> Prop) : E e -> sound (@raise A e) E.
Proof.
  intros He st r st' H. injection H as <- <-. split; [apply store_le_refl|].
  split; [|exact He]. exists []. split; [symmetry; apply app_nil_r | constructor].
Qed.

Lemma sound_lift {A} (x : result A) (E : exn -> Prop) :
  (forall e, x = Raise e -> E e) -> sound (lift x) E.
Proof.
  intros He st r st' H. injection H as <- <-. split; [apply store_le_refl|].
  split; [exists []; split; [symmetry; apply app_nil_r | constructor]|].
  destruct x; [exact I | apply He; reflexivity].
Qed.

Lemma sound_bind {A B} (m : M A) (f : A -> M B) E :
  sound m E -> (forall a, sound (f a) E) -> sound (m ≫= f) E.
Proof.
  intros Hm Hf st r st' H.
  destruct (bind_inv _ _ _ _ _ H) as [(e & Hme & ->)|(a & st1 & Hma & Hfa)].
  - exact (Hm _ _ _ Hme).
  - destruct (Hm _ _ _ Hma) as (Hle1 & (seg1 & Ht1 & Hin1) & _).
    destruct (Hf a _ _ _ Hfa) as (Hle2 & (seg2 & Ht2 & Hin2) & Hr).
    split; [eapply store_le_trans; eassumption|]. split; [|exact Hr].
    exists (seg1 ++ seg2). split.
    + rewrite Ht2, Ht1. symmetry. apply app_assoc.
    + apply Forall_app. split; [eapply trace_in_le; eassumption | exact Hin2].
Qed.

Lemma emits_ret {A} (a : A) : emits (mret a) [].
Proof.
  intros st a' st' H. injection H as <- <-. exists []. split; [symmetry; apply app_nil_r | reflexivity].
Qed.

Lemma emits_lift {A} (x : result A) : emits (lift x) [].
Proof.
  intros st a' st' H. injection H as _ <-. exists []. split; [symmetry; apply app_nil_r | reflexivity].
Qed.

Lemma emits_raise {A} e names : emits (@raise A e) names.
Proof. intros st a st' H. discriminate. Qed.

Lemma emits_bind {A B} (m : M A) (f : A -> M B) n1 n2 :
  emits m n1 -> (forall a, emits (f a) n2) -> emits (m ≫= f) (n1 ++ n2).
Proof.
  intros Hm Hf st b st' H. destruct (bind_ok _ _ _ _ _ H) as (a & st1 & Hma & Hfa).
  destruct (Hm _ _ _ Hma) as (seg1 & Ht1 & Hn1).
  destruct (Hf a _ _ _ Hfa) as (seg2 & Ht2 & Hn2).
  exists (seg1 ++ seg2). split.
  - rewrite Ht2, Ht1. symmetry. apply app_assoc.
  - rewrite map_app, Hn1, Hn2. reflexivity.
Qed.

Lemma emits_bind_nil {A B} (m : M A) (f : A -> M B) names :
  emits m [] -> (forall a, emits (f a) names) -> emits (m ≫= f) names.
Proof. intros Hm Hf. apply (emits_bind m f [] names Hm Hf). Qed.

Lemma emits_bind_last {A B} (m : M A) (f : A -> M B) names :
  emits m names -> (forall a, emits (f a) []) -> emits (m ≫= f) names.
Proof.
  intros Hm Hf. rewrite <- (app_nil_r names). apply (emits_bind m f names [] Hm Hf).
Qed.

(** ** [get_variable] *)

Lemma get_variable_inv sc name shape st r st' :
  get_variable sc name shape st = (r, st') ->
  (exists e, r = Raise e /\ is_var_error e /\ st' = st) \/
  (exists v, r = Ok v /\ vars st' !! full_name sc name = Some v /\
             trace st' = trace st ++ [(full_name sc name, v)] /\
             compatible_with shape (vshape v) = true /\
             (if sreuse sc then vars st' = vars st /\ next_id st' = next_id st
              else vars st !! full_name sc name = None /\
                   vars st' = <[full_name sc name := v]> (vars st) /\
                   vid v = next_id st)).
Proof.
  unfold get_variable, is_var_error.
  destruct (vars st !! full_name sc name) as [v|] eqn:Hl.
  - destruct (sreuse sc) eqn:Hr; cbn [negb].
    + destruct (compatible_with shape (vshape v)) eqn:Hc; intros H; injection H as <- <-.
      * right. exists v. cbn. repeat split; auto.
      * left. eexists. repeat split; auto.
    + intros H; injection H as <- <-. left. eexists. repeat split; auto.
  - destruct (sreuse sc) eqn:Hr.
    + intros H; injection H as <- <-. left. eexists. repeat split; auto.
    + destruct (fully_defined shape) as [s|] eqn:Hf; intros H; injection H as <- <-.
      * right. eexists. cbn. repeat split; auto.
        -- apply lookup_insert_eq.
        -- clear Hl. revert s Hf. induction shape as [|[d|] shape IH]; intros s Hf.
           ++ injection Hf as <-. reflexivity.
           ++ cbn in Hf. destruct (fully_defined shape) as [s'|]; [|discriminate].
              injection Hf as <-. cbn. rewrite Nat.eqb_refl. apply IH. reflexivity.
           ++ discriminate.
      * left. eexists. repeat split; auto.
Qed.

Lemma sound_get_variable sc name shape : sound (get_variable sc name shape) is_var_error.
Proof.
  intros st r st' H.
  destruct (get_variable_inv _ _ _ _ _ _ H)
    as [(e & -> & He & ->)|(v & -> & Hl & Ht & _ & Hs)].
  - split; [apply store_le_refl|]. split; [|exact He].
    exists []. split; [symmetry; apply app_nil_r | constructor].
  - split.
    + destruct (sreuse sc).
      * destruct Hs as [Hv _]. intros k w. rewrite Hv. auto.
      * destruct Hs as (Hnone & Hv & _). intros k w Hk. rewrite Hv.
        rewrite lookup_insert_ne; [exact Hk|]. intros <-. congruence.
    + split; [|exact I]. eexists. split; [exact Ht|].
      constructor; [exact Hl | constructor].
Qed.

Lemma emits_get_variable sc name shape :
  emits (get_variable sc name shape) [full_name sc name].
Proof.
  intros st v st' H.
  destruct (get_variable_inv _ _ _ _ _ _ H) as [(e & He & _)|(v' & Hv & _ & Ht & _)];
    [discriminate|].
  eexists. split; [exact Ht | reflexivity].
Qed.

Lemma compatible_with_known s s' : compatible_with (map Some s) s' = true -> s' = s.
Proof.
  revert s'. induction s as [|d s IH]; intros [|d' s']; cbn; try discriminate; auto.
  intros H. apply andb_prop in H. destruct H as [Hd Hs].
  apply Nat.eqb_eq in Hd. f_equal; [congruence | apply IH, Hs].
Qed.

Lemma get_variable_shape sc name s st v st' :
  get_variable sc name (map Some s) st = (Ok v, st') -> vshape v = s.
Proof.
  intros H.
  destruct (get_variable_inv _ _ _ _ _ _ H) as [(e & He & _)|(v' & Hv & _ & _ & Hc & _)];
    [discriminate|].
  injection Hv as <-. apply compatible_with_known, Hc.
Qed.

Lemma sound_mapM {A B} (f : A -> M B) (l : list A) E :
  (forall x, sound (f x) E) -> sound (mapM f l) E.
Proof.
  intros Hf. induction l as [|x l IH]; cbn [mapM].
  - apply sound_ret.
  - apply sound_bind; [apply Hf|]. intros y.
    apply sound_bind; [apply IH|]. intros ys. apply sound_ret.
Qed.

Lemma emits_mapM {A B} (f : A -> M B) (g : A -> list string) (l : list A) :
  (forall x, emits (f x) (g x)) -> emits (mapM f l) (concat (map g l)).
Proof.
  intros Hf. induction l as [|x l IH]; cbn [mapM map concat].
  - apply emits_ret.
  - apply emits_bind; [apply Hf|]. intros y.
    rewrite <- (app_nil_r (concat (map g l))).
    apply emits_bind; [apply IH|]. intros ys. apply emits_ret.
Qed.

Lemma sound_try_except {A} (body handler : M A) (Eb E : exn -> Prop) :
  sound body Eb -> sound handler E ->
  (forall e, Eb e -> (forall v, e <> ValueError v) -> E e) ->
  sound (try_except_ValueError body handler) E.
Proof.
  intros Hb Hh Hpass st r st' H. unfold try_except_ValueError in H.
  destruct (body st) as [[a|e] st1] eqn:Eb1.
  - injection H as <- <-. destruct (Hb _ _ _ Eb1) as (Hle & Hseg & _). auto.
  - destruct (Hb _ _ _ Eb1) as (Hle1 & (seg1 & Ht1 & Hin1) & He).
    destruct e as [v| | |].
    + destruct (Hh _ _ _ H) as (Hle2 & (seg2 & Ht2 & Hin2) & Hr).
      split; [eapply store_le_trans; eassumption|]. split; [|exact Hr].
      exists (seg1 ++ seg2). split.
      * rewrite Ht2, Ht1. symmetry. apply app_assoc.
      * apply Forall_app. split; [eapply trace_in_le; eassumption | exact Hin2].
    + injection H as <- <-. repeat split; eauto.
    + injection H as <- <-. repeat split; eauto.
    + injection H as <- <-. repeat split; eauto.
Qed.

Lemma listen_inv {A} (m : M A) st r st' :
  listen m st = (r, st') ->
  exists r1 st1,
    m (Store (vars st) (next_id st) []) = (r1, st1) /\
    st' = Store (vars st1) (next_id st1) (trace st ++ trace st1) /\
    r = match r1 with Ok a => Ok (a, trace st1) | Raise e => Raise e end.
Proof.
  unfold listen. destruct (m _) as [[a|e] st1] eqn:E; intros H; injection H as <- <-;
    eauto.
Qed.

Lemma sound_listen {A} (m : M A) E : sound m E -> sound (listen m) E.
Proof.
  intros Hm st r st' H. destruct (listen_inv _ _ _ _ H) as (r1 & st1 & H1 & -> & ->).
  destruct (Hm _ _ _ H1) as (Hle & (seg & Ht & Hin) & Hr). cbn in Ht. subst seg.
  split; [exact Hle|]. split.
  - exists (trace st1). split; [reflexivity | exact Hin].
  - destruct r1; [exact I | exact Hr].
Qed.

Lemma listen_segment {A} (m : M A) names st a seg st' :
  sound m (fun _ => True) -> emits m names ->
  listen m st = (Ok (a, seg), st') ->
  map fst seg = names /\ trace_in st' seg.
Proof.
  intros Hs Hm H. destruct (listen_inv _ _ _ _ H) as (r1 & st1 & H1 & -> & Hr).
  destruct r1 as [a1|e]; [|discriminate]. injection Hr as -> ->.
  destruct (Hm _ _ _ H1) as (seg & Ht & Hn). cbn in Ht. subst seg.
  split; [exact Hn|].
  destruct (Hs _ _ _ H1) as (_ & (seg & Ht & Hin) & _). cbn in Ht. subst seg. exact Hin.
Qed.

(** ** What the host framework's operations raise *)

Lemma dimension_error s k e : dimension s k = Raise e -> e = IndexError.
Proof.
  unfold dimension. destruct s as [dims|]; [|discriminate].
  destruct (nth_error dims k); [discriminate|]. congruence.
Qed.

Lemma item_error {A} (l : list A) i e : item l i = Raise e -> e = IndexError.
Proof. unfold item. destruct (nth_error l i); [discriminate|]. congruence. Qed.

Lemma with_rank_error s r e : with_rank s r = Raise e -> e = ValueError RankMismatch.
Proof.
  unfold with_rank. destruct s as [dims|]; [|discriminate].
  destruct (length dims =? r)%nat; [discriminate|]. congruence.
Qed.

Lemma conv2d_error x k e : conv2d x k = Raise e -> e = ValueError DepthMismatch.
Proof. unfold conv2d. destruct (_ =? _)%nat; [discriminate|]. congruence. Qed.

Lemma assert_2d_error l e : assert_2d l = Raise e -> e = AssertionError.
Proof. unfold assert_2d. destruct (forallb _ l); [discriminate|]. congruence. Qed.

Lemma library_not_own e : library_error e -> ~ own_check e.
Proof.
  unfold library_error, is_var_error, own_check. intros H H'.
  repeat match goal with H : _ \/ _ |- _ => destruct H end; congruence.
Qed.

Lemma input_size_known_inv inp dims n :
  with_rank (tstatic inp) 2 = Ok dims -> item dims 1 = Ok (Some n) ->
  input_size_known inp.
Proof.
  unfold with_rank, item, input_size_known.
  destruct (tstatic inp) as [ds|].
  - destruct (length ds =? 2)%nat eqn:Hl; [|discriminate].
    intros H; injection H as <-. apply Nat.eqb_eq in Hl.
    destruct ds as [|d0 [|d1 [|d2 ds]]]; try discriminate.
    cbn. intros H; injection H as ->. eauto.
  - intros H; injection H as <-. discriminate.
Qed.

Lemma input_size_known_check inp :
  input_size_known inp ->
  exists d n, with_rank (tstatic inp) 2 = Ok [d; Some n].
Proof. intros (d & n & H). exists d, n. unfold with_rank. rewrite H. reflexivity. Qed.

Lemma input_size_unknown_check inp :
  ~ input_size_known inp ->
  with_rank (tstatic inp) 2 = Raise (ValueError RankMismatch) \/
  exists dims, with_rank (tstatic inp) 2 = Ok dims /\ item dims 1 = Ok None.
Proof.
  intros Hn. unfold with_rank. destruct (tstatic inp) as [ds|] eqn:Hs.
  - destruct (length ds =? 2)%nat eqn:Hl; [|left; reflexivity].
    right. exists ds. split; [reflexivity|]. apply Nat.eqb_eq in Hl.
    destruct ds as [|d0 [|d1 [|d2 ds]]]; try discriminate.
    destruct d1 as [n|]; [|reflexivity]. exfalso. apply Hn. exists d0, n. exact Hs.
  - right. exists [None; None]. split; reflexivity.
Qed.

(** ** Names and scopes *)

Lemma full_name_sname sc sc' name :
  sname sc = sname sc' -> full_name sc name = full_name sc' name.
Proof. unfold full_name. intros ->. reflexivity. Qed.

Lemma layer_requests_sname {In Out} (l : layer In Out) sc sc' :
  sname sc = sname sc' -> layer_requests l sc = layer_requests l sc'.
Proof.
  intros H. unfold layer_requests. apply map_ext. intros name.
  apply full_name_sname, H.
Qed.

Lemma attention_requests_sname l heads prefix sc sc' :
  sname sc = sname sc' ->
  attention_requests l heads prefix sc = attention_requests l heads prefix sc'.
Proof.
  intros H. unfold attention_requests. f_equal. apply map_ext. intros a.
  apply layer_requests_sname. cbn. apply full_name_sname, H.
Qed.

Lemma step_requests_sname l cell heads sc sc' :
  sname sc = sname sc' -> step_requests l cell heads sc = step_requests l cell heads sc'.
Proof.
  intros H. unfold step_requests.
  rewrite (layer_requests_sname l sc sc' H), (layer_requests_sname (cell_layer cell) sc sc' H),
    (attention_requests_sname l heads "Attention_Query_" sc sc' H),
    (attention_requests_sname l heads "Attention_" sc sc' H).
  do 4 f_equal. apply layer_requests_sname. cbn. apply full_name_sname, H.
Qed.

Lemma concat_singletons {A B} (f : A -> B) (l : list A) :
  concat (map (fun x => [f x]) l) = map f l.
Proof. induction l as [|x l IH]; cbn; [reflexivity | f_equal; exact IH]. Qed.

(** ** The layers and the attention closures *)

Section DecoderEffects.

Variable theta : nat -> list nat -> R.
Variable linear_layer : layer linear_args (tensor R).
Variable E : exn -> Prop.
Hypothesis library_in_E : forall e, library_error e -> E e.

Lemma var_error_in_E e : is_var_error e -> E e.
Proof. intros H. apply library_in_E. left. exact H. Qed.

Lemma index_error_in_E : E IndexError.
Proof. apply library_in_E. right. left. reflexivity. Qed.

Lemma sound_item {A} (l : list A) i : sound (lift (item l i)) E.
Proof. apply sound_lift. intros e H. rewrite (item_error _ _ _ H). apply index_error_in_E. Qed.

Lemma sound_dimension s k : sound (lift (dimension s k)) E.
Proof.
  apply sound_lift. intros e H. rewrite (dimension_error _ _ _ H). apply index_error_in_E.
Qed.

Lemma sound_get_variable_E sc name shape : sound (get_variable sc name shape) E.
Proof. eapply sound_weaken; [apply sound_get_variable | apply var_error_in_E]. Qed.

Lemma sound_call_layer {In Out} (l : layer In Out) sc x : sound (call_layer theta l sc x) E.
Proof.
  unfold call_layer. apply sound_bind.
  - apply sound_mapM. intros name. apply sound_get_variable_E.
  - intros vs. apply sound_ret.
Qed.

Lemma emits_call_layer {In Out} (l : layer In Out) sc x :
  emits (call_layer theta l sc x) (layer_requests l sc).
Proof.
  unfold call_layer, layer_requests.
  rewrite <- (app_nil_r (map _ _)), <- concat_singletons.
  apply emits_bind.
  - apply (emits_mapM _ (fun name => [full_name sc name])). intros name.
    apply emits_get_variable.
  - intros vs. apply emits_ret.
Qed.

Lemma call_layer_ok {In Out} (l : layer In Out) sc x st y st' :
  call_layer theta l sc x st = (Ok y, st') ->
  exists vs, y = layer_apply l (map (read theta) vs) x.
Proof.
  unfold call_layer. intros H. apply bind_ok in H. destruct H as (vs & st1 & _ & H).
  injection H as <- _. eauto.
Qed.

Lemma sound_attention env sc query :
  sound (attention theta linear_layer env sc query) E.
Proof.
  unfold attention. apply sound_bind.
  - apply sound_lift. intros e H. rewrite (assert_2d_error _ _ H).
    apply library_in_E. right. right. left. reflexivity.
  - intros _. apply sound_mapM. intros a.
    apply sound_bind; [apply sound_call_layer|]. intros y.
    apply sound_bind; [apply sound_item|]. intros v.
    apply sound_bind; [apply sound_item|]. intros hf. apply sound_ret.
Qed.

Lemma emits_attention env sc query :
  emits (attention theta linear_layer env sc query)
        (attention_requests linear_layer (num_heads env) "Attention_" sc).
Proof.
  unfold attention, attention_requests.
  apply (emits_bind _ _ []); [apply emits_lift|]. intros _.
  apply (emits_mapM _ (fun a => layer_requests linear_layer
                           (variable_scope sc (inl ("Attention_" +:+ pretty a)) None))).
  intros a. rewrite <- (app_nil_r (layer_requests _ _)).
  apply emits_bind; [apply emits_call_layer|]. intros y.
  apply (emits_bind _ _ []); [apply emits_lift|]. intros v.
  apply (emits_bind _ _ []); [apply emits_lift|]. intros hf. apply emits_ret.
Qed.

Lemma sound_attention_query env sc query :
  sound (attention_query theta linear_layer env sc query) E.
Proof.
  unfold attention_query. apply sound_bind.
  - apply sound_mapM. intros a.
    apply sound_bind; [apply sound_call_layer|]. intros y.
    apply sound_bind; [apply sound_item|]. intros v.
    apply sound_bind; [apply sound_item|]. intros hf. apply sound_ret.
  - intros ds. apply sound_item.
Qed.

Lemma emits_attention_query env sc query :
  emits (attention_query theta linear_layer env sc query)
        (attention_requests linear_layer (num_heads env) "Attention_Query_" sc).
Proof.
  unfold attention_query, attention_requests.
  rewrite <- (app_nil_r (concat _)).
  apply emits_bind; [|intros ds; apply emits_lift].
  apply (emits_mapM _ (fun a => layer_requests linear_layer
                           (variable_scope sc (inl ("Attention_Query_" +:+ pretty a)) None))).
  intros a. rewrite <- (app_nil_r (layer_requests _ _)).
  apply emits_bind; [apply emits_call_layer|]. intros y.
  apply (emits_bind _ _ []); [apply emits_lift|]. intros v.
  apply (emits_bind _ _ []); [apply emits_lift|]. intros hf. apply emits_ret.
Qed.

End DecoderEffects.

Lemma lift_bind {A B} (x : result A) (a : A) (f : A -> M B) :
  x = Ok a -> lift x ≫= f = f a.
Proof. intros ->. reflexivity. Qed.

Lemma lift_bind_raise {A B} (x : result A) e (f : A -> M B) st :
  x = Raise e -> (lift x ≫= f) st = (Raise e, st).
Proof. intros ->. reflexivity. Qed.

(** ** One decoding step *)

Section StepEffects.

Variable theta : nat -> list nat -> R.
Variable linear_layer : layer linear_args (tensor R).
Variables (env : attn_env) (gate_weight gate_bias : variable) (cell : rnn_cell).
Variables (output_size : nat) (loop_function : option loop_fn).
Variable initial_state_attention : bool.

#[local] Abbreviation step_body' :=
  (step_body theta linear_layer env gate_weight gate_bias cell output_size
             loop_function initial_state_attention).
#[local] Abbreviation decoder_step' :=
  (decoder_step theta linear_layer env gate_weight gate_bias cell output_size
                loop_function initial_state_attention).

Lemma attention_scope_sname sc i :
  sname (if (i =? 0)%nat && initial_state_attention
         then variable_scope sc (inr sc) (Some true) else sc) = sname sc.
Proof. destruct ((i =? 0)%nat && initial_state_attention); reflexivity. Qed.

Lemma step_scope_sname sc i :
  sname (if (0 <? i)%nat then reuse_variables sc else sc) = sname sc.
Proof. destruct (0 <? i)%nat; reflexivity. Qed.

Lemma sound_step_rest (E : exn -> Prop) i inp' input_size ls :
  (forall e, library_error e -> E e) ->
  sound (let sc := if (0 <? i)%nat then reuse_variables (ls_scope ls) else ls_scope ls in
         a ← lift (item (ls_attns_state ls) 0);
         let distract_output :=
           distraction a (ls_prev_attn ls) (read theta gate_weight) (read theta gate_bias) in
         x ← linear theta linear_layer sc [inp'; distract_output] input_size true;
         '(cell_output, state) ← call_layer theta (cell_layer cell) sc (x, ls_state ls);
         let sc_attn := if (i =? 0)%nat && initial_state_attention
                        then variable_scope sc (inr sc) (Some true) else sc in
         attns_query ← attention_query theta linear_layer env sc_attn state;
         attns_state ← attention theta linear_layer env sc_attn [state; attns_query];
         output ← linear theta linear_layer
                    (variable_scope sc (inl "AttnOutputProjection") None)
                    (cell_output :: attns_state) output_size true;
         let prev := match loop_function with
                     | Some _ => Some output
                     | None => ls_prev ls
                     end in
         mret (LoopState sc state prev (Some distract_output) attns_state
                         (ls_outputs ls ++ [output]) (ls_history ls),
               (inp', a, distract_output, x))) E.
Proof.
  intros HE. cbv zeta.
  apply sound_bind; [apply sound_item, HE|]. intros a.
  apply sound_bind; [apply sound_call_layer, HE|]. intros x.
  apply sound_bind; [apply sound_call_layer, HE|]. intros [cell_output state].
  apply sound_bind; [apply sound_attention_query, HE|]. intros attns_query.
  apply sound_bind; [apply sound_attention, HE|]. intros attns_state.
  apply sound_bind; [apply sound_call_layer, HE|]. intros output.
  apply sound_ret.
Qed.

Lemma sound_step_body (E : exn -> Prop) i inp ls :
  (forall e, library_error e -> E e) ->
  input_size_known (effective_input loop_function (ls_prev ls) i inp)
  \/ E (ValueError InputSizeUnknown) ->
  sound (step_body' i inp ls) E.
Proof.
  intros HE [Hk|HEv]; unfold step_body.
  - destruct (input_size_known_check _ Hk) as (d & n & Hw).
    rewrite (lift_bind _ _ _ Hw).
    rewrite (lift_bind (item [d; Some n] 1) (Some n)) by reflexivity.
    apply sound_step_rest, HE.
  - apply sound_bind.
    { apply sound_lift. intros e H. rewrite (with_rank_error _ _ _ H).
      apply HE. do 5 right. left. reflexivity. }
    intros dims. apply sound_bind; [apply sound_item, HE|].
    intros [input_size|]; [apply sound_step_rest, HE | apply sound_raise, HEv].
Qed.

Lemma emits_step_body i inp ls :
  emits (step_body' i inp ls)
        (step_requests linear_layer cell (num_heads env) (ls_scope ls)).
Proof.
  unfold step_body.
  apply emits_bind_nil; [apply emits_lift|]. intros dims.
  apply emits_bind_nil; [apply emits_lift|]. intros [input_size|];
    [|apply emits_raise].
  apply emits_bind_nil; [apply emits_lift|]. intros a.
  set (sc := if (0 <? i)%nat then reuse_variables (ls_scope ls) else ls_scope ls).
  assert (Hsc : sname (ls_scope ls) = sname sc) by (symmetry; apply step_scope_sname).
  rewrite (step_requests_sname _ _ _ _ _ Hsc). unfold step_requests.
  apply emits_bind; [apply emits_call_layer|]. intros x.
  apply emits_bind; [apply emits_call_layer|]. intros [cell_output state].
  set (sc_attn := if (i =? 0)%nat && initial_state_attention
                  then variable_scope sc (inr sc) (Some true) else sc).
  assert (Hat : sname sc = sname sc_attn) by (symmetry; apply attention_scope_sname).
  rewrite (attention_requests_sname _ _ "Attention_Query_" _ _ Hat),
    (attention_requests_sname _ _ "Attention_" _ _ Hat).
  apply emits_bind; [apply emits_attention_query|]. intros attns_query.
  apply emits_bind; [apply emits_attention|]. intros attns_state.
  apply emits_bind_last; [apply emits_call_layer|]. intros output. apply emits_ret.
Qed.

Lemma step_body_ok i inp ls st ls' inp' a d x st' :
  step_body' i inp ls st = (Ok (ls', (inp', a, d, x)), st') ->
  inp' = effective_input loop_function (ls_prev ls) i inp /\
  input_size_known inp' /\
  item (ls_attns_state ls) 0 = Ok a /\
  d = distraction a (ls_prev_attn ls) (read theta gate_weight) (read theta gate_bias) /\
  (exists vs m, x = layer_apply linear_layer (map (read theta) vs) ([inp'; d], m, true)) /\
  ls_scope ls' = (if (0 <? i)%nat then reuse_variables (ls_scope ls) else ls_scope ls) /\
  ls_prev_attn ls' = Some d /\
  ls_history ls' = ls_history ls /\
  (exists output, ls_outputs ls' = ls_outputs ls ++ [output]).
Proof.
  unfold step_body. intros H.
  apply bind_ok in H. destruct H as (dims & st1 & Hd & H). injection Hd as Hd <-.
  apply bind_ok in H. destruct H as (sz & st1 & Hs & H). injection Hs as Hs <-.
  destruct sz as [input_size|]; [|discriminate].
  apply bind_ok in H. destruct H as (a0 & st1 & Ha & H). injection Ha as Ha <-.
  apply bind_ok in H. destruct H as (x0 & st1 & Hx & H).
  apply bind_ok in H. destruct H as ([cell_output state] & st2 & _ & H).
  apply bind_ok in H. destruct H as (attns_query & st3 & _ & H).
  apply bind_ok in H. destruct H as (attns_state & st4 & _ & H).
  apply bind_ok in H. destruct H as (output & st5 & _ & H).
  injection H as <- <- <- <- <- _.
  apply call_layer_ok in Hx. destruct Hx as (vs & Hx).
  repeat split; eauto using input_size_known_inv.
Qed.

(** The check of lines 378-380. *)
Lemma step_body_unknown_size i inp ls st :
  ~ input_size_known (effective_input loop_function (ls_prev ls) i inp) ->
  exists v, step_body' i inp ls st = (Raise (ValueError v), st).
Proof.
  intros Hn. unfold step_body.
  destruct (input_size_unknown_check _ Hn) as [Hw|(dims & Hw & Hi)].
  - exists RankMismatch. apply lift_bind_raise, Hw.
  - exists InputSizeUnknown. rewrite (lift_bind _ _ _ Hw), (lift_bind _ _ _ Hi). reflexivity.
Qed.

Lemma decoder_step_ok i inp ls st ls' st' :
  decoder_step' i inp ls st = (Ok ls', st') ->
  exists r,
    ls_history ls' = ls_history ls ++ [r] /\
    ls_scope ls' = (if (0 <? i)%nat then reuse_variables (ls_scope ls) else ls_scope ls) /\
    sr_reuse r = sreuse (ls_scope ls') /\
    sr_prev_attn r = ls_prev_attn ls /\
    ls_prev_attn ls' = Some (sr_distract_output r) /\
    sr_inp r = effective_input loop_function (ls_prev ls) i inp /\
    item (ls_attns_state ls) 0 = Ok (sr_a r) /\
    step_recorded theta linear_layer gate_weight gate_bias
      (step_requests linear_layer cell (num_heads env) (ls_scope ls)) r /\
    trace_in st' (sr_variables r) /\
    store_le st st' /\
    length (ls_outputs ls') = S (length (ls_outputs ls)).
Proof.
  unfold decoder_step. intros H.
  apply bind_ok in H. destruct H as ([[ls1 [[[inp' a] d] x]] used] & st1 & Hl & H).
  injection H as <- <-.
  assert (Hs : sound (step_body' i inp ls) (fun _ => True)).
  { apply sound_step_body; [intros; exact I | right; exact I]. }
  destruct (listen_segment _ _ _ _ _ _ Hs (emits_step_body i inp ls) Hl) as (Hn & Hin).
  destruct (sound_listen _ _ Hs _ _ _ Hl) as (Hle & _ & _).
  destruct (listen_inv _ _ _ _ Hl) as (r1 & st2 & Hb & _ & Hr).
  destruct r1 as [[ls2 [[[inp2 a2] d2] x2]]|e]; [|discriminate].
  injection Hr as <- <- <- <- <- _.
  destruct (step_body_ok _ _ _ _ _ _ _ _ _ _ Hb)
    as (Hi & Hk & Ha & Hd & Hx & Hsc & Hp & Hh & (output & Ho)).
  eexists. cbn [ls_history ls_scope ls_prev_attn ls_outputs sr_reuse sr_prev_attn
                sr_distract_output sr_inp sr_a sr_variables].
  split; [reflexivity|]. split; [exact Hsc|]. split; [reflexivity|].
  split; [reflexivity|]. split; [exact Hp|]. split; [exact Hi|]. split; [exact Ha|].
  split.
  { unfold step_recorded. cbn. repeat split; assumption. }
  split; [exact Hin|]. split; [exact Hle|].
  rewrite Ho, length_app. cbn. lia.
Qed.

(** The step raises [ValueError] when the size of its input is not known. *)
Lemma decoder_step_unknown_size i inp ls st :
  ~ input_size_known (effective_input loop_function (ls_prev ls) i inp) ->
  exists v st', decoder_step' i inp ls st = (Raise (ValueError v), st').
Proof.
  intros Hn. unfold decoder_step.
  destruct (step_body_unknown_size i inp ls (Store (vars st) (next_id st) []) Hn)
    as (v & Hv).
  exists v. eexists. unfold mbind, M_bind, listen. rewrite Hv. reflexivity.
Qed.

Lemma sound_decoder_step (E : exn -> Prop) i inp ls :
  (forall e, library_error e -> E e) ->
  input_size_known (effective_input loop_function (ls_prev ls) i inp)
  \/ E (ValueError InputSizeUnknown) ->
  sound (decoder_step' i inp ls) E.
Proof.
  intros HE Hk. unfold decoder_step. apply sound_bind.
  - apply sound_listen, sound_step_body; assumption.
  - intros [[ls1 [[[inp' a] d] x]] used]. apply sound_ret.
Qed.

(** *** The loop over the decoder inputs *)

Lemma decoder_loop_app step inputs1 inputs2 : forall i ls st,
  decoder_loop step i (inputs1 ++ inputs2) ls st
  = (ls' ← decoder_loop step i inputs1 ls;
     decoder_loop step (i + length inputs1) inputs2 ls') st.
Proof.
  induction inputs1 as [|inp rest IH]; intros i ls st; cbn [decoder_loop app length].
  - rewrite Nat.add_0_r. reflexivity.
  - unfold mbind, M_bind in *.
    destruct (step i inp ls st) as [[ls1|e] st1]; [|reflexivity].
    rewrite IH, <- Nat.add_succ_comm. reflexivity.
Qed.

Lemma decoder_loop_ok inputs : forall i ls st ls' st',
  decoder_loop decoder_step' i inputs ls st = (Ok ls', st') ->
  exists new,
    ls_history ls' = ls_history ls ++ new /\
    length new = length inputs /\
    sname (ls_scope ls') = sname (ls_scope ls) /\
    attn_chain (ls_prev_attn ls) new /\
    Forall (step_recorded theta linear_layer gate_weight gate_bias
              (step_requests linear_layer cell (num_heads env) (ls_scope ls))) new /\
    Forall (fun r => trace_in st' (sr_variables r)) new /\
    (forall k r, new !! k = Some r -> (0 < i + k)%nat -> sr_reuse r = true) /\
    store_le st st' /\
    length (ls_outputs ls') = (length (ls_outputs ls) + length inputs)%nat.
Proof.
  induction inputs as [|inp rest IH]; intros i ls st ls' st' H; cbn [decoder_loop] in H.
  - injection H as <- <-. exists []. rewrite app_nil_r. cbn.
    repeat split; auto using store_le_refl. intros k r Hk. discriminate.
  - apply bind_ok in H. destruct H as (ls1 & st1 & Hstep & Hloop).
    destruct (decoder_step_ok _ _ _ _ _ _ Hstep)
      as (r & Hh & Hsc & Hre & Hpa & Hpa' & _ & _ & Hrec & Hin & Hle & Hout).
    destruct (IH _ _ _ _ _ Hloop)
      as (new & Hh' & Hlen & Hsn & Hchain & Hrecs & Hins & Hreuse & Hle' & Hout').
    assert (Hsn1 : sname (ls_scope ls1) = sname (ls_scope ls)).
    { rewrite Hsc. apply step_scope_sname. }
    exists (r :: new). repeat split.
    + rewrite Hh', Hh, <- app_assoc. reflexivity.
    + cbn. rewrite Hlen. reflexivity.
    + rewrite Hsn. exact Hsn1.
    + exact Hpa.
    + rewrite <- Hpa'. exact Hchain.
    + constructor; [exact Hrec|].
      rewrite <- (step_requests_sname _ _ _ _ _ Hsn1). exact Hrecs.
    + constructor; [eapply trace_in_le; eassumption | exact Hins].
    + intros [|k] r' Hk Hpos.
      * injection Hk as <-. rewrite Hre, Hsc.
        destruct (0 <? i)%nat eqn:Hi; [reflexivity|].
        apply Nat.ltb_ge in Hi. lia.
      * apply (Hreuse k r' Hk). lia.
    + eapply store_le_trans; eassumption.
    + rewrite Hout', Hout. cbn. lia.
Qed.

(** *** What a step reads, and what it leaves to the next one *)




Lemma effective_input_known prev i inp :
  input_size_known inp ->
  (forall f, loop_function = Some f -> forall prev i, input_size_known (f prev i)) ->
  input_size_known (effective_input loop_function prev i inp).
Proof.
  intros Hk Hf. unfold effective_input.
  destruct loop_function as [f|]; [|exact Hk].
  destruct prev as [prev|]; [|exact Hk]. apply (Hf f eq_refl).
Qed.

Lemma sound_decoder_loop (E : exn -> Prop) inputs : forall i ls,
  (forall e, library_error e -> E e) ->
  (Forall input_size_known inputs /\
   forall f, loop_function = Some f -> forall prev i, input_size_known (f prev i))
  \/ E (ValueError InputSizeUnknown) ->
  sound (decoder_loop decoder_step' i inputs ls) E.
Proof.
  induction inputs as [|inp rest IH]; intros i ls HE Hk; cbn [decoder_loop].
  - apply sound_ret.
  - apply sound_bind.
    + apply sound_decoder_step; [exact HE|].
      destruct Hk as [[Hall Hf]|HEv]; [left|right; exact HEv].
      apply effective_input_known; [exact (Forall_inv Hall) | exact Hf].
    + intros ls1. apply IH; [exact HE|].
      destruct Hk as [[Hall Hf]|HEv]; [left|right; exact HEv].
      split; [exact (Forall_inv_tail Hall) | exact Hf].
Qed.

End StepEffects.

(** ** The set-up of the decoder *)

Lemma try_except_ok {A} (body handler : M A) st a st' :
  try_except_ValueError body handler st = (Ok a, st') ->
  body st = (Ok a, st') \/
  exists v st1, body st = (Raise (ValueError v), st1) /\ handler st1 = (Ok a, st').
Proof.
  unfold try_except_ValueError. destruct (body st) as [[a0|[v| | |]] st1]; intros H;
    try discriminate; [left; exact H | right; eauto].
Qed.

Section SetupEffects.

Variable theta : nat -> list nat -> R.
Variable linear_layer : layer linear_args (tensor R).
Variables (scope : var_scope) (input0 initial_state : tensor R).
Variables (attention_states attention_states_query : tensor R) (cell : rnn_cell).
Variables (heads attn_size_state : nat) (initial_state_attention : bool).

#[local] Abbreviation decoder_setup' :=
  (decoder_setup theta linear_layer scope input0 initial_state attention_states
                 attention_states_query cell heads attn_size_state
                 initial_state_attention).

Lemma gate_variables_ok sc n st gw gb st' :
  (gate_weight ← get_variable sc "gate_weight" [Some n; Some n];
   gate_bias ← get_variable sc "gate_bias" [Some n];
   mret (gate_weight, gate_bias)) st = (Ok (gw, gb), st') ->
  vshape gw = [n; n] /\ vshape gb = [n].
Proof.
  intros H. apply bind_ok in H. destruct H as (w & st1 & Hw & H).
  apply bind_ok in H. destruct H as (b & st2 & Hb & H). injection H as <- <- _.
  split.
  - apply (get_variable_shape sc "gate_weight" [n; n] _ _ _ Hw).
  - apply (get_variable_shape sc "gate_bias" [n] _ _ _ Hb).
Qed.

Lemma sound_gate_variables sc n E :
  (forall e, library_error e -> E e) ->
  sound (gate_weight ← get_variable sc "gate_weight" [Some n; Some n];
         gate_bias ← get_variable sc "gate_bias" [Some n];
         mret (gate_weight, gate_bias)) E.
Proof.
  intros HE. apply sound_bind; [apply sound_get_variable_E, HE|]. intros w.
  apply sound_bind; [apply sound_get_variable_E, HE|]. intros b. apply sound_ret.
Qed.

Lemma sound_reshape_size d E : (forall e, library_error e -> E e) -> sound (reshape_size d) E.
Proof.
  intros HE. destruct d; [apply sound_ret|]. apply sound_raise, HE.
  do 3 right. left. reflexivity.
Qed.

Lemma sound_heads E sc (hidden : tensor R) (kname vname : nat -> string) kshape vshape :
  (forall e, library_error e -> E e) ->
  sound (mapM (fun a =>
                 k ← get_variable sc (kname a) kshape;
                 hf ← lift (conv2d hidden (read theta k));
                 v ← get_variable sc (vname a) vshape;
                 mret (hf, v)) (seq 0 heads)) E.
Proof.
  intros HE. apply sound_mapM. intros a.
  apply sound_bind; [apply sound_get_variable_E, HE|]. intros k.
  apply sound_bind.
  { apply sound_lift. intros e H. rewrite (conv2d_error _ _ _ H).
    apply HE. do 4 right. left. reflexivity. }
  intros hf. apply sound_bind; [apply sound_get_variable_E, HE|]. intros v.
  apply sound_ret.
Qed.

Lemma shape_item_error {A} (t : tensor A) k e :
  shape_item t k = Raise e -> e = ValueError SliceOutOfBounds.
Proof. unfold shape_item. destruct (k <? _)%nat; [discriminate|]. congruence. Qed.

Lemma shape_item_ok {A} (t : tensor A) k n : shape_item t k = Ok n -> n = shape_dim t k.
Proof. unfold shape_item. destruct (k <? _)%nat; [|discriminate]. congruence. Qed.


Lemma sound_shape_item {A} (t : tensor A) k E :
  (forall e, library_error e -> E e) -> sound (lift (shape_item t k)) E.
Proof.
  intros HE. apply sound_lift. intros e H. rewrite (shape_item_error _ _ _ H).
  apply HE. do 6 right. reflexivity.
Qed.

Lemma sound_static_or_shape {A} d (t : tensor A) k E :
  (forall e, library_error e -> E e) -> sound (lift (static_or_shape d t k)) E.
Proof.
  intros HE. destruct d as [n|]; [|apply sound_shape_item, HE].
  apply sound_lift. discriminate.
Qed.

Lemma sound_decoder_setup E :
  (forall e, library_error e -> E e) -> sound decoder_setup' E.
Proof.
  intros HE. unfold decoder_setup.
  apply sound_bind; [apply sound_shape_item, HE|]. intros batch_size.
  apply sound_bind; [apply sound_dimension, HE|]. intros attn_length_state.
  apply sound_bind; [apply sound_dimension, HE|]. intros attn_length_query.
  apply sound_bind; [apply sound_dimension, HE|]. intros dim_1.
  apply sound_bind; [apply sound_get_variable_E, HE|]. intros W.
  apply sound_bind; [apply sound_get_variable_E, HE|]. intros B.
  apply sound_bind; [apply sound_static_or_shape, HE|]. intros len_state.
  apply sound_bind; [apply sound_static_or_shape, HE|]. intros len_query.
  apply sound_bind; [apply sound_dimension, HE|]. intros q.
  apply sound_bind; [apply sound_reshape_size, HE|]. intros attn_size_query.
  apply sound_bind.
  { apply (sound_try_except _ _ E E); [apply sound_gate_variables, HE
                                      | apply sound_gate_variables, HE | auto]. }
  intros [gw gb].
  apply sound_bind; [apply sound_heads, HE|]. intros state_heads.
  apply sound_bind; [apply sound_heads, HE|]. intros query_heads.
  apply sound_bind.
  { destruct initial_state_attention; [|apply sound_ret].
    apply sound_bind; [apply sound_attention_query, HE|]. intros attns_query.
    apply sound_attention, HE. }
  intros attns_state. apply sound_ret.
Qed.

Lemma decoder_setup_ok st env gw gb ls st' :
  decoder_setup' st = (Ok (env, gw, gb, ls), st') ->
  ls_scope ls = scope /\ ls_prev ls = None /\ ls_prev_attn ls = None /\
  ls_outputs ls = [] /\ ls_history ls = [] /\
  num_heads env = heads /\
  vshape gw = [attn_size_state; attn_size_state] /\ vshape gb = [attn_size_state] /\
  store_le st st'.
Proof.
  intros H.
  assert (Hle : store_le st st').
  { assert (Hs : sound decoder_setup' (fun _ => True)) by (apply sound_decoder_setup; auto).
    apply (Hs _ _ _ H). }
  unfold decoder_setup in H.
  apply bind_ok in H. destruct H as (batch_size & stb & Hbatch & H).
  injection Hbatch as Hbatch _. apply shape_item_ok in Hbatch. subst batch_size.
  apply bind_ok in H. destruct H as (attn_length_state & st1 & _ & H).
  apply bind_ok in H. destruct H as (attn_length_query & st2 & _ & H).
  apply bind_ok in H. destruct H as (dim_1 & st3 & _ & H).
  apply bind_ok in H. destruct H as (W & st4 & _ & H).
  apply bind_ok in H. destruct H as (B & st5 & _ & H).
  apply bind_ok in H. destruct H as (len_state & stl & Hlen_state & H).
  apply bind_ok in H. destruct H as (len_query & stq & Hlen_query & H).
  apply bind_ok in H. destruct H as (q & st6 & _ & H).
  apply bind_ok in H. destruct H as (attn_size_query & st7 & _ & H).
  apply bind_ok in H. destruct H as ([gw' gb'] & st8 & Hgate & H).
  apply bind_ok in H. destruct H as (state_heads & st9 & _ & H).
  apply bind_ok in H. destruct H as (query_heads & st10 & _ & H).
  apply bind_ok in H. destruct H as (attns_state & st11 & _ & H).
  injection H as <- <- <- <- _.
  assert (Hshape : vshape gw' = [attn_size_state; attn_size_state]
                   /\ vshape gb' = [attn_size_state]).
  { apply try_except_ok in Hgate.
    destruct Hgate as [Hg|(v & st1' & _ & Hg)]; eapply gate_variables_ok; exact Hg. }
  cbn. destruct Hshape. repeat split; assumption.
Qed.


End SetupEffects.

(** ** The whole decoder *)

Lemma trace_in_unique st seg1 seg2 :
  trace_in st seg1 -> trace_in st seg2 -> map fst seg1 = map fst seg2 -> seg1 = seg2.
Proof.
  unfold trace_in. revert seg2.
  induction seg1 as [|[n1 v1] seg1 IH]; intros [|[n2 v2] seg2] H1 H2 Hn;
    try discriminate; [reflexivity|].
  cbn in Hn. injection Hn as -> Hn.
  apply Forall_cons in H1. destruct H1 as [H1 H1'].
  apply Forall_cons in H2. destruct H2 as [H2 H2'].
  cbn in H1, H2. rewrite H1 in H2. injection H2 as ->.
  f_equal. apply IH; assumption.
Qed.

Section DecoderRun.

Variable theta : nat -> list nat -> R.
Variable linear_layer : layer linear_args (tensor R).
Variables (cur : var_scope) (decoder_inputs : list (tensor R)).
Variables (initial_state distract_initial_state : tensor R).
Variables (attention_states attention_states_query : tensor R).
Variables (cell distraction_cell : rnn_cell) (output_size : option nat).
Variables (heads : Z) (loop_function : option loop_fn).
Variables (scope : option (string + var_scope)) (initial_state_attention : bool).

#[local] Abbreviation decoder_run' :=
  (decoder_run theta linear_layer cur decoder_inputs initial_state
               distract_initial_state attention_states attention_states_query
               cell distraction_cell output_size heads loop_function scope
               initial_state_attention).

#[local] Abbreviation decoder_scope :=
  (variable_scope cur (default (inl "dynamic_simple_soft_distraction_decoder") scope) None).

Lemma decoder_run_ok st ls st' :
  decoder_run' st = (Ok ls, st') ->
  exists input0 rest n env gw gb ls0 st0,
    decoder_inputs = input0 :: rest /\
    (1 <= heads)%Z /\
    dimension (tstatic attention_states) 2 = Ok (Some n) /\
    decoder_setup theta linear_layer decoder_scope input0 initial_state attention_states
                  attention_states_query cell (Z.to_nat heads) n initial_state_attention st
    = (Ok (env, gw, gb, ls0), st0) /\
    decoder_loop (decoder_step theta linear_layer env gw gb cell
                               (default (output_size_of cell) output_size)
                               loop_function initial_state_attention)
                 0 decoder_inputs ls0 st0 = (Ok ls, st').
Proof.
  unfold decoder_run. destruct decoder_inputs as [|input0 rest] eqn:Hin; [discriminate|].
  destruct (heads <? 1)%Z eqn:Hh; [discriminate|]. apply Z.ltb_ge in Hh.
  intros H. apply bind_ok in H. destruct H as (d & st1 & Hd & H). injection Hd as Hd <-.
  destruct d as [n|]; [|discriminate].
  apply bind_ok in H. destruct H as ([[[env gw] gb] ls0] & st0 & Hs & H).
  exists input0, rest, n, env, gw, gb, ls0, st0. auto.
Qed.

Lemma decoder_run_history st ls st' :
  decoder_run' st = (Ok ls, st') ->
  exists n gw gb,
    dimension (tstatic attention_states) 2 = Ok (Some n) /\
    vshape gw = [n; n] /\ vshape gb = [n] /\
    length (ls_history ls) = length decoder_inputs /\
    length (ls_outputs ls) = length decoder_inputs /\
    attn_chain None (ls_history ls) /\
    Forall (step_recorded theta linear_layer gw gb
              (step_requests linear_layer cell (Z.to_nat heads) decoder_scope))
           (ls_history ls) /\
    Forall (fun r => trace_in st' (sr_variables r)) (ls_history ls) /\
    (forall k r, ls_history ls !! k = Some r -> (0 < k)%nat -> sr_reuse r = true).
Proof.
  intros H.
  destruct (decoder_run_ok _ _ _ H)
    as (input0 & rest & n & env & gw & gb & ls0 & st0 & Hin & Hh & Hd & Hs & Hl).
  destruct (decoder_setup_ok _ _ _ _ _ _ _ _ _ _ _ _ _ _ _ _ _ Hs)
    as (Hsc & Hp & Hpa & Ho & Hhi & Hn & Hgw & Hgb & _).
  destruct (decoder_loop_ok _ _ _ _ _ _ _ _ _ _ _ _ _ _ _ Hl)
    as (new & Hh' & Hlen & _ & Hchain & Hrecs & Hins & Hreuse & _ & Hout).
  rewrite Hhi in Hh'. cbn in Hh'. rewrite Ho in Hout. cbn in Hout.
  rewrite Hpa in Hchain. rewrite Hn, Hsc in Hrecs.
  exists n, gw, gb. rewrite Hh'. repeat split; try assumption.
Qed.

End DecoderRun.

(** ** Variable sharing between the decoding steps *)

(** C6: in a call of [dynamic_simple_soft_distraction_decoder] that returns,
    there is one record per decoder input; every step after the first runs
    with [reuse] set and gets from [get_variable], under the same names,
    exactly the variables that the first step got (the parameters of
    [linear], of the cell, of the attention projections and of the output
    projection, in the order of [step_requests]); they are the variables
    the store holds under these names when the call returns; and every step
    computes its gate from the same two gate variables. *)
Theorem decoder_steps_share_variables
    theta linear_layer cur decoder_inputs initial_state distract_initial_state
    attention_states attention_states_query cell distraction_cell output_size
    heads loop_function scope initial_state_attention st ls st' :
  decoder_run theta linear_layer cur decoder_inputs initial_state
              distract_initial_state attention_states attention_states_query
              cell distraction_cell output_size heads loop_function scope
              initial_state_attention st = (Ok ls, st') ->
  length (ls_history ls) = length decoder_inputs /\
  exists r0 rest gate_weight gate_bias,
    ls_history ls = r0 :: rest /\
    map fst (sr_variables r0)
    = step_requests linear_layer cell (Z.to_nat heads)
        (variable_scope cur
           (default (inl "dynamic_simple_soft_distraction_decoder") scope) None) /\
    Forall (fun entry => vars st' !! entry.1 = Some entry.2) (sr_variables r0) /\
    Forall (fun r => sr_reuse r = true /\ sr_variables r = sr_variables r0) rest /\
    Forall (fun r => sr_distract_output r
                     = distraction (sr_a r) (sr_prev_attn r)
                         (read theta gate_weight) (read theta gate_bias))
           (r0 :: rest).
Proof.
  intros H.
  destruct (decoder_run_history _ _ _ _ _ _ _ _ _ _ _ _ _ _ _ _ _ _ H)
    as (n & gw & gb & _ & _ & _ & Hlen & _ & _ & Hrecs & Hins & Hreuse).
  split; [exact Hlen|].
  destruct (decoder_run_ok _ _ _ _ _ _ _ _ _ _ _ _ _ _ _ _ _ _ H)
    as (input0 & inputs & _ & _ & _ & _ & _ & _ & Hin & _).
  destruct (ls_history ls) as [|r0 rest] eqn:Hh.
  { rewrite Hin in Hlen. discriminate. }
  exists r0, rest, gw, gb. split; [reflexivity|].
  pose proof (Forall_inv Hrecs) as (_ & _ & _ & Hn0).
  pose proof (Forall_inv Hins) as Hin0.
  split; [exact Hn0|]. split; [exact Hin0|]. split.
  - apply List.Forall_forall. intros r Hr.
    apply (In_nth_error rest r) in Hr. destruct Hr as (k & Hk). split.
    + apply (Hreuse (S k) r); [|lia]. cbn. rewrite <- Hk.
      clear. revert k. induction rest as [|x rest IH]; intros [|k]; cbn; auto.
    + apply nth_error_In in Hk.
      pose proof (proj1 (List.Forall_forall _ _) (Forall_inv_tail Hrecs) r Hk)
        as (_ & _ & _ & Hn).
      pose proof (proj1 (List.Forall_forall _ _) (Forall_inv_tail Hins) r Hk) as Hinr.
      apply (trace_in_unique st'); [exact Hinr | exact Hin0 | congruence].
  - eapply Forall_impl; [exact Hrecs|]. intros r (_ & Hd & _). exact Hd.
Qed.

Lemma example_run_returns :
  is_ok (example_run [example_input; example_input] empty_store).1 = true.
Proof. vm_compute. reflexivity. Qed.

Lemma decoder_steps_share_variables_witness :
  exists ls st',
    example_run [example_input; example_input] empty_store = (Ok ls, st') /\
    length (ls_history ls) = 2%nat /\
    exists r0 rest gate_weight gate_bias,
      ls_history ls = r0 :: rest /\
      map fst (sr_variables r0)
      = step_requests example_linear example_cell 1
          (Scope "dynamic_simple_soft_distraction_decoder" false) /\
      Forall (fun entry => vars st' !! entry.1 = Some entry.2) (sr_variables r0) /\
      Forall (fun r => sr_reuse r = true /\ sr_variables r = sr_variables r0) rest /\
      Forall (fun r => sr_distract_output r
                       = distraction (sr_a r) (sr_prev_attn r)
                           (read example_theta gate_weight)
                           (read example_theta gate_bias))
             (r0 :: rest).
Proof.
  pose proof example_run_returns as Hok.
  destruct (example_run [example_input; example_input] empty_store) as [[ls|e] st'] eqn:H;
    [|discriminate Hok].
  exists ls, st'. split; [reflexivity|].
  exact (decoder_steps_share_variables _ _ _ _ _ _ _ _ _ _ _ _ _ _ _ _ _ _ H).
Defined.

(** ** The distraction gate inside the decoder *)

Lemma attn_chain_head prev history r :
  attn_chain prev history -> history !! 0%nat = Some r -> sr_prev_attn r = prev.
Proof. destruct history as [|r0 rest]; [discriminate|]. intros [H _] [= <-]. exact H. Qed.

Lemma attn_chain_next history : forall prev i r r',
  attn_chain prev history ->
  history !! i = Some r -> history !! S i = Some r' ->
  sr_prev_attn r' = Some (sr_distract_output r).
Proof.
  induction history as [|r0 rest IH]; intros prev i r r' Hc Hi Hi'; [discriminate|].
  destruct Hc as [_ Hc]. destruct i as [|i].
  - injection Hi as <-. apply (attn_chain_head _ rest r' Hc). exact Hi'.
  - apply (IH _ i r r' Hc); assumption.
Qed.




Lemma attention_shapes_are_ok s ls :
  attention_shapes_are s (Ok ls) = true ->
  Forall (fun r => tshape (sr_a r) = s /\ tshape (sr_distract_output r) = s)
         (ls_history ls).
Proof.
  cbn [attention_shapes_are]. intros H. apply List.Forall_forall. intros r Hr.
  apply (proj1 (forallb_forall _ _) H) in Hr. apply andb_prop in Hr.
  destruct Hr as [Ha Hd].
  split; [exact (bool_decide_eq_true_1 _ Ha) | exact (bool_decide_eq_true_1 _ Hd)].
Qed.

Lemma example_run_shapes :
  attention_shapes_are [1; 2]%nat
    (example_run [example_input; example_input] empty_store).1 = true.
Proof. vm_compute. reflexivity. Qed.

(** ** The argument checks of the decoder *)

(** X1: [dynamic_simple_soft_distraction_decoder] raises [ValueError], and
    leaves the variable store as it was, when [decoder_inputs] is empty,
    when [num_heads < 1], and when [attention_states.get_shape()[2].value]
    is [None]. *)
Theorem decoder_argument_checks
    theta linear_layer cur decoder_inputs initial_state distract_initial_state
    attention_states attention_states_query cell distraction_cell output_size
    heads loop_function scope initial_state_attention st :
  let run := decoder_run theta linear_layer cur decoder_inputs initial_state
               distract_initial_state attention_states attention_states_query
               cell distraction_cell output_size heads loop_function scope
               initial_state_attention in
  (decoder_inputs = [] -> run st = (Raise (ValueError NoInputs), st)) /\
  ((heads < 1)%Z -> exists v, run st = (Raise (ValueError v), st)) /\
  (dimension (tstatic attention_states) 2 = Ok None ->
   exists v, run st = (Raise (ValueError v), st)).
Proof.
  intros run. subst run. repeat apply conj.
  - intros ->. reflexivity.
  - intros Hh. destruct decoder_inputs as [|input0 rest]; [exists NoInputs; reflexivity|].
    exists NoHeads. unfold decoder_run. rewrite (proj2 (Z.ltb_lt _ _) Hh). reflexivity.
  - intros Hd. destruct decoder_inputs as [|input0 rest]; [exists NoInputs; reflexivity|].
    unfold decoder_run. destruct (heads <? 1)%Z; [exists NoHeads; reflexivity|].
    exists AttnShapeUnknown. rewrite (lift_bind _ _ _ Hd). reflexivity.
Qed.

(** X2: the loop of the decoder raises [ValueError] at a step whose input
    (the decoder input, or the result of [loop_function] once there is a
    previous output) has no size that [get_shape().with_rank(2)[1]] can
    give; so in a call that returns there is one step per decoder input and
    the input of every step has a known size. *)
Theorem decoder_input_size_check
    theta linear_layer cur decoder_inputs initial_state distract_initial_state
    attention_states attention_states_query cell distraction_cell output_size
    heads loop_function scope initial_state_attention st :
  (forall env gate_weight gate_bias size i inp rest ls,
     ~ input_size_known (effective_input loop_function (ls_prev ls) i inp) ->
     exists v st',
       decoder_loop (decoder_step theta linear_layer env gate_weight gate_bias cell size
                                  loop_function initial_state_attention)
                    i (inp :: rest) ls st = (Raise (ValueError v), st')) /\
  (forall ls st',
     decoder_run theta linear_layer cur decoder_inputs initial_state
                 distract_initial_state attention_states attention_states_query
                 cell distraction_cell output_size heads loop_function scope
                 initial_state_attention st = (Ok ls, st') ->
     length (ls_history ls) = length decoder_inputs /\
     Forall (fun r => input_size_known (sr_inp r)) (ls_history ls)).
Proof.
  split.
  - intros env gw gb size i inp rest ls Hn.
    destruct (decoder_step_unknown_size theta linear_layer env gw gb cell size
                loop_function initial_state_attention i inp ls st Hn) as (v & st' & Hv).
    exists v, st'. cbn [decoder_loop]. unfold mbind, M_bind. rewrite Hv. reflexivity.
  - intros ls st' H.
    destruct (decoder_run_history _ _ _ _ _ _ _ _ _ _ _ _ _ _ _ _ _ _ H)
      as (n & gw & gb & _ & _ & _ & Hlen & _ & _ & Hrecs & _).
    split; [exact Hlen|]. eapply Forall_impl; [exact Hrecs|].
    intros r (Hk & _). exact Hk.
Qed.

Lemma sound_lift_bind {A B} (x : result A) (f : A -> M B) (E : exn -> Prop) :
  (forall e, x = Raise e -> E e) ->
  (forall a, x = Ok a -> sound (f a) E) ->
  sound (lift x ≫= f) E.
Proof.
  intros He Hf. destruct x as [a|e].
  - rewrite (lift_bind (Ok a) a) by reflexivity. apply Hf. reflexivity.
  - intros st r st' H. rewrite (lift_bind_raise (Raise e) e) in H by reflexivity.
    injection H as <- <-. split; [apply store_le_refl|].
    split; [exists []; split; [symmetry; apply app_nil_r | constructor]|].
    apply He. reflexivity.
Qed.

Lemma sound_decoder_run (E : exn -> Prop)
    theta linear_layer cur decoder_inputs initial_state distract_initial_state
    attention_states attention_states_query cell distraction_cell output_size
    heads loop_function scope initial_state_attention :
  (forall e, library_error e -> E e) ->
  (decoder_inputs <> [] /\ (1 <= heads)%Z /\
   dimension (tstatic attention_states) 2 <> Ok None /\
   Forall input_size_known decoder_inputs /\
   (forall f, loop_function = Some f -> forall prev i, input_size_known (f prev i)))
  \/ (forall e, own_check e -> E e) ->
  sound (decoder_run theta linear_layer cur decoder_inputs initial_state
           distract_initial_state attention_states attention_states_query
           cell distraction_cell output_size heads loop_function scope
           initial_state_attention) E.
Proof.
  intros HE Hc. unfold decoder_run.
  destruct decoder_inputs as [|input0 rest].
  { apply sound_raise. destruct Hc as [(Hne & _)|Hown]; [contradiction|].
    apply Hown. left. reflexivity. }
  destruct (heads <? 1)%Z eqn:Hlt.
  { apply sound_raise. apply Z.ltb_lt in Hlt. destruct Hc as [(_ & Hh & _)|Hown]; [lia|].
    apply Hown. right. left. reflexivity. }
  apply sound_lift_bind.
  { intros e He. apply HE. rewrite (dimension_error _ _ _ He). right. left. reflexivity. }
  intros [n|] Hdim.
  - apply sound_bind; [apply sound_decoder_setup, HE|].
    intros [[[env gw] gb] ls0].
    apply sound_decoder_loop; [exact HE|].
    destruct Hc as [(_ & _ & _ & Hall & Hf)|Hown]; [left; split; assumption|].
    right. apply Hown. do 3 right. reflexivity.
  - apply sound_raise. destruct Hc as [(_ & _ & Hd & _)|Hown]; [contradiction|].
    apply Hown. do 2 right. left. reflexivity.
Qed.

(** X3: when [decoder_inputs] is not empty, [num_heads >= 1], the third
    dimension of [attention_states] is statically known and every step
    input (decoder inputs and results of [loop_function]) has a statically
    known size, no exception of the decoder comes from one of its four
    [raise ValueError] statements. *)
Theorem decoder_own_checks_silent
    theta linear_layer cur decoder_inputs initial_state distract_initial_state
    attention_states attention_states_query cell distraction_cell output_size
    heads loop_function scope initial_state_attention st e st' :
  decoder_inputs <> [] -> (1 <= heads)%Z ->
  dimension (tstatic attention_states) 2 <> Ok None ->
  Forall input_size_known decoder_inputs ->
  (forall f, loop_function = Some f -> forall prev i, input_size_known (f prev i)) ->
  decoder_run theta linear_layer cur decoder_inputs initial_state
              distract_initial_state attention_states attention_states_query
              cell distraction_cell output_size heads loop_function scope
              initial_state_attention st = (Raise e, st') ->
  ~ own_check e.
Proof.
  intros Hne Hh Hd Hall Hf H.
  assert (Hs := sound_decoder_run (fun e => ~ own_check e)
                  theta linear_layer cur decoder_inputs initial_state
                  distract_initial_state attention_states attention_states_query
                  cell distraction_cell output_size heads loop_function scope
                  initial_state_attention library_not_own
                  (or_introl (conj Hne (conj Hh (conj Hd (conj Hall Hf)))))).
  apply (Hs _ _ _ H).
Qed.

(** X4: whatever the decoder does, returning or raising, every variable
    that the store held before the call is still there, unchanged, after
    it. *)
Theorem decoder_keeps_variables
    theta linear_layer cur decoder_inputs initial_state distract_initial_state
    attention_states attention_states_query cell distraction_cell output_size
    heads loop_function scope initial_state_attention st r st' name v :
  decoder_run theta linear_layer cur decoder_inputs initial_state
              distract_initial_state attention_states attention_states_query
              cell distraction_cell output_size heads loop_function scope
              initial_state_attention st = (r, st') ->
  vars st !! name = Some v -> vars st' !! name = Some v.
Proof.
  intros H.
  assert (Hs := sound_decoder_run (fun _ => True)
                  theta linear_layer cur decoder_inputs initial_state
                  distract_initial_state attention_states attention_states_query
                  cell distraction_cell output_size heads loop_function scope
                  initial_state_attention (fun _ _ => I) (or_intror (fun _ _ => I))).
  apply (Hs _ _ _ H).
Qed.

Lemma example_input_size_known : input_size_known example_input.
Proof. exists (Some 1%nat), 2%nat. reflexivity. Qed.

Lemma decoder_own_checks_silent_witness : ~ own_check (ValueError VarMissing).
Proof.
  apply (decoder_own_checks_silent example_theta example_linear (Scope "" true)
           [example_input] example_state example_state example_attention_states
           example_attention_states example_cell example_cell None 1 None None false
           empty_store (ValueError VarMissing) empty_store).
  - discriminate.
  - lia.
  - discriminate.
  - constructor; [apply example_input_size_known | constructor].
  - intros f Hf. discriminate Hf.
  - vm_compute. reflexivity.
Defined.

Lemma decoder_keeps_variables_witness :
  exists r st',
    example_run [example_input; example_input] kept_store = (r, st') /\
    vars st' !! "keep" = Some kept_variable.
Proof.
  destruct (example_run [example_input; example_input] kept_store) as [r st'] eqn:H.
  exists r, st'. split; [reflexivity|].
  apply (decoder_keeps_variables _ _ _ _ _ _ _ _ _ _ _ _ _ _ _ _ _ _ _ _ H).
  vm_compute. reflexivity.
Defined.

(** ** What the decoder returns *)

(** X5: when [dynamic_simple_soft_distraction_decoder] returns
    [(outputs, state)], [outputs] has one element for every decoder
    input, and there is at least one. *)
Theorem decoder_outputs_length
    theta linear_layer cur decoder_inputs initial_state distract_initial_state
    attention_states attention_states_query cell distraction_cell output_size
    heads loop_function scope initial_state_attention st outputs state st' :
  dynamic_simple_soft_distraction_decoder theta linear_layer cur decoder_inputs
    initial_state distract_initial_state attention_states attention_states_query
    cell distraction_cell output_size heads loop_function scope
    initial_state_attention st = (Ok (outputs, state), st') ->
  length outputs = length decoder_inputs /\ outputs <> [].
Proof.
  unfold dynamic_simple_soft_distraction_decoder. intros H.
  apply bind_ok in H. destruct H as (ls & st1 & Hrun & H). injection H as <- _ _.
  destruct (decoder_run_history _ _ _ _ _ _ _ _ _ _ _ _ _ _ _ _ _ _ Hrun)
    as (_ & _ & _ & _ & _ & _ & _ & Hlen & _).
  destruct (decoder_run_ok _ _ _ _ _ _ _ _ _ _ _ _ _ _ _ _ _ _ Hrun)
    as (input0 & inputs & _ & _ & _ & _ & _ & _ & Hin & _).
  split; [exact Hlen|]. intros Hnil. rewrite Hnil, Hin in Hlen. discriminate Hlen.
Qed.

Lemma decoder_outputs_length_witness :
  exists outputs state st',
    dynamic_simple_soft_distraction_decoder example_theta example_linear root_scope
      [example_input; example_input] example_state example_state
      example_attention_states example_attention_states example_cell example_cell
      None 1 None None false empty_store = (Ok (outputs, state), st') /\
    length outputs = 2%nat /\ outputs <> [].
Proof.
  pose proof example_run_returns as Hok.
  destruct (dynamic_simple_soft_distraction_decoder example_theta example_linear root_scope
      [example_input; example_input] example_state example_state
      example_attention_states example_attention_states example_cell example_cell
      None 1 None None false empty_store) as [[[outputs state]|e] st'] eqn:H.
  - exists outputs, state, st'. split; [reflexivity|].
    exact (decoder_outputs_length _ _ _ _ _ _ _ _ _ _ _ _ _ _ _ _ _ _ _ H).
  - exfalso. unfold dynamic_simple_soft_distraction_decoder, mbind, M_bind in H.
    unfold example_run in Hok.
    destruct (decoder_run _ _ _ _ _ _ _ _ _ _ _ _ _ _ _ _) as [[ls|e'] st1];
      [discriminate H | discriminate Hok].
Defined.

(** ** The sizes of the two attention tensors *)

Lemma resolve_shape_last n a b c q :
  nth 3 (resolve_shape n [a; b; c; Z.of_nat q]) O = q.
Proof.
  unfold resolve_shape. cbn [map nth].
  destruct (Z.of_nat q <? 0)%Z eqn:Hq; [apply Z.ltb_lt in Hq; lia|].
  apply Nat2Z.id.
Qed.

Lemma decoder_setup_sizes theta linear_layer scope input0 initial_state
    attention_states attention_states_query cell heads attn_size_state
    initial_state_attention st x st' :
  decoder_setup theta linear_layer scope input0 initial_state attention_states
                attention_states_query cell heads attn_size_state
                initial_state_attention st = (Ok x, st') ->
  (0 < heads)%nat ->
  dimension (tstatic attention_states_query) 2 = Ok (Some attn_size_state).
Proof.
  intros H Hheads. unfold decoder_setup in H.
  apply bind_ok in H. destruct H as (batch_size & stb & Hbatch & H).
  injection Hbatch as Hbatch _. apply shape_item_ok in Hbatch. subst batch_size.
  apply bind_ok in H. destruct H as (attn_length_state & st1 & _ & H).
  apply bind_ok in H. destruct H as (attn_length_query & st2 & _ & H).
  apply bind_ok in H. destruct H as (dim_1 & st3 & _ & H).
  apply bind_ok in H. destruct H as (W & st4 & _ & H).
  apply bind_ok in H. destruct H as (B & st5 & _ & H).
  apply bind_ok in H. destruct H as (len_state & stl & Hlen_state & H).
  apply bind_ok in H. destruct H as (len_query & stq & Hlen_query & H).
  apply bind_ok in H. destruct H as (q & st6 & Hq & H). injection Hq as Hq _.
  apply bind_ok in H. destruct H as (attn_size_query & st7 & Hsz & H).
  destruct q as [q|]; [|discriminate Hsz]. injection Hsz as <- _.
  apply bind_ok in H. destruct H as ([gw gb] & st8 & _ & H).
  apply bind_ok in H. destruct H as (state_heads & st9 & Hheads' & _).
  destruct heads as [|h]; [lia|]. cbn [seq mapM] in Hheads'.
  apply bind_ok in Hheads'. destruct Hheads' as (y & st10 & Hhead & _).
  apply bind_ok in Hhead. destruct Hhead as (k & st11 & Hk & Hhead).
  apply bind_ok in Hhead. destruct Hhead as (hf & st12 & Hconv & _).
  injection Hconv as Hconv _.
  apply (get_variable_shape _ _ [1; 1; attn_size_state; attn_size_state]%nat) in Hk.
  unfold conv2d in Hconv.
  destruct (nth 3 (tshape (reshape _ _)) O =? nth 2 (tshape (read theta k)) O)%nat eqn:Hd;
    [|discriminate Hconv].
  apply Nat.eqb_eq in Hd. cbn [read op_result tshape] in Hd. rewrite Hk in Hd.
  cbn [reshape tshape] in Hd. rewrite resolve_shape_last in Hd. cbn [nth] in Hd.
  rewrite Hq, Hd. reflexivity.
Qed.

(** X6: the decoder returns only when the third dimensions of
    [attention_states] and of [attention_states_query] are statically known
    and equal: [hidden_states] is reshaped with the size of the query
    tensor, and the convolution with the filter [AttnW_State_0], whose
    input depth is the size of [attention_states], refuses any other
    depth. *)
Theorem decoder_attention_sizes_agree
    theta linear_layer cur decoder_inputs initial_state distract_initial_state
    attention_states attention_states_query cell distraction_cell output_size
    heads loop_function scope initial_state_attention st ls st' :
  decoder_run theta linear_layer cur decoder_inputs initial_state
              distract_initial_state attention_states attention_states_query
              cell distraction_cell output_size heads loop_function scope
              initial_state_attention st = (Ok ls, st') ->
  exists n,
    dimension (tstatic attention_states) 2 = Ok (Some n) /\
    dimension (tstatic attention_states_query) 2 = Ok (Some n).
Proof.
  intros H.
  destruct (decoder_run_ok _ _ _ _ _ _ _ _ _ _ _ _ _ _ _ _ _ _ H)
    as (input0 & rest & n & env & gw & gb & ls0 & st0 & _ & Hh & Hd & Hs & _).
  exists n. split; [exact Hd|].
  apply (decoder_setup_sizes _ _ _ _ _ _ _ _ _ _ _ _ _ _ Hs). lia.
Qed.

Lemma decoder_attention_sizes_agree_witness :
  exists n,
    dimension (tstatic example_attention_states) 2 = Ok (Some n) /\
    dimension (tstatic example_attention_states) 2 = Ok (Some n).
Proof.
  pose proof example_run_returns as Hok.
  destruct (example_run [example_input; example_input] empty_store) as [[ls|e] st'] eqn:H;
    [|discriminate Hok].
  exact (decoder_attention_sizes_agree _ _ _ _ _ _ _ _ _ _ _ _ _ _ _ _ _ _ H).
Defined.

(** ** Calling the decoder again *)

Lemma first_variable_kept {B} sc name shape (f : variable -> M B) st b st' :
  (forall v, sound (f v) (fun _ => True)) ->
  (get_variable sc name shape ≫= f) st = (Ok b, st') ->
  exists v, vars st' !! full_name sc name = Some v.
Proof.
  intros Hf H. apply bind_ok in H. destruct H as (v & st1 & Hv & H).
  destruct (get_variable_inv _ _ _ _ _ _ Hv) as [(e & He & _)|(v' & Hv' & Hl & _)];
    [discriminate He|].
  injection Hv' as <-. exists v. apply (Hf v _ _ _ H). exact Hl.
Qed.

Lemma decoder_setup_creates theta linear_layer scope input0 initial_state
    attention_states attention_states_query cell heads attn_size_state
    initial_state_attention st x st' :
  decoder_setup theta linear_layer scope input0 initial_state attention_states
                attention_states_query cell heads attn_size_state
                initial_state_attention st = (Ok x, st') ->
  (exists b d1 d2 d3,
     shape_item input0 0 = Ok b /\
     dimension (tstatic attention_states) 1 = Ok d1 /\
     dimension (tstatic attention_states_query) 1 = Ok d2 /\
     dimension (tstatic initial_state) 1 = Ok d3) /\
  exists v, vars st' !! full_name scope "Initial_State_W" = Some v.
Proof.
  intros H. unfold decoder_setup in H.
  apply bind_ok in H. destruct H as (b & st0 & Hb & H). injection Hb as Hb <-.
  apply bind_ok in H. destruct H as (d1 & st1 & H1 & H). injection H1 as H1 <-.
  apply bind_ok in H. destruct H as (d2 & st2 & H2 & H). injection H2 as H2 <-.
  apply bind_ok in H. destruct H as (d3 & st3 & H3 & H). injection H3 as H3 <-.
  split; [exists b, d1, d2, d3; auto|].
  apply first_variable_kept in H; [exact H|].
  assert (HE : forall e, library_error e -> (fun _ : exn => True) e) by (intros; exact I).
  intros W.
  apply sound_bind; [apply sound_get_variable_E, HE|]. intros B.
  apply sound_bind; [apply sound_static_or_shape, HE|]. intros len_state.
  apply sound_bind; [apply sound_static_or_shape, HE|]. intros len_query.
  apply sound_bind; [apply sound_dimension, HE|]. intros q.
  apply sound_bind; [apply sound_reshape_size, HE|]. intros attn_size_query.
  apply sound_bind.
  { apply (sound_try_except _ _ (fun _ => True) (fun _ => True));
      [apply sound_gate_variables, HE | apply sound_gate_variables, HE | auto]. }
  intros [gw gb].
  apply sound_bind; [apply sound_heads, HE|]. intros state_heads.
  apply sound_bind; [apply sound_heads, HE|]. intros query_heads.
  apply sound_bind.
  { destruct initial_state_attention; [|apply sound_ret].
    apply sound_bind; [apply sound_attention_query, HE|]. intros attns_query.
    apply sound_attention, HE. }
  intros attns_state. apply sound_ret.
Qed.

(** X7: after a call of the decoder that returned, the same call under
    the same scope without [reuse] raises [ValueError] at its first
    [get_variable], since [Initial_State_W] exists, and changes nothing. *)
Theorem decoder_second_call_raises
    theta linear_layer cur decoder_inputs initial_state distract_initial_state
    attention_states attention_states_query cell distraction_cell output_size
    heads loop_function scope initial_state_attention st ls st' :
  let run := decoder_run theta linear_layer cur decoder_inputs initial_state
               distract_initial_state attention_states attention_states_query
               cell distraction_cell output_size heads loop_function scope
               initial_state_attention in
  run st = (Ok ls, st') ->
  sreuse (variable_scope cur
            (default (inl "dynamic_simple_soft_distraction_decoder") scope) None) = false ->
  run st' = (Raise (ValueError VarExists), st').
Proof.
  intros run H Hreuse. subst run.
  destruct (decoder_run_ok _ _ _ _ _ _ _ _ _ _ _ _ _ _ _ _ _ _ H)
    as (input0 & rest & n & env & gw & gb & ls0 & st0 & Hin & Hh & Hd & Hs & Hl).
  destruct (decoder_setup_creates _ _ _ _ _ _ _ _ _ _ _ _ _ _ Hs)
    as ((b & d1 & d2 & d3 & Hb & H1 & H2 & H3) & v & Hv).
  destruct (decoder_loop_ok _ _ _ _ _ _ _ _ _ _ _ _ _ _ _ Hl)
    as (_ & _ & _ & _ & _ & _ & _ & _ & Hle & _).
  apply Hle in Hv.
  unfold decoder_run. rewrite Hin.
  destruct (heads <? 1)%Z eqn:Hlt; [apply Z.ltb_lt in Hlt; lia|].
  rewrite (lift_bind _ _ _ Hd). unfold decoder_setup.
  rewrite (lift_bind _ _ _ Hb), (lift_bind _ _ _ H1), (lift_bind _ _ _ H2),
    (lift_bind _ _ _ H3).
  unfold mbind at 1, M_bind at 1. unfold mbind at 1, M_bind at 1.
  unfold get_variable at 1. rewrite Hv, Hreuse. reflexivity.
Qed.

Lemma decoder_second_call_raises_witness :
  exists ls st',
    example_run [example_input; example_input] empty_store = (Ok ls, st') /\
    example_run [example_input; example_input] st' = (Raise (ValueError VarExists), st').
Proof.
  pose proof example_run_returns as Hok.
  destruct (example_run [example_input; example_input] empty_store) as [[ls|e] st'] eqn:H;
    [|discriminate Hok].
  exists ls, st'. split; [reflexivity|].
  apply (decoder_second_call_raises _ _ _ _ _ _ _ _ _ _ _ _ _ _ _ _ _ _ H). reflexivity.
Defined.

(** ** The first step *)

Lemma decoder_setup_zero_attention theta linear_layer scope input0 initial_state
    attention_states attention_states_query cell heads attn_size_state
    st env gw gb ls st' :
  decoder_setup theta linear_layer scope input0 initial_state attention_states
                attention_states_query cell heads attn_size_state false st
  = (Ok (env, gw, gb, ls), st') ->
  ls_attns_state ls = repeat (zeros_batch (shape_dim input0 0) attn_size_state) heads.
Proof.
  intros H. unfold decoder_setup in H.
  apply bind_ok in H. destruct H as (batch_size & stb & Hbatch & H).
  injection Hbatch as Hbatch _. apply shape_item_ok in Hbatch. subst batch_size.
  apply bind_ok in H. destruct H as (attn_length_state & st1 & _ & H).
  apply bind_ok in H. destruct H as (attn_length_query & st2 & _ & H).
  apply bind_ok in H. destruct H as (dim_1 & st3 & _ & H).
  apply bind_ok in H. destruct H as (W & st4 & _ & H).
  apply bind_ok in H. destruct H as (B & st5 & _ & H).
  apply bind_ok in H. destruct H as (len_state & stl & Hlen_state & H).
  apply bind_ok in H. destruct H as (len_query & stq & Hlen_query & H).
  apply bind_ok in H. destruct H as (q & st6 & _ & H).
  apply bind_ok in H. destruct H as (attn_size_query & st7 & _ & H).
  apply bind_ok in H. destruct H as ([gw' gb'] & st8 & _ & H).
  apply bind_ok in H. destruct H as (state_heads & st9 & _ & H).
  apply bind_ok in H. destruct H as (query_heads & st10 & _ & H).
  apply bind_ok in H. destruct H as (attns_state & st11 & Ha & H).
  injection Ha as <- _. injection H as _ _ _ <- _. reflexivity.
Qed.

Lemma decoder_loop_first step inp rest ls st ls' st' :
  decoder_loop step 0 (inp :: rest) ls st = (Ok ls', st') ->
  exists ls1 st1,
    step 0%nat inp ls st = (Ok ls1, st1) /\
    decoder_loop step 1 rest ls1 st1 = (Ok ls', st').
Proof. cbn [decoder_loop]. intros H. apply bind_ok in H. exact H. Qed.

(** X8: unless [initial_state_attention] is set, the attention vector
    [a] of the first step, and with it the vector [distract_output] that
    is combined with the first decoder input, is the all-zero tensor of
    shape [[batch_size; attn_size]], where [batch_size] is the first
    dimension of the first decoder input and [attn_size] the third
    dimension of [attention_states]. *)
Theorem decoder_first_attention_zero
    theta linear_layer cur decoder_inputs initial_state distract_initial_state
    attention_states attention_states_query cell distraction_cell output_size
    heads loop_function scope st ls st' :
  decoder_run theta linear_layer cur decoder_inputs initial_state
              distract_initial_state attention_states attention_states_query
              cell distraction_cell output_size heads loop_function scope
              false st = (Ok ls, st') ->
  exists input0 inputs n r0 rest,
    decoder_inputs = input0 :: inputs /\
    dimension (tstatic attention_states) 2 = Ok (Some n) /\
    ls_history ls = r0 :: rest /\
    sr_a r0 = zeros_batch (shape_dim input0 0) n /\
    tshape (sr_distract_output r0) = [shape_dim input0 0; n] /\
    forall idx, tget (sr_distract_output r0) idx = 0.
Proof.
  intros H.
  destruct (decoder_run_ok _ _ _ _ _ _ _ _ _ _ _ _ _ _ _ _ _ _ H)
    as (input0 & inputs & n & env & gw & gb & ls0 & st0 & Hin & Hh & Hd & Hs & Hl).
  pose proof (decoder_setup_zero_attention _ _ _ _ _ _ _ _ _ _ _ _ _ _ _ _ Hs) as Hz.
  destruct (decoder_setup_ok _ _ _ _ _ _ _ _ _ _ _ _ _ _ _ _ _ Hs)
    as (_ & _ & Hpa & _ & Hhi & _).
  rewrite Hin in Hl. apply decoder_loop_first in Hl.
  destruct Hl as (ls1 & st1 & Hstep & Hloop).
  destruct (decoder_step_ok _ _ _ _ _ _ _ _ _ _ _ _ _ _ _ Hstep)
    as (r & Hh1 & _ & _ & Hpa1 & _ & _ & Hitem & (_ & Hdo & _) & _).
  destruct (decoder_loop_ok _ _ _ _ _ _ _ _ _ _ _ _ _ _ _ Hloop)
    as (new & Hh' & _).
  rewrite Hh1, Hhi in Hh'. cbn in Hh'.
  assert (Ha : sr_a r = zeros_batch (shape_dim input0 0) n).
  { rewrite Hz in Hitem. destruct (Z.to_nat heads) as [|h] eqn:Hn; [lia|].
    cbn in Hitem. injection Hitem as <-. reflexivity. }
  rewrite Hpa1, Hpa in Hdo. cbn [distraction] in Hdo.
  exists input0, inputs, n, r, new.
  split; [exact Hin|]. split; [exact Hd|]. split; [exact Hh'|]. split; [exact Ha|].
  rewrite Hdo, Ha. split; [reflexivity|]. intros idx. reflexivity.
Qed.

Lemma decoder_first_attention_zero_witness :
  exists ls st' r0 rest,
    example_run [example_input; example_input] empty_store = (Ok ls, st') /\
    ls_history ls = r0 :: rest /\
    tshape (sr_distract_output r0) = [1; 2]%nat /\
    tget (sr_distract_output r0) [0; 0]%nat = 0.
Proof.
  pose proof example_run_returns as Hok.
  destruct (example_run [example_input; example_input] empty_store) as [[ls|e] st'] eqn:H;
    [|discriminate Hok].
  destruct (decoder_first_attention_zero _ _ _ _ _ _ _ _ _ _ _ _ _ _ _ _ _ H)
    as (input0 & inputs & n & r0 & rest & Hin & Hd & Hh & _ & Hs & Hz).
  injection Hin as <- _. injection Hd as <-.
  exists ls, st', r0, rest. split; [reflexivity|]. split; [exact Hh|].
  split; [exact Hs | apply Hz].
Defined.

(** ** The inputs of the steps *)

Section FedInputs.

Variable theta : nat -> list nat -> R.
Variable linear_layer : layer linear_args (tensor R).
Variables (env : attn_env) (gate_weight gate_bias : variable) (cell : rnn_cell).
Variables (output_size : nat) (loop_function : option loop_fn).
Variable initial_state_attention : bool.

#[local] Abbreviation fed_step :=
  (decoder_step theta linear_layer env gate_weight gate_bias cell output_size
                loop_function initial_state_attention).

Lemma decoder_step_prev i inp ls st ls' st' :
  fed_step i inp ls st = (Ok ls', st') ->
  exists output,
    ls_outputs ls' = ls_outputs ls ++ [output] /\
    ls_prev ls' = match loop_function with
                  | Some _ => Some output
                  | None => ls_prev ls
                  end.
Proof.
  unfold decoder_step. intros H.
  apply bind_ok in H. destruct H as ([[ls1 [[[inp' a] d] x]] used] & st1 & Hl & H).
  injection H as <- _. cbn [ls_outputs ls_prev].
  destruct (listen_inv _ _ _ _ Hl) as (r1 & st2 & Hb & _ & Hr).
  destruct r1 as [[ls2 [[[inp2 a2] d2] x2]]|e]; [|discriminate Hr].
  injection Hr as <- _ _ _ _ _.
  unfold step_body in Hb.
  apply bind_ok in Hb. destruct Hb as (dims & st3 & _ & Hb).
  apply bind_ok in Hb. destruct Hb as (sz & st4 & _ & Hb).
  destruct sz as [input_size|]; [|discriminate Hb].
  apply bind_ok in Hb. destruct Hb as (a0 & st5 & _ & Hb).
  apply bind_ok in Hb. destruct Hb as (x0 & st6 & _ & Hb).
  apply bind_ok in Hb. destruct Hb as ([cell_output state] & st7 & _ & Hb).
  apply bind_ok in Hb. destruct Hb as (attns_query & st8 & _ & Hb).
  apply bind_ok in Hb. destruct Hb as (attns_state & st9 & _ & Hb).
  apply bind_ok in Hb. destruct Hb as (output & st10 & _ & Hb).
  injection Hb as <- _ _ _ _ _. exists output. split; reflexivity.
Qed.

Lemma decoder_loop_given_inputs inputs : forall i ls st ls' st',
  loop_function = None ->
  decoder_loop fed_step i inputs ls st = (Ok ls', st') ->
  map sr_inp (ls_history ls') = map sr_inp (ls_history ls) ++ inputs.
Proof.
  induction inputs as [|inp rest IH]; intros i ls st ls' st' Hnone H;
    cbn [decoder_loop] in H.
  - injection H as <- _. rewrite app_nil_r. reflexivity.
  - apply bind_ok in H. destruct H as (ls1 & st1 & Hstep & Hloop).
    destruct (decoder_step_ok _ _ _ _ _ _ _ _ _ _ _ _ _ _ _ Hstep)
      as (r & Hh & _ & _ & _ & _ & Hinp & _).
    rewrite (IH _ _ _ _ _ Hnone Hloop), Hh, map_app, <- app_assoc. cbn.
    rewrite Hinp, Hnone. reflexivity.
Qed.

Lemma decoder_step_feeds_back f inp ls st ls' st' :
  loop_function = Some f ->
  feeds_back f ls ->
  fed_step (length (ls_history ls)) inp ls st = (Ok ls', st') ->
  feeds_back f ls'.
Proof.
  intros Hf (Hlen & Hprev & Hfed) Hstep.
  destruct (decoder_step_ok _ _ _ _ _ _ _ _ _ _ _ _ _ _ _ Hstep)
    as (r & Hh & _ & _ & _ & _ & Hinp & _).
  destruct (decoder_step_prev _ _ _ _ _ _ Hstep) as (output & Ho & Hp).
  rewrite Hf in Hp. unfold feeds_back. rewrite Hh, Ho, !length_app, Hp. cbn [length].
  split; [lia|]. split; [symmetry; apply last_snoc|].
  intros k r' Hk.
  destruct (decide (S k < length (ls_history ls))%nat) as [Hlt|Hge].
  - rewrite lookup_app_l in Hk by exact Hlt.
    destruct (Hfed k r' Hk) as (out & Hout & Hr'). exists out.
    split; [|exact Hr']. rewrite lookup_app_l; [exact Hout|].
    apply lookup_lt_Some in Hout. exact Hout.
  - assert (Hidx : S k = length (ls_history ls)).
    { apply lookup_lt_Some in Hk. rewrite length_app in Hk. cbn in Hk. lia. }
    rewrite lookup_app_r in Hk by lia. rewrite Hidx, Nat.sub_diag in Hk.
    injection Hk as <-.
    assert (Hlast : last (ls_outputs ls) = ls_outputs ls !! k).
    { rewrite last_lookup. f_equal. lia. }
    destruct (ls_outputs ls !! k) as [out|] eqn:Hout.
    + exists out. split; [rewrite lookup_app_l; [exact Hout|];
                          apply lookup_lt_Some in Hout; exact Hout|].
      rewrite Hinp, Hf, Hprev, Hlast, <- Hidx. reflexivity.
    + apply lookup_ge_None in Hout. lia.
Qed.

Lemma decoder_loop_feeds_back f inputs : forall ls st ls' st',
  loop_function = Some f ->
  feeds_back f ls ->
  decoder_loop fed_step (length (ls_history ls)) inputs ls st = (Ok ls', st') ->
  feeds_back f ls'.
Proof.
  induction inputs as [|inp rest IH]; intros ls st ls' st' Hf Hinv H;
    cbn [decoder_loop] in H.
  - injection H as <- _. exact Hinv.
  - apply bind_ok in H. destruct H as (ls1 & st1 & Hstep & Hloop).
    pose proof (decoder_step_feeds_back _ _ _ _ _ _ Hf Hinv Hstep) as Hinv1.
    destruct (decoder_step_ok _ _ _ _ _ _ _ _ _ _ _ _ _ _ _ Hstep) as (r & Hh & _).
    apply (IH ls1 st1 ls' st' Hf Hinv1).
    rewrite Hh, length_app. cbn [length]. rewrite Nat.add_1_r. exact Hloop.
Qed.

End FedInputs.

(** X9: in a call of the decoder that returns, without a loop function
    the inputs of the steps are the decoder inputs, in order; with a loop
    function [f] the first step takes the first decoder input and every
    later step [i] takes [f(outputs[i-1], i)], whatever the other decoder
    inputs are. *)
Theorem decoder_step_inputs
    theta linear_layer cur decoder_inputs initial_state distract_initial_state
    attention_states attention_states_query cell distraction_cell output_size
    heads loop_function scope initial_state_attention st ls st' :
  decoder_run theta linear_layer cur decoder_inputs initial_state
              distract_initial_state attention_states attention_states_query
              cell distraction_cell output_size heads loop_function scope
              initial_state_attention st = (Ok ls, st') ->
  match loop_function with
  | None => map sr_inp (ls_history ls) = decoder_inputs
  | Some f =>
      (exists r0, ls_history ls !! 0%nat = Some r0 /\ Some (sr_inp r0) = head decoder_inputs) /\
      forall i r, ls_history ls !! S i = Some r ->
        exists out, ls_outputs ls !! i = Some out /\ sr_inp r = f out (S i)
  end.
Proof.
  intros H.
  destruct (decoder_run_ok _ _ _ _ _ _ _ _ _ _ _ _ _ _ _ _ _ _ H)
    as (input0 & inputs & n & env & gw & gb & ls0 & st0 & Hin & Hh & Hd & Hs & Hl).
  destruct (decoder_setup_ok _ _ _ _ _ _ _ _ _ _ _ _ _ _ _ _ _ Hs)
    as (_ & Hp & _ & Ho & Hhi & _).
  destruct loop_function as [f|] eqn:Hf.
  - split.
    + rewrite Hin in Hl. apply decoder_loop_first in Hl.
      destruct Hl as (ls1 & st1 & Hstep & Hloop).
      destruct (decoder_step_ok _ _ _ _ _ _ _ _ _ _ _ _ _ _ _ Hstep)
        as (r & Hh1 & _ & _ & _ & _ & Hinp & _).
      destruct (decoder_loop_ok _ _ _ _ _ _ _ _ _ _ _ _ _ _ _ Hloop) as (new & Hh' & _).
      rewrite Hh1, Hhi in Hh'. exists r. rewrite Hh', Hin, Hinp, Hp. split; reflexivity.
    + assert (Hinv : feeds_back f ls0).
      { unfold feeds_back. rewrite Ho, Hhi, Hp. repeat split. intros k r Hk. discriminate Hk. }
      assert (Hl0 : decoder_loop
                (decoder_step theta linear_layer env gw gb cell
                   (default (output_size_of cell) output_size) (Some f)
                   initial_state_attention)
                (length (ls_history ls0)) decoder_inputs ls0 st0 = (Ok ls, st'))
        by (rewrite Hhi; exact Hl).
      apply (decoder_loop_feeds_back _ _ _ _ _ _ _ _ _ f _ _ _ _ _ eq_refl Hinv Hl0).
  - rewrite (decoder_loop_given_inputs _ _ _ _ _ _ _ _ _ _ _ _ _ _ _ eq_refl Hl), Hhi.
    reflexivity.
Qed.

Lemma example_fed_run_returns :
  is_ok (example_fed_run [example_input; unknown_input] empty_store).1 = true.
Proof. vm_compute. reflexivity. Qed.

Lemma decoder_step_inputs_witness :
  exists ls st' r0 r1 out,
    example_fed_run [example_input; unknown_input] empty_store = (Ok ls, st') /\
    ls_history ls = [r0; r1] /\
    sr_inp r0 = example_input /\
    ls_outputs ls !! 0%nat = Some out /\
    sr_inp r1 = example_loop out 1%nat.
Proof.
  pose proof example_fed_run_returns as Hok.
  destruct (example_fed_run [example_input; unknown_input] empty_store)
    as [[ls|e] st'] eqn:H; [|discriminate Hok].
  destruct (decoder_step_inputs _ _ _ _ _ _ _ _ _ _ _ _ _ _ _ _ _ _ H)
    as ((r & Hr & Hinp) & Hfed).
  destruct (decoder_run_history _ _ _ _ _ _ _ _ _ _ _ _ _ _ _ _ _ _ H)
    as (_ & _ & _ & _ & _ & _ & Hlen & _).
  destruct (ls_history ls) as [|r0 [|r1 [|r2 rest]]] eqn:Hh; try discriminate Hlen.
  injection Hr as <-. injection Hinp as Hinp.
  destruct (Hfed 0%nat r1 eq_refl) as (out & Hout & Hr1).
  exists ls, st', r0, r1, out. auto.
Defined.

(** ** More on the sequence loss *)

Lemma zip3_in_weights {A B C} (la : list A) (lb : list B) (lc : list C) a b c :
  In (a, b, c) (zip3 la lb lc) -> In a la /\ In b lb /\ In c lc.
Proof.
  revert lb lc. induction la as [|a' la IH]; intros [|b' lb] [|c' lc] H;
    try (destruct H).
  - injection H as -> -> ->. repeat split; left; reflexivity.
  - destruct (IH _ _ H) as (Ha & Hb & Hc). repeat split; right; assumption.
Qed.

Lemma sum_list_zero l : Forall (fun x => x = 0) l -> sum_list l = 0.
Proof.
  induction 1 as [|x l Hx _ IH]; [reflexivity|]. cbn. rewrite Hx. unfold sum_list in IH.
  rewrite IH. lra.
Qed.

(** X10: for lists of one length that are not empty, an example whose
    weight is 0 at every time step has loss 0, with and without
    [average_across_timesteps]: the average divides 0 by 1e-12. *)
Theorem sequence_loss_zero_weights logits targets weights f avg (B b : nat) :
  logits <> [] ->
  length targets = length logits -> length weights = length logits ->
  Forall (fun '(logit, target, weight) =>
            tshape (crossent f logit target) = [B] /\ tshape weight = [B])
         (zip3 logits targets weights) ->
  (b < B)%nat ->
  Forall (fun weight => tget weight [b] = 0) weights ->
  exists log_perps,
    sequence_loss_by_example logits targets weights avg f = Ok log_perps /\
    tget log_perps [b] = 0.
Proof.
  intros Hne H1 H2 Hshape Hb Hzero.
  destruct (loss_pointwise logits targets weights f avg B Hne H1 H2 Hshape)
    as (lp & Hlp & _ & Hval).
  exists lp. split; [exact Hlp|]. rewrite (Hval b Hb). cbv zeta.
  assert (Htotal : sum_list (map (fun '(logit, target, weight) =>
                      tget (crossent f logit target) [b] * tget weight [b])
                    (zip3 logits targets weights)) = 0).
  { apply sum_list_zero. apply List.Forall_forall. intros x Hx.
    apply in_map_iff in Hx. destruct Hx as ([[l t] w] & <- & Hin).
    apply zip3_in_weights in Hin. destruct Hin as (_ & _ & Hw).
    rewrite (proj1 (List.Forall_forall _ _) Hzero w Hw). lra. }
  rewrite Htotal. destruct avg; [|reflexivity]. unfold Rdiv. apply Rmult_0_l.
Qed.

Lemma sequence_loss_zero_weights_witness :
  exists log_perps,
    sequence_loss_by_example [one_logit] [one_target] [zeros_batch_weight] true None
    = Ok log_perps /\
    tget log_perps [0%nat] = 0.
Proof.
  apply (sequence_loss_zero_weights [one_logit] [one_target] [zeros_batch_weight]
           None true 1 0).
  - discriminate.
  - reflexivity.
  - reflexivity.
  - repeat constructor.
  - lia.
  - repeat constructor.
Defined.

Lemma sum_n_term_le n f l :
  (l < n)%nat -> (forall j, (j < n)%nat -> 0 <= f j) -> f l <= sum_n n f.
Proof.
  induction n as [|n IH]; intros Hl Hf; [lia|]. cbn [sum_n].
  destruct (Nat.eq_dec l n) as [->|Hne].
  - assert (0 <= sum_n n f) by (apply sum_n_nonneg; intros; apply Hf; lia). lra.
  - assert (f l <= sum_n n f) by (apply IH; [lia | intros; apply Hf; lia]).
    assert (0 <= f n) by (apply Hf; lia). lra.
Qed.

(** The sparse softmax cross-entropy of a valid label is not negative. *)
Lemma sparse_softmax_cross_entropy_nonneg logits labels (B C b : nat) :
  tshape logits = [B; C] -> tshape labels = [B] ->
  (Z.to_nat (tget labels [b]) < C)%nat ->
  exists loss,
    sparse_softmax_cross_entropy_with_logits logits labels = Ok loss /\
    tshape loss = [B] /\
    0 <= tget loss [b].
Proof.
  intros Hs Hlab Hl. unfold sparse_softmax_cross_entropy_with_logits.
  rewrite Hs, bool_decide_eq_true_2 by exact Hlab.
  eexists. split; [reflexivity|]. cbn [tshape tget op_result nth]. split; [reflexivity|].
  set (l := Z.to_nat (tget labels [b])) in *.
  set (f := fun j => exp (tget logits [b; j])).
  assert (Hle : f l <= sum_n C f).
  { apply sum_n_term_le; [exact Hl|]. intros j _. unfold f. left. apply exp_pos. }
  assert (Hln : ln (f l) <= ln (sum_n C f)).
  { destruct Hle as [Hlt|Heq]; [left; apply ln_increasing; [apply exp_pos | exact Hlt]|].
    rewrite Heq. right. reflexivity. }
  unfold f at 1 in Hln. rewrite ln_exp in Hln. lra.
Qed.

(** X11: with the default loss (sparse softmax cross-entropy), logits of
    shape [[B; C]], labels in [[0, C)] and weights that are not negative,
    the loss of every example is not negative, with and without
    [average_across_timesteps]. *)
Theorem sequence_loss_nonnegative logits targets weights avg (B C : nat) :
  logits <> [] ->
  length targets = length logits -> length weights = length logits ->
  Forall (fun '(logit, target, weight) =>
            tshape logit = [B; C] /\ tshape target = [B] /\ tshape weight = [B] /\
            forall b, (b < B)%nat ->
              (0 <= tget target [b] < Z.of_nat C)%Z /\ 0 <= tget weight [b])
         (zip3 logits targets weights) ->
  exists log_perps,
    sequence_loss_by_example logits targets weights avg None = Ok log_perps /\
    tshape log_perps = [B] /\
    forall b, (b < B)%nat -> 0 <= tget log_perps [b].
Proof.
  intros Hne H1 H2 Hall.
  assert (Hstep : forall logit target weight b,
             In (logit, target, weight) (zip3 logits targets weights) -> (b < B)%nat ->
             tshape (crossent None logit target) = [B] /\ tshape weight = [B] /\
             0 <= tget (crossent None logit target) [b] /\ 0 <= tget weight [b]).
  { intros logit target weight b Hin Hb.
    destruct (proj1 (List.Forall_forall _ _) Hall _ Hin) as (Hl & Ht & Hw & Hv).
    destruct (Hv b Hb) as [Hlabel Hwb].
    destruct (reshape_flat_1d target B b Ht Hb) as [Hrs Hget].
    unfold crossent, cross_entropy. cbv zeta.
    destruct (sparse_softmax_cross_entropy_nonneg logit (reshape target [(-1)%Z]) B C b
                Hl Hrs) as (loss & -> & Hcs & Hc); [rewrite Hget; lia|].
    auto. }
  assert (Hshape : Forall (fun '(logit, target, weight) =>
                     tshape (crossent None logit target) = [B] /\ tshape weight = [B])
                          (zip3 logits targets weights)).
  { apply List.Forall_forall. intros [[logit target] weight] Hin.
    destruct (proj1 (List.Forall_forall _ _) Hall _ Hin) as (Hl & Ht & Hw & _).
    split; [|exact Hw]. unfold crossent, cross_entropy. cbv zeta.
    unfold sparse_softmax_cross_entropy_with_logits. rewrite Hl.
    rewrite bool_decide_eq_true_2 by (apply reshape_flat_shape; exact Ht). reflexivity. }
  destruct (loss_pointwise logits targets weights None avg B Hne H1 H2 Hshape)
    as (lp & Hlp & Hs & Hval).
  exists lp. split; [exact Hlp|]. split; [exact Hs|]. intros b Hb.
  rewrite (Hval b Hb). cbv zeta.
  assert (Htotal : 0 <= sum_list (map (fun '(logit, target, weight) =>
                      tget (crossent None logit target) [b] * tget weight [b])
                    (zip3 logits targets weights))).
  { apply sum_list_nonneg. apply List.Forall_forall. intros x Hx.
    apply in_map_iff in Hx. destruct Hx as ([[l t] w] & <- & Hin).
    destruct (Hstep l t w b Hin Hb) as (_ & _ & Hc & Hw). apply Rmult_le_pos; assumption. }
  destruct avg; [|exact Htotal].
  assert (Hweights : 0 <= sum_list (map (fun weight => tget weight [b]) weights)).
  { apply sum_list_nonneg. apply List.Forall_forall. intros x Hx.
    apply in_map_iff in Hx. destruct Hx as (w & <- & Hin).
    pose proof (zip3_weights logits targets weights H1 H2) as Hz.
    rewrite <- Hz in Hin. apply in_map_iff in Hin.
    destruct Hin as ([[l t] w'] & Hw' & Hin'). cbn in Hw'. subst w'.
    destruct (Hstep l t w b Hin' Hb) as (_ & _ & _ & Hw). exact Hw. }
  apply Rmult_le_pos; [exact Htotal|]. left. apply Rinv_0_lt_compat. lra.
Qed.

Lemma sequence_loss_nonnegative_witness :
  exists log_perps,
    sequence_loss_by_example [one_logit] [one_target] [one_weight] true None = Ok log_perps /\
    tshape log_perps = [1%nat] /\
    0 <= tget log_perps [0%nat].
Proof.
  destruct (sequence_loss_nonnegative [one_logit] [one_target] [one_weight] true 1 2)
    as (lp & Hlp & Hs & Hpos).
  - discriminate.
  - reflexivity.
  - reflexivity.
  - constructor; [|constructor]. repeat split; try reflexivity; cbn; try lia; lra.
  - exists lp. split; [exact Hlp|]. split; [exact Hs|]. apply Hpos. lia.
Defined.

(** ** The attention read *)

Lemma of_nat_ltb_0 n : (Z.of_nat n <? 0)%Z = false.
Proof. apply Z.ltb_ge. lia. Qed.

Lemma bsel_same d : (if (d =? 1)%nat then d else d) = d.
Proof. destruct (d =? 1)%nat; reflexivity. Qed.

Lemma bsel_one d : (if (d =? 1)%nat then 1%nat else d) = d.
Proof. destruct (Nat.eqb_spec d 1); congruence. Qed.

Lemma bdim_zero d : bdim d 0 = O.
Proof. unfold bdim. destruct (d =? 1)%nat; reflexivity. Qed.

Lemma unravel_ravel_2 d1 d2 i j :
  (j < d2)%nat -> (i < d1)%nat ->
  ((j + d2 * i) mod d2 = j /\ ((j + d2 * i) / d2) mod d1 = i)%nat.
Proof.
  intros Hj Hi. rewrite (Nat.mul_comm d2 i).
  rewrite Nat.Div0.mod_add, Nat.div_add by lia.
  rewrite (Nat.mod_small j d2), (Nat.div_small j d2) by exact Hj.
  split; [reflexivity|]. apply Nat.mod_small. exact Hi.
Qed.

Lemma reshape_shape {A} (a : tensor A) spec :
  tshape (reshape a spec) = resolve_shape (numel (tshape a)) spec.
Proof. reflexivity. Qed.

Lemma reshape_get {A} (a : tensor A) spec idx :
  tget (reshape a spec) idx
  = tget a (unravel (tshape a) (ravel (resolve_shape (numel (tshape a)) spec) idx)).
Proof. reflexivity. Qed.

Lemma softmax_shape a : tshape (softmax a) = tshape a.
Proof. reflexivity. Qed.

Lemma reduce_axis_shape a k : tshape (reduce_axis a k) = remove_at k (tshape a).
Proof. reflexivity. Qed.

Section AttentionRead.

Variables (v hidden_features hidden y : tensor R) (B L V S : nat).
Hypothesis Hv : tshape v = [V].
Hypothesis Hhf : tshape hidden_features = [B; L; 1%nat; V].
Hypothesis Hhidden : tshape hidden = [B; L; 1%nat; S].
Hypothesis Hy : tshape y = [B; V].
Hypothesis HV : (0 < V)%nat.
Hypothesis HL : (0 < L)%nat.
Hypothesis HS : (0 < S)%nat.

#[local] Abbreviation y4 := (reshape y [(-1)%Z; 1%Z; 1%Z; Z.of_nat V]).

Lemma y4_shape : tshape y4 = [B; 1; 1; V]%nat.
Proof.
  unfold reshape. cbn [tshape]. rewrite Hy. unfold resolve_shape, numel.
  cbn [fold_right map]. rewrite !of_nat_ltb_0.
  change ((-1 <? 0)%Z) with true. change ((1 <? 0)%Z) with false. cbn iota.
  rewrite Nat2Z.id. change (Z.to_nat 1) with 1%nat.
  rewrite !Nat.mul_1_l, !Nat.mul_1_r, Nat.div_mul by lia. reflexivity.
Qed.

Lemma y4_value b k :
  (b < B)%nat -> (k < V)%nat -> tget y4 [b; 0; 0; k]%nat = tget y [b; k].
Proof.
  intros Hb Hk. pose proof y4_shape as Hs. unfold reshape in *. cbn [tshape tget] in *.
  rewrite Hs, Hy. unfold ravel, unravel. cbn [rev app ravel_r unravel_r].
  rewrite !Nat.mul_0_r, !Nat.add_0_r, !Nat.mul_1_l, !Nat.add_0_l.
  destruct (unravel_ravel_2 B V b k Hk Hb) as [H1 H2]. rewrite H1, H2. reflexivity.
Qed.

#[local] Abbreviation features := (mul v (tanh_t (add hidden_features y4))).
#[local] Abbreviation scores := (reduce_sum features [2; 3]%nat).

Lemma features_shape : tshape features = [B; L; 1; V]%nat.
Proof.
  unfold mul, tanh_t, add, unop. rewrite !binop_shape. cbn [tshape op_result].
  rewrite ?binop_shape, Hv, Hhf, y4_shape. unfold bshape. cbn [rev app bshape_r].
  rewrite !bsel_same, bsel_one. reflexivity.
Qed.

Lemma features_value b l k :
  (b < B)%nat -> (l < L)%nat -> (k < V)%nat ->
  tget features [b; l; 0; k]%nat
  = tget v [k] * tanh (tget hidden_features [b; l; O; k] + tget y [b; k]).
Proof.
  intros Hb Hl Hk. unfold mul, tanh_t, add, unop. rewrite binop_get.
  cbn [tshape tget op_result]. rewrite binop_get, binop_shape, Hv, Hhf, y4_shape.
  unfold bshape, bidx. cbn [rev app bshape_r bidx_r].
  rewrite !bsel_same, bsel_one. cbn [rev app bidx_r].
  rewrite !(bdim_lt B b Hb), !(bdim_lt L l Hl), !(bdim_lt V k Hk).
  rewrite y4_value by assumption. reflexivity.
Qed.

Lemma scores_shape : tshape scores = [B; L].
Proof.
  unfold reduce_sum. cbn [rev app fold_left]. cbn [reduce_axis tshape op_result].
  rewrite features_shape. reflexivity.
Qed.

Lemma scores_value b l :
  (b < B)%nat -> (l < L)%nat ->
  tget scores [b; l] = attention_score v hidden_features y V b l.
Proof.
  intros Hb Hl. unfold reduce_sum. cbn [rev app fold_left].
  rewrite reduce_axis_get. cbn [reduce_axis tshape op_result].
  rewrite features_shape. cbn [remove_at firstn skipn app nth]. rewrite sum_n_one.
  cbn [insert_at firstn skipn app]. rewrite reduce_axis_get, features_shape.
  cbn [nth]. unfold attention_score. apply sum_n_ext. intros k Hk.
  cbn [insert_at firstn skipn app]. apply features_value; assumption.
Qed.

#[local] Abbreviation mask := (softmax scores).
#[local] Abbreviation mask4 := (reshape mask [(-1)%Z; Z.of_nat L; 1%Z; 1%Z]).
#[local] Abbreviation weighted := (mul mask4 hidden).

Lemma mask_value b l :
  (b < B)%nat -> (l < L)%nat ->
  tget mask [b; l] = attention_mask v hidden_features y V L b l.
Proof.
  intros Hb Hl. unfold softmax. cbn [tget op_result]. rewrite scores_shape.
  cbn [List.last]. unfold attention_mask. rewrite scores_value by assumption.
  f_equal. apply sum_n_ext. intros l' Hl'. unfold set_last. cbn [removelast app].
  rewrite scores_value by assumption. reflexivity.
Qed.

Lemma mask4_shape : tshape mask4 = [B; L; 1; 1]%nat.
Proof.
  rewrite reshape_shape, softmax_shape, scores_shape. unfold resolve_shape, numel.
  cbn [fold_right map]. rewrite !of_nat_ltb_0.
  change ((-1 <? 0)%Z) with true. change ((1 <? 0)%Z) with false. cbn iota.
  rewrite Nat2Z.id. change (Z.to_nat 1) with 1%nat.
  rewrite !Nat.mul_1_r, Nat.div_mul by lia. reflexivity.
Qed.

Lemma mask4_value b l :
  (b < B)%nat -> (l < L)%nat ->
  tget mask4 [b; l; 0; 0]%nat = attention_mask v hidden_features y V L b l.
Proof.
  intros Hb Hl. pose proof mask4_shape as Hs. rewrite reshape_shape in Hs.
  rewrite reshape_get, Hs, softmax_shape, scores_shape.
  unfold ravel, unravel. cbn [rev app ravel_r unravel_r].
  rewrite !Nat.mul_0_r, !Nat.add_0_r, !Nat.mul_1_l, !Nat.add_0_l.
  destruct (unravel_ravel_2 B L b l Hl Hb) as [H1 H2]. rewrite H1, H2.
  apply mask_value; assumption.
Qed.

Lemma weighted_shape : tshape weighted = [B; L; 1; S]%nat.
Proof.
  rewrite mul_shape, mask4_shape, Hhidden.
  unfold bshape. cbn [rev app bshape_r]. rewrite !bsel_same. reflexivity.
Qed.

Lemma weighted_value b l s :
  (b < B)%nat -> (l < L)%nat -> (s < S)%nat ->
  tget weighted [b; l; 0; s]%nat
  = attention_mask v hidden_features y V L b l * tget hidden [b; l; O; s].
Proof.
  intros Hb Hl Hs. rewrite mul_get, mask4_shape, Hhidden.
  unfold bidx. cbn [rev app bidx_r].
  rewrite !(bdim_lt B b Hb), !(bdim_lt L l Hl), !(bdim_lt S s Hs), !bdim_one.
  rewrite mask4_value by assumption. reflexivity.
Qed.

#[local] Abbreviation reads := (reduce_sum weighted [1; 2]%nat).

Lemma reads_shape : tshape reads = [B; S].
Proof.
  unfold reduce_sum at 1. cbn [rev app fold_left].
  rewrite !reduce_axis_shape, weighted_shape. reflexivity.
Qed.

Lemma reads_value b s :
  (b < B)%nat -> (s < S)%nat ->
  tget reads [b; s]
  = sum_n L (fun l => attention_mask v hidden_features y V L b l
                      * tget hidden [b; l; O; s]).
Proof.
  intros Hb Hs. unfold reduce_sum at 1. cbn [rev app fold_left].
  rewrite reduce_axis_get, reduce_axis_shape, weighted_shape.
  cbn [remove_at firstn skipn app nth].
  apply sum_n_ext. intros l Hl. cbn [insert_at firstn skipn app].
  rewrite reduce_axis_get, weighted_shape. cbn [nth]. rewrite sum_n_one.
  cbn [insert_at firstn skipn app]. apply weighted_value; assumption.
Qed.

Lemma attention_read_shape :
  tshape (attention_read v hidden_features hidden y V L S) = [B; S].
Proof.
  unfold attention_read. cbv zeta. rewrite reshape_shape, reads_shape.
  unfold resolve_shape, numel. cbn [fold_right map]. rewrite !of_nat_ltb_0.
  change ((-1 <? 0)%Z) with true. cbn iota.
  rewrite Nat2Z.id, !Nat.mul_1_r, Nat.div_mul by lia. reflexivity.
Qed.

Lemma attention_read_value b s :
  (b < B)%nat -> (s < S)%nat ->
  tget (attention_read v hidden_features hidden y V L S) [b; s]
  = sum_n L (fun l => attention_mask v hidden_features y V L b l
                      * tget hidden [b; l; O; s]).
Proof.
  intros Hb Hs. pose proof attention_read_shape as Hshape.
  unfold attention_read in *. cbv zeta in *. rewrite reshape_shape in Hshape.
  rewrite reshape_get, Hshape, reads_shape.
  unfold ravel, unravel. cbn [rev app ravel_r unravel_r].
  rewrite !Nat.mul_0_r, !Nat.add_0_r.
  destruct (unravel_ravel_2 B S b s Hs Hb) as [H1 H2]. rewrite H1, H2.
  apply reads_value; assumption.
Qed.

End AttentionRead.

(** X12: the body shared by [attention] and [attention_query].  For [v]
    of shape [[V]], hidden features of shape [[B; L; 1; V]], hidden states
    of shape [[B; L; 1; S]] and a projected query [y] of shape [[B; V]],
    the read has shape [[B; S]] and its entry [(b, s)] is the sum over the
    [L] positions of [mask(b, l) * hidden[b, l, 0, s]], where the mask is
    the softmax over the positions of the scores
    [sum_k v[k] * tanh(hidden_features[b, l, 0, k] + y[b, k])]. *)
Theorem attention_read_is_masked_sum
    (v hidden_features hidden y : tensor R) (B L V S : nat) :
  tshape v = [V] ->
  tshape hidden_features = [B; L; 1%nat; V] ->
  tshape hidden = [B; L; 1%nat; S] ->
  tshape y = [B; V] ->
  (0 < V)%nat -> (0 < L)%nat -> (0 < S)%nat ->
  tshape (attention_read v hidden_features hidden y V L S) = [B; S] /\
  forall b s, (b < B)%nat -> (s < S)%nat ->
    tget (attention_read v hidden_features hidden y V L S) [b; s]
    = sum_n L (fun l => attention_mask v hidden_features y V L b l
                        * tget hidden [b; l; O; s]).
Proof.
  intros Hv Hhf Hh Hy HV HL HS. split.
  - apply (attention_read_shape v hidden_features hidden y B L V S); assumption.
  - intros b s Hb Hs.
    apply (attention_read_value v hidden_features hidden y B L V S); assumption.
Qed.

Lemma attention_read_is_masked_sum_witness :
  tshape (attention_read example_v example_hidden example_hidden
                         example_query_projection 2 1 2) = [1; 2]%nat /\
  tget (attention_read example_v example_hidden example_hidden
                       example_query_projection 2 1 2) [0; 0]%nat
  = sum_n 1 (fun l => attention_mask example_v example_hidden
                        example_query_projection 2 1 0 l
                      * tget example_hidden [0; l; 0; 0]%nat).
Proof.
  destruct (attention_read_is_masked_sum example_v example_hidden example_hidden
              example_query_projection 1 1 2 2) as [Hs Hv];
    try reflexivity; try lia.
  split; [exact Hs|]. apply Hv; lia.
Defined.

(** ** The closures [attention] and [attention_query] *)

Lemma mapM_ok {A B} (f : A -> M B) (l : list A) : forall st ys st',
  mapM f l st = (Ok ys, st') ->
  Forall2 (fun x y => exists st1 st2, f x st1 = (Ok y, st2)) l ys.
Proof.
  induction l as [|x l IH]; intros st ys st' H; cbn [mapM] in H.
  - injection H as <- _. constructor.
  - apply bind_ok in H. destruct H as (y & st1 & Hy & H).
    apply bind_ok in H. destruct H as (ys' & st2 & Hys & H). injection H as <- _.
    constructor; [eauto | eapply IH; exact Hys].
Qed.

Lemma assert_2d_fails query q r :
  In q query -> ndims (tstatic q) = Some r -> r <> 0%nat -> r <> 2%nat ->
  assert_2d query = Raise AssertionError.
Proof.
  intros Hin Hr H0 H2. unfold assert_2d.
  destruct (forallb _ query) eqn:Hall; [|reflexivity].
  apply (proj1 (forallb_forall _ _) Hall) in Hin. rewrite Hr in Hin.
  destruct r as [|r]; [congruence|]. apply Nat.eqb_eq in Hin. congruence.
Qed.

(** X13: [attention] returns one read per head; the read of head [a] is
    the attention read with [v_state[a]], [hidden_features_states[a]] and
    [linear] applied to the concatenation of all the queries; and it
    raises [AssertionError], touching no variable, when some query has a
    statically known rank other than 0 and 2. *)
Theorem attention_reads_every_head theta linear_layer env sc query st :
  (forall ds st',
     attention theta linear_layer env sc query st = (Ok ds, st') ->
     length ds = num_heads env /\
     forall a, (a < num_heads env)%nat ->
       exists vs v hidden_features,
         item (v_state env) a = Ok v /\
         item (hidden_features_states env) a = Ok hidden_features /\
         ds !! a
         = Some (attention_read (read theta v) hidden_features (hidden_states env)
                   (layer_apply linear_layer (map (read theta) vs)
                      ([concat1 query], attn_size_state env, true))
                   (attn_size_state env) (attn_length_state env) (attn_size_state env))) /\
  (forall q r, In q query -> ndims (tstatic q) = Some r -> r <> 0%nat -> r <> 2%nat ->
     attention theta linear_layer env sc query st = (Raise AssertionError, st)).
Proof.
  split.
  - intros ds st' H. unfold attention in H.
    apply bind_ok in H. destruct H as (u & st1 & _ & H).
    apply mapM_ok in H. split.
    + rewrite <- (Forall2_length _ _ _ H). apply length_seq.
    + intros a Ha.
      destruct (Forall2_lookup_l _ _ _ a a H) as (d & Hd & (st2 & st3 & Hf)).
      { rewrite lookup_seq_lt by exact Ha. reflexivity. }
      apply bind_ok in Hf. destruct Hf as (y & st4 & Hy & Hf).
      apply bind_ok in Hf. destruct Hf as (v & st5 & Hv & Hf). injection Hv as Hv _.
      apply bind_ok in Hf. destruct Hf as (hf & st6 & Hhf & Hf). injection Hhf as Hhf _.
      injection Hf as <- _. apply call_layer_ok in Hy. destruct Hy as (vs & ->).
      exists vs, v, hf. auto.
  - intros q r Hin Hr H0 H2. unfold attention.
    apply lift_bind_raise. apply (assert_2d_fails query q r); assumption.
Qed.

(** X14: [attention_query] computes a read for every head but returns
    the one of head 0 only: the attention read with [v_query[0]],
    [hidden_features_query[0]] and [linear] applied to the query. *)
Theorem attention_query_returns_first_head theta linear_layer env sc query st d st' :
  attention_query theta linear_layer env sc query st = (Ok d, st') ->
  (0 < num_heads env)%nat /\
  exists vs v hidden_features,
    item (v_query env) 0 = Ok v /\
    item (hidden_features_query env) 0 = Ok hidden_features /\
    d = attention_read (read theta v) hidden_features (hidden_states_query env)
          (layer_apply linear_layer (map (read theta) vs)
             ([query], attn_size_query env, true))
          (attn_size_query env) (attn_length_query env) (attn_size_query env).
Proof.
  unfold attention_query. intros H.
  apply bind_ok in H. destruct H as (ds & st1 & Hds & H). injection H as Hitem _.
  apply mapM_ok in Hds.
  assert (Hlen : length ds = num_heads env).
  { rewrite <- (Forall2_length _ _ _ Hds). apply length_seq. }
  destruct ds as [|d0 ds]; [discriminate Hitem|]. injection Hitem as <-.
  split; [rewrite <- Hlen; cbn; lia|].
  destruct (num_heads env) as [|h]; [discriminate Hlen|].
  cbn [seq] in Hds. apply Forall2_cons_1 in Hds. destruct Hds as [(st2 & st3 & Hf) _].
  apply bind_ok in Hf. destruct Hf as (y & st4 & Hy & Hf).
  apply bind_ok in Hf. destruct Hf as (v & st5 & Hv & Hf). injection Hv as Hv _.
  apply bind_ok in Hf. destruct Hf as (hf & st6 & Hhf & Hf). injection Hhf as Hhf _.
  injection Hf as <- _. apply call_layer_ok in Hy. destruct Hy as (vs & ->).
  exists vs, v, hf. auto.
Qed.

Lemma example_attention_query_returns :
  is_ok (attention_query example_theta example_linear example_env root_scope
                         example_state empty_store).1 = true.
Proof. vm_compute. reflexivity. Qed.

Lemma attention_query_returns_first_head_witness :
  exists d st' vs,
    attention_query example_theta example_linear example_env root_scope
                    example_state empty_store = (Ok d, st') /\
    d = attention_read (read example_theta (Var 1 [2%nat])) example_hidden example_hidden
          (layer_apply example_linear (map (read example_theta) vs)
             ([example_state], 2%nat, true))
          2 1 2.
Proof.
  pose proof example_attention_query_returns as Hok.
  destruct (attention_query example_theta example_linear example_env root_scope
              example_state empty_store) as [[d|e] st'] eqn:H; [|discriminate Hok].
  destruct (attention_query_returns_first_head _ _ _ _ _ _ _ _ H)
    as (_ & vs & v & hf & Hv & Hhf & Hd).
  injection Hv as <-. injection Hhf as <-.
  exists d, st', vs. split; [reflexivity | exact Hd].
Defined.

Lemma attention_reads_every_head_witness :
  attention example_theta example_linear example_env root_scope [rank3_query] empty_store
  = (Raise AssertionError, empty_store).
Proof.
  apply (proj2 (attention_reads_every_head example_theta example_linear example_env
                  root_scope [rank3_query] empty_store) rank3_query 3%nat).
  - left. reflexivity.
  - reflexivity.
  - discriminate.
  - discriminate.
Defined.

(** ** The attention over the encoder states *)















(** ** The gate at the third step of the example *)





(** ** The loop function *)

Lemma argmax_upto_lt f n : (0 < n)%nat -> (argmax_upto f n < n)%nat.
Proof.
  induction n as [|n IH]; intros Hn; [lia|]. cbn [argmax_upto].
  destruct (Rlt_dec _ _); [lia|].
  destruct n as [|n]; [cbn; lia|]. assert (argmax_upto f (S n) < S n)%nat by (apply IH; lia).
  lia.
Qed.

Lemma argmax_upto_max f n j : (j < n)%nat -> f j <= f (argmax_upto f n).
Proof.
  induction n as [|n IH]; intros Hj; [lia|]. cbn [argmax_upto].
  destruct (Nat.eq_dec j n) as [->|Hne].
  - destruct (Rlt_dec _ _) as [Hlt|Hge]; lra.
  - assert (f j <= f (argmax_upto f n)) by (apply IH; lia).
    destruct (Rlt_dec _ _) as [Hlt|Hge]; lra.
Qed.

(** X15: the loop function built by [_extract_argmax_and_embed].  For
    scores ([prev], or [prev * W + B] with an output projection) of shape
    [[B; C]] with [C > 0] and an embedding of shape [[N; E]], the result
    has shape [[B; E]]; its row [b] is the row of the embedding numbered by
    a column at which row [b] of the scores is largest, hence by the column
    of the largest score when one column only holds it; the step number and
    [update_embedding] do not change it. *)
Theorem extract_argmax_and_embed_value
    embedding output_projection update_embedding prev i (B C N E : nat) :
  let scores := match output_projection with
                | Some (W, b) => xw_plus_b prev W b
                | None => prev
                end in
  tshape scores = [B; C] -> tshape embedding = [N; E] -> (0 < C)%nat ->
  let next := _extract_argmax_and_embed embedding output_projection update_embedding prev i in
  tshape next = [B; E] /\
  forall b, (b < B)%nat ->
    (exists symbol,
       (symbol < C)%nat /\
       (forall j, (j < C)%nat -> tget scores [b; j] <= tget scores [b; symbol]) /\
       forall e, tget next [b; e] = tget embedding [symbol; e]) /\
    (forall top, (top < C)%nat ->
       (forall j, (j < C)%nat -> j <> top -> tget scores [b; j] < tget scores [b; top]) ->
       forall e, tget next [b; e] = tget embedding [top; e]).
Proof.
  intros scores Hs He HC next.
  assert (Hnext : next = embedding_lookup embedding (argmax scores)).
  { subst next scores. unfold _extract_argmax_and_embed, stop_gradient.
    destruct output_projection as [[W b]|]; destruct update_embedding; reflexivity. }
  rewrite Hnext. unfold embedding_lookup, argmax. cbn [tshape tget op_result length].
  rewrite Hs, He. cbn [nth skipn app firstn]. split; [reflexivity|].
  intros b Hb. set (f := fun j => tget scores [b; j]).
  assert (Hlt : (argmax_upto f C < C)%nat) by (apply argmax_upto_lt; exact HC).
  assert (Hmax : forall j, (j < C)%nat -> f j <= f (argmax_upto f C))
    by (intros j Hj; apply (argmax_upto_max f C j Hj)).
  split.
  - exists (argmax_upto f C). split; [exact Hlt|]. split; [exact Hmax|].
    intros e. rewrite Nat2Z.id. reflexivity.
  - intros top Htop Hstrict e. rewrite Nat2Z.id.
    destruct (Nat.eq_dec (argmax_upto f C) top) as [->|Hne]; [reflexivity|].
    pose proof (Hstrict _ Hlt Hne) as H1. pose proof (Hmax top Htop) as H2.
    fold (f (argmax_upto f C)) in H1. fold (f top) in H1. lra.
Qed.

Lemma extract_argmax_and_embed_value_witness :
  tshape (_extract_argmax_and_embed index_embedding None true peaked_scores 1%nat)
  = [1; 2]%nat /\
  tget (_extract_argmax_and_embed index_embedding None true peaked_scores 1%nat)
       [0; 1]%nat = 2.
Proof.
  destruct (extract_argmax_and_embed_value index_embedding None true peaked_scores
              1%nat 1%nat 3%nat 3%nat 2%nat eq_refl eq_refl ltac:(lia)) as [Hs Hrow].
  split; [exact Hs|].
  destruct (Hrow 0%nat ltac:(lia)) as [_ Htop].
  rewrite (Htop 2%nat ltac:(lia)).
  - cbn. lra.
  - intros [|[|[|j]]] Hj Hne; cbn; try lra; try lia; congruence.
Defined.

(** ** The embedding wrapper *)

Lemma decoder_function_ok
    theta linear_layer cur decoder_inputs initial_state distract_initial_state
    attention_states attention_states_query cell distraction_cell output_size
    heads loop_function scope initial_state_attention st outputs state st' :
  dynamic_simple_soft_distraction_decoder theta linear_layer cur decoder_inputs
    initial_state distract_initial_state attention_states attention_states_query
    cell distraction_cell output_size heads loop_function scope
    initial_state_attention st = (Ok (outputs, state), st') ->
  exists ls,
    decoder_run theta linear_layer cur decoder_inputs initial_state
      distract_initial_state attention_states attention_states_query
      cell distraction_cell output_size heads loop_function scope
      initial_state_attention st = (Ok ls, st') /\
    outputs = ls_outputs ls /\ state = ls_state ls.
Proof.
  unfold dynamic_simple_soft_distraction_decoder. intros H.
  apply bind_ok in H. destruct H as (ls & st1 & Hrun & H). injection H as <- <- <-.
  exists ls. auto.
Qed.

(** ** The ValueErrors of the decoder *)




Lemma mret_bind {A B} (a : A) (f : A -> M B) : mret a ≫= f = f a.
Proof. reflexivity. Qed.

Section WrapperProperties.

Variable theta : nat -> list nat -> R.
Variable linear_layer : layer linear_args (tensor R).
Variables (cur : var_scope) (decoder_inputs : list (tensor Z)).
Variables (initial_state distract_initial_state : tensor R).
Variables (attention_states attention_states_query : tensor R).
Variables (cell_encoder distraction_cell : rnn_cell).
Variables (num_symbols embedding_size : nat) (num_heads : Z) (output_size : option nat).
Variable output_projection : option (tensor R * tensor R).
Variables (feed_previous update_embedding_for_previous : bool).
Variables (embedding_scope scope : option (string + var_scope)).
Variable initial_state_attention : bool.

#[local] Abbreviation wrapper :=
  (dynamic_simple_soft_distraction_decoder_wrapper theta linear_layer cur decoder_inputs
     initial_state distract_initial_state attention_states attention_states_query
     cell_encoder distraction_cell num_symbols embedding_size num_heads output_size
     output_projection feed_previous update_embedding_for_previous embedding_scope
     scope initial_state_attention).

#[local] Abbreviation embedding_scope' :=
  (variable_scope cur
     (default (inl "dynamic_simple_soft_distraction_decoder_wrapper") embedding_scope)
     (Some true)).

Lemma embedding_scope_reuses : sreuse embedding_scope' = true.
Proof. destruct embedding_scope as [[name|sc]|]; reflexivity. Qed.

Lemma wrapper_after_check st :
  projection_accepted output_projection num_symbols ->
  wrapper st
  = (embedding ← get_variable embedding_scope' "embedding"
                   [Some num_symbols; Some embedding_size];
     dynamic_simple_soft_distraction_decoder theta linear_layer
       (variable_scope cur
          (default (inl "dynamic_simple_soft_distraction_decoder_wrapper") scope) None)
       (map (embedding_lookup (read theta embedding)) decoder_inputs)
       initial_state distract_initial_state attention_states attention_states_query
       cell_encoder distraction_cell
       (Some (default (output_size_of cell_encoder) output_size)) num_heads
       (if feed_previous
        then Some (_extract_argmax_and_embed (read theta embedding) output_projection
                     update_embedding_for_previous)
        else None)
       None initial_state_attention) st.
Proof.
  unfold projection_accepted, dynamic_simple_soft_distraction_decoder_wrapper.
  destruct output_projection as [[W b]|]; intros Hp.
  - rewrite (lift_bind _ _ _ Hp). reflexivity.
  - rewrite mret_bind. reflexivity.
Qed.

(** X16: the wrapper never creates the embedding.  It raises
    [ValueError], leaving the variable store as it was, when the biases of
    [output_projection] have a static shape that is not compatible with
    [[num_symbols]]; and otherwise when the embedding scope holds no
    variable [embedding], or holds one whose shape is not
    [[num_symbols; embedding_size]]. *)
Theorem wrapper_needs_embedding st :
  (forall W b, output_projection = Some (W, b) ->
     assert_is_compatible_with (tstatic b) [num_symbols] <> Ok tt ->
     wrapper st = (Raise (ValueError ShapesIncompatible), st)) /\
  (projection_accepted output_projection num_symbols ->
   vars st !! full_name embedding_scope' "embedding" = None ->
   wrapper st = (Raise (ValueError VarMissing), st)) /\
  (projection_accepted output_projection num_symbols ->
   forall v, vars st !! full_name embedding_scope' "embedding" = Some v ->
     vshape v <> [num_symbols; embedding_size] ->
     wrapper st = (Raise (ValueError VarShape), st)).
Proof.
  repeat apply conj.
  - intros W b Hp Hc. unfold dynamic_simple_soft_distraction_decoder_wrapper.
    rewrite Hp. apply lift_bind_raise. unfold assert_is_compatible_with in *.
    destruct (tstatic b) as [dims|]; [|congruence].
    destruct (compatible_with dims [num_symbols]); congruence.
  - intros Hp Hnone. rewrite (wrapper_after_check st Hp).
    unfold mbind, M_bind, get_variable. rewrite Hnone, embedding_scope_reuses. reflexivity.
  - intros Hp v Hv Hshape. rewrite (wrapper_after_check st Hp).
    unfold mbind, M_bind, get_variable. rewrite Hv, embedding_scope_reuses. cbn [negb].
    destruct (compatible_with _ (vshape v)) eqn:Hc; [|reflexivity].
    apply (compatible_with_known [num_symbols; embedding_size]) in Hc. contradiction.
Qed.

(** X17: when the wrapper returns [(outputs, state)], the embedding scope
    held, before the call already, a variable [embedding] of shape
    [[num_symbols; embedding_size]], and [outputs] has one element per
    decoder input. *)
Theorem wrapper_returns st outputs state st' :
  wrapper st = (Ok (outputs, state), st') ->
  length outputs = length decoder_inputs /\
  exists v,
    vars st !! full_name embedding_scope' "embedding" = Some v /\
    vshape v = [num_symbols; embedding_size] /\
    vars st' !! full_name embedding_scope' "embedding" = Some v.
Proof.
  intros H.
  assert (Hp : projection_accepted output_projection num_symbols).
  { unfold dynamic_simple_soft_distraction_decoder_wrapper in H.
    apply bind_ok in H. destruct H as ([] & st1 & Hc & _).
    unfold projection_accepted. destruct output_projection as [[W b]|]; [|exact I].
    injection Hc as Hc _. exact Hc. }
  rewrite (wrapper_after_check st Hp) in H.
  apply bind_ok in H. destruct H as (v & st1 & Hv & H).
  pose proof (get_variable_shape _ _ [num_symbols; embedding_size] _ _ _ Hv) as Hshape.
  destruct (get_variable_inv _ _ _ _ _ _ Hv) as [(e & He & _)|(v' & Hv' & Hl & _ & _ & Hst)];
    [discriminate He|].
  injection Hv' as <-. rewrite embedding_scope_reuses in Hst. destruct Hst as [Hvars _].
  apply decoder_function_ok in H. destruct H as (ls & Hrun & -> & _).
  destruct (decoder_run_history _ _ _ _ _ _ _ _ _ _ _ _ _ _ _ _ _ _ Hrun)
    as (_ & _ & _ & _ & _ & _ & _ & Hlen & _).
  split; [rewrite Hlen; apply length_map|].
  exists v. rewrite <- Hvars. split; [exact Hl|]. split; [exact Hshape|].
  assert (Hs := sound_decoder_run (fun _ => True) _ _ _ _ _ _ _ _ _ _ _ _ _ _ _
                  (fun _ _ => I) (or_intror (fun _ _ => I)) _ _ _ Hrun).
  apply Hs. exact Hl.
Qed.

End WrapperProperties.

Lemma example_wrapper_returns :
  is_ok (example_wrapper true embedding_store).1 = true.
Proof. vm_compute. reflexivity. Qed.

Lemma wrapper_returns_witness :
  exists outputs state st' v,
    example_wrapper true embedding_store = (Ok (outputs, state), st') /\
    length outputs = 2%nat /\
    vars embedding_store !! "dynamic_simple_soft_distraction_decoder_wrapper/embedding"
    = Some v /\
    vshape v = [3; 2]%nat.
Proof.
  pose proof example_wrapper_returns as Hok. unfold example_wrapper in *.
  match type of Hok with
  | is_ok (?run).1 = true => destruct run as [[[outputs state]|e] st'] eqn:H
  end; [|discriminate Hok].
  destruct (wrapper_returns _ _ _ _ _ _ _ _ _ _ _ _ _ _ _ _ _ _ _ _ _ _ _ _ H)
    as (Hlen & v & Hv & Hs & _).
  exists outputs, state, st', v. split; [reflexivity|].
  split; [exact Hlen|]. split; [exact Hv | exact Hs].
Defined.

(** ** The sequence-to-sequence function *)

Lemma bool_branch_unbound enc scope decoder_inputs num_decoder_symbols embedding_size
    num_heads output_projection feed_previous initial_state_attention :
  bind_arguments wrapper_parameters [PyIds decoder_inputs]
    (bool_branch_keywords enc scope num_decoder_symbols embedding_size num_heads
       output_projection feed_previous initial_state_attention)
  = Raise TypeError.
Proof. vm_compute. reflexivity. Qed.

(** X18: with a Python bool for [feed_previous],
    [dynamic_simple_soft_distraction_seq2seq] never returns: once the
    encoder part is built, the call of the wrapper raises [TypeError],
    because it passes the keyword [attention_state], which is no parameter
    of the wrapper, and passes nothing for [distraction_cell], which has no
    default. *)
Theorem seq2seq_bool_branch_raises
    theta linear_layer bidirectional_rnn OutputProjectionWrapper
    cur encoder_inputs decoder_inputs query_inputs cell_encoder_fw cell_encoder_bw
    distraction_cell num_encoder_symbols num_decoder_symbols embedding_size
    initial_embedding num_heads output_projection (feed_previous : bool)
    scope initial_state_attention st :
  let seq2seq :=
    dynamic_simple_soft_distraction_seq2seq theta linear_layer bidirectional_rnn
      OutputProjectionWrapper cur encoder_inputs decoder_inputs query_inputs
      cell_encoder_fw cell_encoder_bw distraction_cell num_encoder_symbols
      num_decoder_symbols embedding_size initial_embedding num_heads
      output_projection (inl feed_previous) scope initial_state_attention in
  let encoder :=
    seq2seq_encoder theta bidirectional_rnn OutputProjectionWrapper
      (variable_scope cur
         (default (inl "dynamic_simple_soft_distraction_seq2seq") scope) None)
      encoder_inputs query_inputs cell_encoder_fw cell_encoder_bw
      num_encoder_symbols num_decoder_symbols embedding_size initial_embedding
      output_projection in
  seq2seq st = (encoder ≫= fun _ => raise TypeError) st /\
  (forall result st', seq2seq st <> (Ok result, st')) /\
  ~ In "attention_state" (map fst wrapper_parameters) /\
  (forall enc sc,
     ~ In "distraction_cell"
          (map fst (bool_branch_keywords enc sc num_decoder_symbols embedding_size
                      num_heads output_projection feed_previous
                      initial_state_attention))) /\
  In ("distraction_cell", None) wrapper_parameters.
Proof.
  intros seq2seq encoder.
  assert (Heq : seq2seq st = (encoder ≫= fun _ => raise TypeError) st).
  { subst seq2seq. unfold dynamic_simple_soft_distraction_seq2seq. cbv zeta.
    fold encoder. unfold mbind, M_bind.
    destruct (encoder st) as [[enc|e] st1]; [|reflexivity].
    unfold call_wrapper. apply lift_bind_raise, bool_branch_unbound. }
  split; [exact Heq|]. split.
  - intros result st'. rewrite Heq. unfold mbind, M_bind.
    destruct (encoder st) as [[enc|e] st1]; discriminate.
  - split; [cbn; intuition discriminate|].
    split; [|cbn; tauto].
    intros enc sc H. cbn in H. intuition discriminate.
Qed.

Lemma example_bool_seq2seq_fails :
  is_type_error (example_seq2seq 3 (inl false) empty_store).1 = true.
Proof. vm_compute. reflexivity. Qed.

(** C5, at a call the code can receive: with [feed_previous] left at its
    default [False], on inputs for which the encoder is built without
    error, [dynamic_simple_soft_distraction_seq2seq] returns no
    [(outputs, state)]; it raises [TypeError]. *)
Theorem seq2seq_default_feed_previous_fails :
  exists st',
    example_seq2seq 3 (inl false) empty_store = (Raise TypeError, st') /\
    forall outputs state st'',
      example_seq2seq 3 (inl false) empty_store <> (Ok (outputs, state), st'').
Proof.
  pose proof example_bool_seq2seq_fails as Hfail.
  destruct (example_seq2seq 3 (inl false) empty_store) as [[r|[]] st'];
    try discriminate Hfail.
  exists st'. split; [reflexivity|]. intros outputs state st''. discriminate.
Qed.

Lemma cond_branch_bound enc scope distraction_cell decoder_inputs num_decoder_symbols
    embedding_size num_heads output_projection feed_previous_bool
    initial_state_attention :
  exists env,
    bind_arguments wrapper_parameters [PyIds decoder_inputs]
      (cond_branch_keywords enc scope distraction_cell num_decoder_symbols embedding_size
         num_heads output_projection feed_previous_bool initial_state_attention)
    = Ok env /\
    bound_values wrapper_parameters env
    = [Some (PyIds decoder_inputs); Some (PyTensor (encoder_state enc));
       Some (PyTensor (encoder_state enc));
       Some (PyTensor (attention_states_encoder enc));
       Some (PyTensor (encoded_attention_states_query enc));
       Some (PyCell (decoder_cell enc)); Some (PyCell distraction_cell);
       Some (PyInt (Z.of_nat num_decoder_symbols)); Some (PyInt (Z.of_nat embedding_size));
       Some (PyInt num_heads); Some (of_optional_size (decoder_output_size enc));
       Some (of_optional_projection output_projection); Some (PyBool feed_previous_bool);
       Some (PyBool false); Some (PyScope scope); Some PyNone; Some PyNone;
       Some (PyBool initial_state_attention)].
Proof.
  assert (H : match bind_arguments wrapper_parameters [PyIds decoder_inputs]
                  (cond_branch_keywords enc scope distraction_cell num_decoder_symbols
                     embedding_size num_heads output_projection feed_previous_bool
                     initial_state_attention) with
              | Ok env => bound_values wrapper_parameters env
              | Raise _ => []
              end
              = [Some (PyIds decoder_inputs); Some (PyTensor (encoder_state enc));
                 Some (PyTensor (encoder_state enc));
                 Some (PyTensor (attention_states_encoder enc));
                 Some (PyTensor (encoded_attention_states_query enc));
                 Some (PyCell (decoder_cell enc)); Some (PyCell distraction_cell);
                 Some (PyInt (Z.of_nat num_decoder_symbols));
                 Some (PyInt (Z.of_nat embedding_size));
                 Some (PyInt num_heads); Some (of_optional_size (decoder_output_size enc));
                 Some (of_optional_projection output_projection);
                 Some (PyBool feed_previous_bool);
                 Some (PyBool false); Some (PyScope scope); Some PyNone; Some PyNone;
                 Some (PyBool initial_state_attention)])
    by (vm_compute; reflexivity).
  destruct (bind_arguments _ _ _) as [env|e]; [|discriminate H].
  exists env. split; [reflexivity | exact H].
Qed.

Lemma argument_bound {A B} env name (cast : pyvalue -> option A) x a (f : A -> M B) :
  env !! name = Some x -> cast x = Some a ->
  argument env name cast ≫= f = f a.
Proof. intros Hx Ha. unfold argument. rewrite Hx. cbn. rewrite Ha. reflexivity. Qed.

Lemma as_optional_size_of n : as_optional_size (of_optional_size n) = Some n.
Proof. destruct n as [n|]; cbn; [rewrite Nat2Z.id|]; reflexivity. Qed.

Lemma as_optional_projection_of p :
  as_optional_projection (of_optional_projection p) = Some p.
Proof. destruct p as [[w b]|]; reflexivity. Qed.

Lemma as_size_of n : as_size (PyInt (Z.of_nat n)) = Some n.
Proof. cbn. rewrite Nat2Z.id. reflexivity. Qed.

(** In the branch for a tensor, the call binds every parameter of the
    wrapper. *)
Lemma cond_branch_call theta linear_layer enc scope distraction_cell decoder_inputs
    num_decoder_symbols embedding_size num_heads output_projection feed_previous_bool
    initial_state_attention :
  call_wrapper theta linear_layer scope [PyIds decoder_inputs]
    (cond_branch_keywords enc scope distraction_cell num_decoder_symbols embedding_size
       num_heads output_projection feed_previous_bool initial_state_attention)
  = dynamic_simple_soft_distraction_decoder_wrapper theta linear_layer scope
      decoder_inputs (encoder_state enc) (encoder_state enc)
      (attention_states_encoder enc) (encoded_attention_states_query enc)
      (decoder_cell enc) distraction_cell num_decoder_symbols embedding_size num_heads
      (decoder_output_size enc) output_projection feed_previous_bool false
      (Some (inr scope)) None initial_state_attention.
Proof.
  destruct (cond_branch_bound enc scope distraction_cell decoder_inputs
              num_decoder_symbols embedding_size num_heads output_projection
              feed_previous_bool initial_state_attention) as (env & Hb & Hv).
  unfold call_wrapper. rewrite (lift_bind _ _ _ Hb). unfold wrapper_body.
  cbn [bound_values map wrapper_parameters fst] in Hv.
  injection Hv as H1 H2 H3 H4 H5 H6 H7 H8 H9 H10 H11 H12 H13 H14 H15 H16 H17 H18.
  rewrite (argument_bound env _ as_ids _ _ _ H1 eq_refl).
  rewrite (argument_bound env _ as_tensor _ _ _ H2 eq_refl).
  rewrite (argument_bound env _ as_tensor _ _ _ H3 eq_refl).
  rewrite (argument_bound env _ as_tensor _ _ _ H4 eq_refl).
  rewrite (argument_bound env _ as_tensor _ _ _ H5 eq_refl).
  rewrite (argument_bound env _ as_cell _ _ _ H6 eq_refl).
  rewrite (argument_bound env _ as_cell _ _ _ H7 eq_refl).
  rewrite (argument_bound env _ as_size _ _ _ H8 (as_size_of _)).
  rewrite (argument_bound env _ as_size _ _ _ H9 (as_size_of _)).
  rewrite (argument_bound env _ as_int _ _ _ H10 eq_refl).
  rewrite (argument_bound env _ as_optional_size _ _ _ H11 (as_optional_size_of _)).
  rewrite (argument_bound env _ as_optional_projection _ _ _ H12
             (as_optional_projection_of _)).
  rewrite (argument_bound env _ as_bool _ _ _ H13 eq_refl).
  rewrite (argument_bound env _ as_bool _ _ _ H14 eq_refl).
  rewrite (argument_bound env _ as_optional_scope _ _ _ H15 eq_refl).
  rewrite (argument_bound env _ as_optional_scope _ _ _ H17 eq_refl).
  rewrite (argument_bound env _ as_bool _ _ _ H18 eq_refl).
  reflexivity.
Qed.

Lemma wrapper_outputs_length theta linear_layer cur decoder_inputs initial_state
    distract_initial_state attention_states attention_states_query cell_encoder
    distraction_cell num_symbols embedding_size num_heads output_size output_projection
    feed_previous update_embedding_for_previous embedding_scope scope
    initial_state_attention st outputs state st' :
  dynamic_simple_soft_distraction_decoder_wrapper theta linear_layer cur decoder_inputs
    initial_state distract_initial_state attention_states attention_states_query
    cell_encoder distraction_cell num_symbols embedding_size num_heads output_size
    output_projection feed_previous update_embedding_for_previous embedding_scope
    scope initial_state_attention st = (Ok (outputs, state), st') ->
  length outputs = length decoder_inputs.
Proof.
  intros H. unfold dynamic_simple_soft_distraction_decoder_wrapper in H.
  apply bind_ok in H. destruct H as ([] & st1 & _ & H).
  apply bind_ok in H. destruct H as (v & st2 & _ & H).
  apply decoder_function_ok in H. destruct H as (ls & Hrun & -> & _).
  destruct (decoder_run_history _ _ _ _ _ _ _ _ _ _ _ _ _ _ _ _ _ _ Hrun)
    as (_ & _ & _ & _ & _ & _ & _ & Hlen & _).
  rewrite Hlen. apply length_map.
Qed.

Lemma zip_select_length pred ts : forall fs,
  length ts = length fs -> length (zip_select pred ts fs) = length ts.
Proof.
  induction ts as [|t ts IH]; intros [|f fs] H; try discriminate H; [reflexivity|].
  cbn. f_equal. apply IH. injection H as H. exact H.
Qed.

Lemma zip_select_app pred ts t : forall fs f,
  length ts = length fs ->
  zip_select pred (ts ++ [t]) (fs ++ [f]) = zip_select pred ts fs ++ [select pred t f].
Proof.
  induction ts as [|t' ts IH]; intros [|f' fs] f H; try discriminate H; [reflexivity|].
  cbn. f_equal. apply IH. injection H as H. exact H.
Qed.

(** X19: with a boolean tensor for [feed_previous], a call of
    [dynamic_simple_soft_distraction_seq2seq] that returns has built the
    wrapper twice on the same encoder results: first with
    [feed_previous = True] under the current scope, then with
    [feed_previous = False] under the same scope with [reuse]; both times
    every parameter of the wrapper is bound, with the encoder state as
    [initial_state] and as [distract_initial_state].  Every output, and the
    state, is the one of the branch that the tensor selects, and there is
    one output per decoder input. *)
Theorem seq2seq_tensor_branch
    theta linear_layer bidirectional_rnn OutputProjectionWrapper
    cur encoder_inputs decoder_inputs query_inputs cell_encoder_fw cell_encoder_bw
    distraction_cell num_encoder_symbols num_decoder_symbols embedding_size
    initial_embedding num_heads output_projection (feed_previous : tensor bool)
    scope initial_state_attention st outputs state st' :
  dynamic_simple_soft_distraction_seq2seq theta linear_layer bidirectional_rnn
    OutputProjectionWrapper cur encoder_inputs decoder_inputs query_inputs
    cell_encoder_fw cell_encoder_bw distraction_cell num_encoder_symbols
    num_decoder_symbols embedding_size initial_embedding num_heads
    output_projection (inr feed_previous) scope initial_state_attention st
  = (Ok (outputs, state), st') ->
  let sc := variable_scope cur
              (default (inl "dynamic_simple_soft_distraction_seq2seq") scope) None in
  let wrapper enc (feed_previous_bool : bool) (reuse : option bool) :=
    dynamic_simple_soft_distraction_decoder_wrapper theta linear_layer
      (variable_scope sc (inr sc) reuse)
      decoder_inputs (encoder_state enc) (encoder_state enc)
      (attention_states_encoder enc) (encoded_attention_states_query enc)
      (decoder_cell enc) distraction_cell num_decoder_symbols embedding_size num_heads
      (decoder_output_size enc) output_projection feed_previous_bool false
      (Some (inr (variable_scope sc (inr sc) reuse))) None initial_state_attention in
  exists enc st1 outputs_t state_t st2 outputs_f state_f,
    seq2seq_encoder theta bidirectional_rnn OutputProjectionWrapper sc
      encoder_inputs query_inputs cell_encoder_fw cell_encoder_bw
      num_encoder_symbols num_decoder_symbols embedding_size initial_embedding
      output_projection st = (Ok enc, st1) /\
    wrapper enc true None st1 = (Ok (outputs_t, state_t), st2) /\
    wrapper enc false (Some true) st2 = (Ok (outputs_f, state_f), st') /\
    outputs = zip_select feed_previous outputs_t outputs_f /\
    state = select feed_previous state_t state_f /\
    length outputs = length decoder_inputs.
Proof.
  intros H sc wrapper. unfold dynamic_simple_soft_distraction_seq2seq in H.
  cbv zeta in H. fold sc in H.
  apply bind_ok in H. destruct H as (enc & st1 & Henc & H).
  apply bind_ok in H. destruct H as (outputs_and_state & st3 & Hcond & H).
  apply bind_ok in H. destruct H as (state0 & st4 & Hitem & H).
  injection Hitem as Hitem <-. injection H as <- <- <-.
  unfold cond in Hcond.
  apply bind_ok in Hcond. destruct Hcond as (res_t & st2 & Ht & Hcond).
  apply bind_ok in Hcond. destruct Hcond as (res_f & st5 & Hf & Hcond).
  destruct (length res_t =? length res_f)%nat eqn:Hlen; [|discriminate Hcond].
  injection Hcond as <- <-. apply Nat.eqb_eq in Hlen.
  rewrite cond_branch_call in Ht, Hf.
  apply bind_ok in Ht. destruct Ht as ([outputs_t state_t] & st6 & Ht & Hrt).
  injection Hrt as <- <-.
  apply bind_ok in Hf. destruct Hf as ([outputs_f state_f] & st7 & Hf & Hrf).
  injection Hrf as <- <-.
  pose proof (wrapper_outputs_length _ _ _ _ _ _ _ _ _ _ _ _ _ _ _ _ _ _ _ _ _ _ _ _ Ht)
    as Hlt.
  pose proof (wrapper_outputs_length _ _ _ _ _ _ _ _ _ _ _ _ _ _ _ _ _ _ _ _ _ _ _ _ Hf)
    as Hlf.
  assert (Hsame : length outputs_t = length outputs_f) by congruence.
  rewrite (zip_select_app _ _ _ _ _ Hsame) in Hitem |- *.
  assert (Hz : length (zip_select feed_previous outputs_t outputs_f)
               = length decoder_inputs).
  { rewrite zip_select_length by exact Hsame. exact Hlt. }
  rewrite <- Hz in Hitem |- *.
  rewrite skipn_app, skipn_all, Nat.sub_diag in Hitem. cbn in Hitem.
  injection Hitem as <-.
  rewrite firstn_app, firstn_all, Nat.sub_diag. cbn [firstn]. rewrite app_nil_r.
  exists enc, st1, outputs_t, state_t, st6, outputs_f, state_f.
  split; [exact Henc|]. split; [exact Ht|]. split; [exact Hf|].
  split; [reflexivity|]. split; [reflexivity | first [exact Hz | reflexivity]].
Qed.

Lemma example_seq2seq_returns :
  is_ok (example_seq2seq 3 (inr example_predicate) empty_store).1 = true.
Proof. vm_compute. reflexivity. Qed.

Lemma seq2seq_tensor_branch_witness :
  exists outputs state st' outputs_t outputs_f,
    example_seq2seq 3 (inr example_predicate) empty_store = (Ok (outputs, state), st') /\
    outputs = zip_select example_predicate outputs_t outputs_f /\
    length outputs = 2%nat.
Proof.
  pose proof example_seq2seq_returns as Hok. unfold example_seq2seq in *.
  match type of Hok with
  | is_ok (?run).1 = true => destruct run as [[[outputs state]|e] st'] eqn:H
  end; [|discriminate Hok].
  destruct (seq2seq_tensor_branch example_theta example_linear example_bidirectional_rnn
              example_projection_wrapper root_scope [example_symbols]
              [example_symbols; example_symbols] [example_symbols]
              example_cell example_cell example_cell 3 3 2 None 1 None example_predicate
              None false empty_store outputs state st' H)
    as (enc & st1 & outputs_t & state_t & st2 & outputs_f & state_f
        & _ & _ & _ & Ho & _ & Hlen).
  exists outputs, state, st', outputs_t, outputs_f.
  split; [reflexivity|]. split; [exact Ho | exact Hlen].
Defined.

Lemma encoder_embedding theta bidirectional_rnn OutputProjectionWrapper scope
    encoder_inputs query_inputs cell_encoder_fw cell_encoder_bw
    num_encoder_symbols num_decoder_symbols embedding_size output_projection
    st enc st1 :
  (forall sc fw bw inputs, keeps_variables (bidirectional_rnn sc fw bw inputs)) ->
  (forall cell size, keeps_variables (OutputProjectionWrapper cell size)) ->
  seq2seq_encoder theta bidirectional_rnn OutputProjectionWrapper scope
    encoder_inputs query_inputs cell_encoder_fw cell_encoder_bw
    num_encoder_symbols num_decoder_symbols embedding_size None output_projection st
  = (Ok enc, st1) ->
  exists v, vars st1 !! full_name scope "embedding" = Some v /\
            vshape v = [num_encoder_symbols; embedding_size].
Proof.
  intros Hrnn Hwrap H. unfold seq2seq_encoder in H.
  apply bind_ok in H. destruct H as (v & st2 & Hv & H).
  pose proof (get_variable_shape _ _ [num_encoder_symbols; embedding_size] _ _ _ Hv)
    as Hshape.
  destruct (get_variable_inv _ _ _ _ _ _ Hv) as [(e & He & _)|(v' & Hv' & Hl & _)];
    [discriminate He|].
  injection Hv' as <-.
  apply bind_ok in H. destruct H as ([[encoder_outputs fw] bw] & st3 & Hr1 & H).
  apply bind_ok in H. destruct H as ([[query_outputs qfw] qbw] & st4 & Hr2 & H).
  apply bind_ok in H. destruct H as ([cell output_size] & st5 & Hc & H).
  injection H as _ <-.
  exists v. split; [|exact Hshape].
  apply Hrnn in Hr1. apply Hrnn in Hr2. apply Hr1, Hr2 in Hl.
  destruct output_projection as [p|].
  - injection Hc as _ _ <-. exact Hl.
  - apply bind_ok in Hc. destruct Hc as (c & st6 & Hc & Hm). injection Hm as _ _ <-.
    apply Hwrap in Hc. apply Hc. exact Hl.
Qed.

(** X20: the decoder side looks up the embedding that the encoder side
    has created, with [reuse], as a variable of shape
    [[num_decoder_symbols; embedding_size]].  So, with a boolean tensor for
    [feed_previous] and no [initial_embedding], when the operations of the
    sibling modules keep the variables of the store and the two symbol
    counts differ, the call raises [ValueError] as soon as the encoder part
    is built, and nothing of the decoder is. *)
Theorem seq2seq_symbol_counts_must_agree
    theta linear_layer bidirectional_rnn OutputProjectionWrapper
    cur encoder_inputs decoder_inputs query_inputs cell_encoder_fw cell_encoder_bw
    distraction_cell num_encoder_symbols num_decoder_symbols embedding_size
    num_heads output_projection (feed_previous : tensor bool)
    scope initial_state_attention st enc st1 :
  (forall sc fw bw inputs, keeps_variables (bidirectional_rnn sc fw bw inputs)) ->
  (forall cell size, keeps_variables (OutputProjectionWrapper cell size)) ->
  num_decoder_symbols <> num_encoder_symbols ->
  seq2seq_encoder theta bidirectional_rnn OutputProjectionWrapper
    (variable_scope cur
       (default (inl "dynamic_simple_soft_distraction_seq2seq") scope) None)
    encoder_inputs query_inputs cell_encoder_fw cell_encoder_bw
    num_encoder_symbols num_decoder_symbols embedding_size None output_projection st
  = (Ok enc, st1) ->
  exists v,
    dynamic_simple_soft_distraction_seq2seq theta linear_layer bidirectional_rnn
      OutputProjectionWrapper cur encoder_inputs decoder_inputs query_inputs
      cell_encoder_fw cell_encoder_bw distraction_cell num_encoder_symbols
      num_decoder_symbols embedding_size None num_heads
      output_projection (inr feed_previous) scope initial_state_attention st
    = (Raise (ValueError v), st1).
Proof.
  intros Hrnn Hwrap Hne Henc.
  destruct (encoder_embedding _ _ _ _ _ _ _ _ _ _ _ _ _ _ _ Hrnn Hwrap Henc)
    as (v & Hv & Hshape).
  set (sc := variable_scope cur
               (default (inl "dynamic_simple_soft_distraction_seq2seq") scope) None) in *.
  set (sc_t := variable_scope sc (inr sc) None).
  assert (Hwrapper : exists e,
    dynamic_simple_soft_distraction_decoder_wrapper theta linear_layer sc_t
      decoder_inputs (encoder_state enc) (encoder_state enc)
      (attention_states_encoder enc) (encoded_attention_states_query enc)
      (decoder_cell enc) distraction_cell num_decoder_symbols embedding_size num_heads
      (decoder_output_size enc) output_projection true false
      (Some (inr sc_t)) None initial_state_attention st1
    = (Raise (ValueError e), st1)).
  { unfold dynamic_simple_soft_distraction_decoder_wrapper.
    set (es := variable_scope sc_t
                 (default (inl "dynamic_simple_soft_distraction_decoder_wrapper")
                          (Some (inr sc_t))) (Some true)).
    assert (Hes : full_name es "embedding" = full_name sc "embedding") by reflexivity.
    assert (Hreuse : sreuse es = true) by reflexivity.
    destruct output_projection as [[W b]|].
    - destruct (assert_is_compatible_with (tstatic b) [num_decoder_symbols])
        as [[]|e] eqn:Hc.
      + rewrite (lift_bind (Ok tt) tt) by reflexivity. exists VarShape.
        unfold mbind, M_bind, get_variable. fold es. rewrite Hes, Hv, Hreuse. cbn [negb].
        destruct (compatible_with _ (vshape v)) eqn:Hcv; [|reflexivity].
        apply (compatible_with_known [num_decoder_symbols; embedding_size]) in Hcv.
        rewrite Hshape in Hcv. injection Hcv as Hcv. congruence.
      + exists ShapesIncompatible.
        assert (He : e = ValueError ShapesIncompatible).
        { unfold assert_is_compatible_with in Hc.
          destruct (tstatic b) as [dims|]; [|discriminate Hc].
          destruct (compatible_with dims [num_decoder_symbols]); [discriminate Hc|].
          injection Hc as <-. reflexivity. }
        subst e. apply lift_bind_raise. reflexivity.
    - rewrite mret_bind. exists VarShape.
      unfold mbind, M_bind, get_variable. fold es. rewrite Hes, Hv, Hreuse. cbn [negb].
      destruct (compatible_with _ (vshape v)) eqn:Hcv; [|reflexivity].
      apply (compatible_with_known [num_decoder_symbols; embedding_size]) in Hcv.
      rewrite Hshape in Hcv. injection Hcv as Hcv. congruence. }
  destruct Hwrapper as (e & He). exists e.
  unfold dynamic_simple_soft_distraction_seq2seq. cbv zeta. fold sc. fold sc_t.
  unfold mbind at 1, M_bind at 1. rewrite Henc.
  unfold mbind at 1, M_bind at 1. unfold cond.
  unfold mbind at 1, M_bind at 1. unfold mbind at 1, M_bind at 1.
  rewrite cond_branch_call, He. reflexivity.
Qed.

Lemma example_encoder_returns :
  is_ok (seq2seq_encoder example_theta example_bidirectional_rnn
           example_projection_wrapper
           (variable_scope root_scope
              (default (inl "dynamic_simple_soft_distraction_seq2seq") None) None)
           [example_symbols] [example_symbols] example_cell example_cell
           3 4 2 None None empty_store).1 = true.
Proof. vm_compute. reflexivity. Qed.

Lemma seq2seq_symbol_counts_must_agree_witness :
  exists v st1,
    example_seq2seq 4 (inr example_predicate) empty_store = (Raise (ValueError v), st1).
Proof.
  pose proof example_encoder_returns as Hok.
  match type of Hok with
  | is_ok (?run).1 = true => destruct run as [[enc|e] st1] eqn:H
  end; [|discriminate Hok].
  destruct (seq2seq_symbol_counts_must_agree example_theta example_linear
              example_bidirectional_rnn example_projection_wrapper root_scope
              [example_symbols] [example_symbols; example_symbols] [example_symbols]
              example_cell example_cell example_cell 3 4 2 1 None example_predicate
              None false empty_store enc st1) as (v & Hv).
  - intros sc fw bw inputs st r st' Hr. injection Hr as _ <-. apply store_le_refl.
  - intros cell size st r st' Hr. injection Hr as _ <-. apply store_le_refl.
  - discriminate.
  - exact H.
  - exists v, st1. exact Hv.
Defined.

(** ** The gate at the second step *)

Lemma first_record_zero
    theta linear_layer cur decoder_inputs initial_state distract_initial_state
    attention_states attention_states_query cell distraction_cell output_size
    heads loop_function scope st ls st' :
  decoder_run theta linear_layer cur decoder_inputs initial_state
              distract_initial_state attention_states attention_states_query
              cell distraction_cell output_size heads loop_function scope
              false st = (Ok ls, st') ->
  exists input0 inputs n r0 rest,
    decoder_inputs = input0 :: inputs /\
    dimension (tstatic attention_states) 2 = Ok (Some n) /\
    ls_history ls = r0 :: rest /\
    sr_distract_output r0 = zeros_batch (shape_dim input0 0) n.
Proof.
  intros H.
  destruct (decoder_run_ok _ _ _ _ _ _ _ _ _ _ _ _ _ _ _ _ _ _ H)
    as (input0 & inputs & n & env & gw & gb & ls0 & st0 & Hin & Hh & Hd & Hs & Hl).
  pose proof (decoder_setup_zero_attention _ _ _ _ _ _ _ _ _ _ _ _ _ _ _ _ Hs) as Hz.
  destruct (decoder_setup_ok _ _ _ _ _ _ _ _ _ _ _ _ _ _ _ _ _ Hs)
    as (_ & _ & Hpa & _ & Hhi & _).
  rewrite Hin in Hl. apply decoder_loop_first in Hl.
  destruct Hl as (ls1 & st1 & Hstep & Hloop).
  destruct (decoder_step_ok _ _ _ _ _ _ _ _ _ _ _ _ _ _ _ Hstep)
    as (r & Hh1 & _ & _ & Hpa1 & _ & _ & Hitem & (_ & Hdo & _) & _).
  destruct (decoder_loop_ok _ _ _ _ _ _ _ _ _ _ _ _ _ _ _ Hloop) as (new & Hh' & _).
  rewrite Hh1, Hhi in Hh'. cbn in Hh'.
  assert (Ha : sr_a r = zeros_batch (shape_dim input0 0) n).
  { rewrite Hz in Hitem. destruct (Z.to_nat heads) as [|h] eqn:Hn; [lia|].
    cbn in Hitem. injection Hitem as <-. reflexivity. }
  rewrite Hpa1, Hpa in Hdo. cbn [distraction] in Hdo.
  exists input0, inputs, n, r, new. rewrite Hdo, Ha. auto.
Qed.

(** X21: unless [initial_state_attention] is set, the gate changes
    nothing at the second step either: [prev_attn] is then the all-zero
    [distract_output] of the first step, so for an attention read [a] of
    shape [[batch_size; attn_size]] the second [distract_output] equals
    [a] at every position.  The gate first takes effect at the third
    step. *)
Theorem decoder_gate_idle_at_second_step
    theta linear_layer cur decoder_inputs initial_state distract_initial_state
    attention_states attention_states_query cell distraction_cell output_size
    heads loop_function scope st ls st' :
  decoder_run theta linear_layer cur decoder_inputs initial_state
              distract_initial_state attention_states attention_states_query
              cell distraction_cell output_size heads loop_function scope
              false st = (Ok ls, st') ->
  exists input0 inputs n,
    decoder_inputs = input0 :: inputs /\
    dimension (tstatic attention_states) 2 = Ok (Some n) /\
    forall r1, ls_history ls !! 1%nat = Some r1 ->
      tshape (sr_a r1) = [shape_dim input0 0; n] ->
      forall b j, (b < shape_dim input0 0)%nat -> (j < n)%nat ->
        tget (sr_distract_output r1) [b; j] = tget (sr_a r1) [b; j].
Proof.
  intros H.
  destruct (first_record_zero _ _ _ _ _ _ _ _ _ _ _ _ _ _ _ _ _ H)
    as (input0 & inputs & n & r0 & rest & Hin & Hd & Hh & Hzero).
  destruct (decoder_run_history _ _ _ _ _ _ _ _ _ _ _ _ _ _ _ _ _ _ H)
    as (n' & gw & gb & Hd' & Hgw & Hgb & _ & _ & Hchain & Hrecs & _).
  rewrite Hd in Hd'. injection Hd' as <-.
  exists input0, inputs, n. split; [exact Hin|]. split; [exact Hd|].
  intros r1 Hr1 Ha b j Hb Hj. rewrite Hh in Hr1, Hchain, Hrecs.
  pose proof (attn_chain_next _ _ 0%nat r0 r1 Hchain eq_refl Hr1) as Hprev.
  pose proof (Forall_lookup_1 _ _ _ _ Hrecs Hr1) as (_ & Hdo & _).
  rewrite Hprev, Hzero in Hdo. rewrite Hdo.
  rewrite (distraction_value (sr_a r1) (zeros_batch (shape_dim input0 0) n)
             (read theta gw) (read theta gb) (shape_dim input0 0) n
             Ha eq_refl Hgw Hgb b j Hb Hj).
  cbn [zeros_batch tget]. lra.
Qed.

Lemma decoder_gate_idle_at_second_step_witness :
  exists ls st' r0 r1,
    example_run [example_input; example_input] empty_store = (Ok ls, st') /\
    ls_history ls = [r0; r1] /\
    tget (sr_distract_output r1) [0; 0]%nat = tget (sr_a r1) [0; 0]%nat.
Proof.
  pose proof example_run_shapes as Hshapes. unfold example_run in *.
  match type of Hshapes with
  | attention_shapes_are _ (?run).1 = true => destruct run as [[ls|e] st'] eqn:H
  end; [|discriminate Hshapes].
  apply attention_shapes_are_ok in Hshapes.
  destruct (decoder_gate_idle_at_second_step _ _ _ _ _ _ _ _ _ _ _ _ _ _ _ _ _ H)
    as (input0 & inputs & n & Hin & Hd & Hidle).
  injection Hin as <- _. injection Hd as <-.
  destruct (decoder_run_history _ _ _ _ _ _ _ _ _ _ _ _ _ _ _ _ _ _ H)
    as (_ & _ & _ & _ & _ & _ & Hlen & _).
  destruct (ls_history ls) as [|r0 [|r1 [|r2 rest]]] eqn:Hh; try discriminate Hlen.
  destruct (Forall_inv (Forall_inv_tail Hshapes)) as [Hr1 _].
  exists ls, st', r0, r1. split; [reflexivity|]. split; [exact Hh|].
  apply (Hidle r1 eq_refl Hr1); [apply Nat.lt_0_1 | apply Nat.lt_0_2].
Defined.
